(** * The proposal-review pipeline of NSFC_Writer

    A shallow embedding of [src/proposal_reviewer.py]: the section
    segmenter ([_extract_sections]), the review engine
    ([_review_with_model], [_parse_review_response], [_review_rule_based],
    [review_full_proposal]) and the assembler ([generate_revised_proposal]),
    together with the fragment of Python's [str] and [re] they rely on.

    Python strings are sequences of Unicode code points, so a text is a
    list of code points; offsets and lengths are natural numbers. *)

From Stdlib Require Import String Ascii List Bool Arith NArith ZArith QArith Lia.
From Stdlib Require Import Sorting.Sorted Sorting.Permutation.
From Stdlib Require DecimalString.
Import ListNotations.
Local Open Scope nat_scope.

Definition char := N.
Definition text := list char.

(** ** Python strings *)

Module Py.

(** Source literals are written as UTF-8 string literals and decoded to
    code points. *)
Fixpoint utf8 (bs : list N) : text :=
  match bs with
  | [] => []
  | b0 :: t0 =>
    if (b0 <? 128)%N then b0 :: utf8 t0
    else match t0 with
    | [] => []
    | b1 :: t1 =>
      if (b0 <? 224)%N then ((b0 - 192) * 64 + (b1 - 128))%N :: utf8 t1
      else match t1 with
      | [] => []
      | b2 :: t2 =>
        if (b0 <? 240)%N
        then ((b0 - 224) * 4096 + (b1 - 128) * 64 + (b2 - 128))%N :: utf8 t2
        else match t2 with
        | [] => []
        | b3 :: t3 =>
          ((b0 - 240) * 262144 + (b1 - 128) * 4096
           + (b2 - 128) * 64 + (b3 - 128))%N :: utf8 t3
        end
      end
    end
  end.

Definition u (s : string) : text :=
  utf8 (map N_of_ascii (list_ascii_of_string s)).
Arguments u s%_string.

Definition LF : char := 10%N.
Definition QUOTE : char := 34%N.

Fixpoint eqb (a b : text) : bool :=
  match a, b with
  | [], [] => true
  | x :: a', y :: b' => (x =? y)%N && eqb a' b'
  | _, _ => false
  end.

(** [str.isspace] on one character; [\s] of [re] is the same set
    (Unicode 14, as shipped with CPython 3.11). *)
Definition whitespace : list char :=
  [9; 10; 11; 12; 13; 28; 29; 30; 31; 32; 133; 160; 5760;
   8192; 8193; 8194; 8195; 8196; 8197; 8198; 8199; 8200; 8201; 8202;
   8232; 8233; 8239; 8287; 12288]%N.

Definition isspace (c : char) : bool := existsb (N.eqb c) whitespace.

(** The decimal digits (category Nd) come in runs of ten consecutive code
    points, each run starting at the digit zero of its script. *)
Definition decimal_zeros : list char :=
  [48; 1632; 1776; 1984; 2406; 2534; 2662; 2790; 2918; 3046; 3174; 3302;
   3430; 3558; 3664; 3792; 3872; 4160; 4240; 6112; 6160; 6470; 6608; 6784;
   6800; 6992; 7088; 7232; 7248; 42528; 43216; 43264; 43472; 43504; 43600;
   44016; 65296; 66720; 68912; 69734; 69872; 69942; 70096; 70384; 70736;
   70864; 71248; 71360; 71472; 71904; 72016; 72784; 73040; 73120; 92768;
   92864; 93008; 120782; 120792; 120802; 120812; 120822; 123200; 123632;
   125264; 130032]%N.

(** [unicodedata.decimal] *)
Definition decimal (c : char) : option N :=
  match find (fun z => (z <=? c)%N && (c <? z + 10)%N) decimal_zeros with
  | Some z => Some (c - z)%N
  | None => None
  end.

Definition isdecimal (c : char) : bool :=
  match decimal c with Some _ => true | None => false end.

(** [t[a:b]] for non-negative indices *)
Definition slice (a b : nat) (t : text) : text := firstn (b - a) (skipn a t).

Fixpoint lstrip (t : text) : text :=
  match t with
  | c :: t' => if isspace c then lstrip t' else t
  | [] => []
  end.

Definition rstrip (t : text) : text := rev (lstrip (rev t)).

Definition strip (t : text) : text := rstrip (lstrip t).

Fixpoint startswith (p t : text) : bool :=
  match p, t with
  | [], _ => true
  | a :: p', b :: t' => (a =? b)%N && startswith p' t'
  | _ :: _, [] => false
  end.

(** [sub in t] *)
Fixpoint contains (sub t : text) : bool :=
  startswith sub t ||
  match t with
  | [] => false
  | _ :: t' => contains sub t'
  end.

(** [sep.join(parts)] *)
Fixpoint join (sep : text) (parts : list text) : text :=
  match parts with
  | [] => []
  | [p] => p
  | p :: ps => p ++ sep ++ join sep ps
  end.

(** [str(n)] for an integer *)
Definition str_of_Z (z : Z) : text :=
  map N_of_ascii
    (list_ascii_of_string (DecimalString.NilZero.string_of_int (Z.to_int z))).

(** [t.split(sep)] for a separator of one character: the parts between
    the separators, empty parts included. *)
Fixpoint split (sep : char) (t : text) : list text :=
  match t with
  | [] => [[]]
  | c :: t' =>
    if (c =? sep)%N then [] :: split sep t'
    else match split sep t' with
         | part :: parts => (c :: part) :: parts
         | [] => [[c]]
         end
  end.

(** [t.split(sep)] for a separator of two characters [a] and [b] *)
Fixpoint split2 (a b : char) (t : text) : list text :=
  match t with
  | [] => [[]]
  | c :: t' =>
    match t' with
    | d :: t'' =>
      if (c =? a)%N && (d =? b)%N then [] :: split2 a b t''
      else match split2 a b t' with
           | part :: parts => (c :: part) :: parts
           | [] => [[c]]
           end
    | [] => [[c]]
    end
  end.

Inductive exn :=
| ValueError (msg : text)
| AttributeError (msg : text)
| Exception_ (msg : text).

(** [str(e)] *)
Definition str_of_exn (e : exn) : text :=
  match e with
  | ValueError m | AttributeError m | Exception_ m => m
  end.

Definition digits_value (t : text) : option N :=
  fold_left
    (fun acc c =>
       match acc, decimal c with
       | Some n, Some d => Some (n * 10 + d)%N
       | _, _ => None
       end) t (Some 0%N).

(** [int(s)] on a run of decimal digits, the only strings the reviewer
    converts.  [max_str_digits] is [sys.get_int_max_str_digits()]: when it
    is not zero a longer digit string raises [ValueError] (4300 by default
    since CPython 3.11; zero switches the limit off). *)
Definition int (max_str_digits : nat) (s : text) : exn + Z :=
  match s, digits_value s with
  | _ :: _, Some n =>
    if (0 <? max_str_digits) && (max_str_digits <? length s)
    then inl (ValueError
                (u "Exceeds the limit (" ++ str_of_Z (Z.of_nat max_str_digits)
                 ++ u " digits) for integer string conversion: value has "
                 ++ str_of_Z (Z.of_nat (length s))
                 ++ u " digits; use sys.set_int_max_str_digits() to increase the limit"))
    else inr (Z.of_N n)
  | _, _ => inl (ValueError (u "invalid literal for int() with base 10"))
  end.

(** [str(n)] and [f"{n}"] for an integer.  When [max_str_digits]
    ([sys.get_int_max_str_digits()]) is not zero, an integer with more
    digits than that raises [ValueError]; the interpreter takes no limit
    between 1 and 639. *)
Definition str_int (max_str_digits : nat) (n : Z) : exn + text :=
  if (0 <? max_str_digits) && (max_str_digits <? length (str_of_Z (Z.abs n)))
  then inl (ValueError
              (u "Exceeds the limit (" ++ str_of_Z (Z.of_nat max_str_digits)
               ++ u " digits) for integer string conversion; use sys.set_int_max_str_digits() to increase the limit"))
  else inr (str_of_Z n).

End Py.

(** ** The fragment of [re] used by the reviewer

    A backtracking matcher in continuation-passing style.  Every quantifier
    in the source applies to a single-character atom, so [Rep] repeats a
    character set; every pattern has at most one capture group.  None of the
    characters of the heading patterns is cased, so [re.IGNORECASE] changes
    nothing there and is not represented. *)

Module Re.

Inductive citem :=
| Chr (c : char)            (* a character *)
| Range (lo hi : char)      (* lo-hi *)
| Space                     (* \s *)
| NonSpace                  (* \S *)
| Digit                     (* \d *)
| NotNewline.               (* . *)

Definition cset := list citem.

Definition in_citem (c : char) (i : citem) : bool :=
  match i with
  | Chr a => (c =? a)%N
  | Range lo hi => (lo <=? c)%N && (c <=? hi)%N
  | Space => Py.isspace c
  | NonSpace => negb (Py.isspace c)
  | Digit => Py.isdecimal c
  | NotNewline => negb (c =? Py.LF)%N
  end.

Definition in_cset (cs : cset) (c : char) : bool := existsb (in_citem c) cs.

Inductive regex :=
| Lit (s : text)                          (* a literal string *)
| One (cs : cset)                         (* [...] or . *)
| Cat (r1 r2 : regex)                     (* r1 r2 *)
| Or (r1 r2 : regex)                      (* r1|r2 *)
| Rep (greedy : bool) (lo : nat) (hi : option nat) (cs : cset)
                                          (* x* x+ x? x*? x+? *)
| Group (r : regex)                       (* (r) *)
| Ahead (r : regex)                       (* (?=r) *)
| Bol                                     (* ^ *)
| Eol.                                    (* $ *)

(** Matcher state: offset in the subject, what is left of it, and the
    span of group 1 when it has been set. *)
Record state := St { pos : nat; rest : text; grp : option (nat * nat) }.

Definition below (hi : option nat) (n : nat) : bool :=
  match hi with Some h => n <? h | None => true end.

Definition orelse {A} (a b : option A) : option A :=
  match a with Some _ => a | None => b end.

(** A continuation answers with the state at which the whole match
    ended. *)
Definition cont := state -> option state.

(** Greedy repetition: take as many characters as allowed, then give
    them back one at a time until the continuation succeeds. *)
Fixpoint rep_greedy (cs : cset) (lo : nat) (hi : option nat)
    (k : cont) (n p : nat) (t : text) (g : option (nat * nat))
    : option state :=
  let stop := if lo <=? n then k (St p t g) else None in
  match t with
  | c :: t' =>
    if in_cset cs c && below hi n
    then orelse (rep_greedy cs lo hi k (S n) (S p) t' g) stop
    else stop
  | [] => stop
  end.

(** Lazy repetition: try the continuation first, take one more
    character only when it fails. *)
Fixpoint rep_lazy (cs : cset) (lo : nat) (hi : option nat)
    (k : cont) (n p : nat) (t : text) (g : option (nat * nat))
    : option state :=
  let more :=
    match t with
    | c :: t' =>
      if in_cset cs c && below hi n
      then rep_lazy cs lo hi k (S n) (S p) t' g
      else None
    | [] => None
    end in
  if lo <=? n then orelse (k (St p t g)) more else more.

Fixpoint m (r : regex) (k : cont) (s : state) : option state :=
  match r with
  | Lit l =>
    if Py.startswith l (rest s)
    then k (St (pos s + length l) (skipn (length l) (rest s)) (grp s))
    else None
  | One cs =>
    match rest s with
    | c :: t' => if in_cset cs c then k (St (S (pos s)) t' (grp s)) else None
    | [] => None
    end
  | Cat r1 r2 => m r1 (m r2 k) s
  | Or r1 r2 => orelse (m r1 k s) (m r2 k s)
  | Rep true lo hi cs => rep_greedy cs lo hi k 0 (pos s) (rest s) (grp s)
  | Rep false lo hi cs => rep_lazy cs lo hi k 0 (pos s) (rest s) (grp s)
  | Group r1 =>
    m r1 (fun s' => k (St (pos s') (rest s') (Some (pos s, pos s')))) s
  | Ahead r1 =>
    match m r1 Some s with
    | Some s' => k (St (pos s) (rest s) (grp s'))
    | None => None
    end
  | Bol => if pos s =? 0 then k s else None
  | Eol =>
    match rest s with
    | [] => k s
    | [c] => if (c =? Py.LF)%N then k s else None
    | _ => None
    end
  end.

(** Match objects *)
Record match_ := Match { m_start : nat; m_end : nat; m_group1 : option (nat * nat) }.

(** [pattern.match] at offset [p], where [t] is the subject from [p] on *)
Definition match_at (r : regex) (p : nat) (t : text) : option match_ :=
  match m r Some (St p t None) with
  | Some s => Some (Match p (pos s) (grp s))
  | None => None
  end.

(** Leftmost match starting at offset [p] or later *)
Fixpoint search_from (r : regex) (p : nat) (t : text) : option match_ :=
  match match_at r p t with
  | Some x => Some x
  | None =>
    match t with
    | _ :: t' => search_from r (S p) t'
    | [] => None
    end
  end.

(** [re.search(r, t)] *)
Definition search (r : regex) (t : text) : option match_ := search_from r 0 t.

(** [mo.group()] and [mo.group(1)] *)
Definition group0 (t : text) (x : match_) : text :=
  Py.slice (m_start x) (m_end x) t.

Definition group1 (t : text) (x : match_) : option text :=
  match m_group1 x with
  | Some (a, b) => Some (Py.slice a b t)
  | None => None
  end.

(** [re.finditer(r, t)]: successive non-overlapping matches, for patterns
    that do not match the empty word, as are all those the reviewer hands
    to [finditer], [findall] and [sub].  After a match the scan resumes at
    its end, one character further had the match been empty, and it stops
    past the end of the subject.  The recursion is on a fuel that the
    length of the subject plus one always covers. *)
Fixpoint finditer_from (fuel : nat) (r : regex) (t : text) (p : nat)
    : list match_ :=
  match fuel with
  | 0 => []
  | S fuel' =>
    if length t <? p then []
    else
      match search_from r p (skipn p t) with
      | None => []
      | Some x =>
        x :: finditer_from fuel' r t
               (if m_end x =? m_start x then S (m_end x) else m_end x)
      end
  end.

Definition finditer (r : regex) (t : text) : list match_ :=
  finditer_from (S (length t)) r t 0.

(** [re.findall(r, t)] for a pattern with one group: the texts of group 1,
    empty where the group did not take part. *)
Definition findall (r : regex) (t : text) : list text :=
  map (fun x => match group1 t x with Some g => g | None => [] end)
      (finditer r t).

(** [re.sub(r, repl, t)] for a replacement without back-references *)
Fixpoint sub_pieces (repl t : text) (p : nat) (ms : list match_) : text :=
  match ms with
  | [] => skipn p t
  | x :: ms' =>
    Py.slice p (m_start x) t ++ repl ++ sub_pieces repl t (m_end x) ms'
  end.

Definition sub (r : regex) (repl t : text) : text :=
  sub_pieces repl t 0 (finditer r t).

(** [re.escape(s)] compiled: the literal itself *)
Definition escape (s : text) : regex := Lit s.

(** Shorthands for writing patterns down *)
Definition Chars (s : text) : cset := map Chr s.

Fixpoint seq (rs : list regex) : regex :=
  match rs with
  | [] => Lit []
  | [r] => r
  | r :: rs' => Cat r (seq rs')
  end.

Definition star (cs : cset) : regex := Rep true 0 None cs.        (* x* *)
Definition plus (cs : cset) : regex := Rep true 1 None cs.        (* x+ *)
Definition opt (cs : cset) : regex := Rep true 0 (Some 1) cs.     (* x? *)
Definition star_lazy (cs : cset) : regex := Rep false 0 None cs.  (* x*? *)
Definition plus_lazy (cs : cset) : regex := Rep false 1 None cs.  (* x+? *)

(** [re.IGNORECASE] on a literal: an ASCII letter matches both its cases
    and, for i, k and s, the three characters that Unicode folds onto them
    (dotted capital and dotless small i, the Kelvin sign, the long s).  The
    literals that the parsers compile with this flag consist of ASCII and
    of uncased characters, which match themselves only. *)
Definition case_variants (c : char) : list char :=
  ((if (65 <=? c) && (c <=? 90) then [c; c + 32]
    else if (97 <=? c) && (c <=? 122) then [c - 32; c]
    else [c])
   ++ (if (c =? 73) || (c =? 105) then [304; 305]
       else if (c =? 75) || (c =? 107) then [8490]
       else if (c =? 83) || (c =? 115) then [383]
       else []))%N.

Definition ignore_case (s : text) : regex :=
  seq (map (fun c => One (Chars (case_variants c))) s).

End Re.

(** ** Lists of texts without repetition *)

Fixpoint distinct (l : list text) : bool :=
  match l with
  | [] => true
  | x :: l' => negb (existsb (Py.eqb x) l') && distinct l'
  end.

(** ** Dictionaries

    A Python [dict] keeps its keys in insertion order, and the assembler
    depends on that order, so a dictionary is an association list without
    repeated keys. *)

Definition dict (V : Type) := list (text * V).

Fixpoint dict_get {V} (k : text) (d : dict V) : option V :=
  match d with
  | [] => None
  | (k', v) :: d' => if Py.eqb k' k then Some v else dict_get k d'
  end.

Definition dict_mem {V} (k : text) (d : dict V) : bool :=
  match dict_get k d with Some _ => true | None => false end.

(** [d[k] = v]: an existing key keeps its place, a new one goes last. *)
Fixpoint dict_set {V} (k : text) (v : V) (d : dict V) : dict V :=
  match d with
  | [] => [(k, v)]
  | (k', v') :: d' =>
    if Py.eqb k' k then (k', v) :: d' else (k', v') :: dict_set k v d'
  end.

Definition keys {V} (d : dict V) : list text := map fst d.

(** ** The reviewer *)

Import Py Re.

Record ReviewResult := mkReviewResult {
  section_name : text;
  original_content : text;
  issues : list text;
  suggestions : list text;
  revised_content : text;
  score : Z
}.

Record Criteria := mkCriteria {
  keywords : list text;
  requirements : list text
}.

Definition RATIONALE := u "立项依据".
Definition CONTENT := u "研究内容".
Definition PLAN := u "研究方案".
Definition INNOVATION := u "创新点".
Definition OUTCOMES := u "预期成果".
Definition FOUNDATION := u "研究基础".
Definition FULL_TEXT := u "全文".

Definition REVIEW_CRITERIA : dict Criteria :=
  [ (RATIONALE, mkCriteria
      [u "研究背景"; u "国内外"; u "研究现状"; u "意义"; u "必要性"; u "科学问题"]
      [u "是否清晰阐述研究背景"; u "是否全面综述国内外研究现状";
       u "是否明确指出研究缺口"; u "是否论证研究的必要性和意义";
       u "是否有规范的文献引用"; u "逻辑是否清晰连贯"]);
    (CONTENT, mkCriteria
      [u "研究内容"; u "研究问题"; u "核心问题"; u "研究要点"]
      [u "是否明确核心研究问题"; u "研究内容是否具体可操作";
       u "是否有清晰的层次结构"; u "是否紧扣研究目标"; u "研究范围是否适当"]);
    (PLAN, mkCriteria
      [u "技术路线"; u "研究方法"; u "实验"; u "步骤"; u "进度"]
      [u "技术路线是否清晰"; u "研究方法是否科学合理"; u "是否有详细的实施步骤";
       u "是否说明关键技术难点"; u "进度安排是否合理"; u "是否论证可行性"]);
    (INNOVATION, mkCriteria
      [u "创新"; u "特色"; u "首次"; u "新方法"; u "新理论"]
      [u "创新点是否明确具体"; u "是否区分创新类型"; u "是否与现有研究对比";
       u "创新点是否有实质内容"; u "是否避免夸大其词"]);
    (OUTCOMES, mkCriteria
      [u "成果"; u "论文"; u "专利"; u "指标"; u "应用"]
      [u "成果指标是否具体可量化"; u "是否包含学术成果"; u "是否说明应用价值";
       u "指标是否合理可达"; u "是否有人才培养计划"]);
    (FOUNDATION, mkCriteria
      [u "基础"; u "前期"; u "团队"; u "条件"; u "积累"]
      [u "是否展示相关研究积累"; u "是否介绍团队构成"; u "是否说明实验条件";
       u "是否论证完成能力"; u "前期成果是否相关"]) ].

(** [REVIEW_CRITERIA["立项依据"]] *)
Definition RATIONALE_CRITERIA : Criteria :=
  match dict_get RATIONALE REVIEW_CRITERIA with
  | Some c => c
  | None => mkCriteria [] []
  end.

(** [self.REVIEW_CRITERIA.get(section_name, self.REVIEW_CRITERIA["立项依据"])] *)
Definition criteria_for (name : text) : Criteria :=
  match dict_get name REVIEW_CRITERIA with
  | Some c => c
  | None => RATIONALE_CRITERIA
  end.

(** *** Segmentation *)

(** [[\s、\.．]] *)
Definition SEPARATORS : cset := Space :: Chars (u "、.．").
(** [[与和及]] *)
Definition CONJ : cset := Chars (u "与和及").

Definition numbered (digits title : string) : regex :=
  seq [One (Chars (u digits)); plus SEPARATORS; Lit (u title)].

Definition section_patterns : dict (list regex) :=
  [ (RATIONALE,
      [ numbered "一1１" "立项依据";
        seq [Lit (u "立项依据"); One CONJ; Lit (u "研究内容")];
        Lit (u "项目的立项依据");
        seq [Lit (u "研究背景"); opt CONJ; Lit (u "意义")] ]);
    (CONTENT,
      [ numbered "二2２" "研究内容";
        Lit (u "主要研究内容");
        seq [Lit (u "研究内容"); One CONJ; Lit (u "目标")] ]);
    (PLAN,
      [ numbered "三3３" "研究方案";
        seq [Lit (u "研究方案"); One CONJ; Lit (u "可行性")];
        Lit (u "技术路线");
        Lit (u "研究方法") ]);
    (INNOVATION,
      [ numbered "四4４" "创新点";
        seq [Lit (u "特色"); One CONJ; Lit (u "创新")];
        Lit (u "创新之处");
        Lit (u "项目创新") ]);
    (OUTCOMES,
      [ numbered "五5５" "预期成果";
        Lit (u "预期研究成果");
        Lit (u "预期目标");
        Lit (u "考核指标") ]);
    (FOUNDATION,
      [ numbered "六6６" "研究基础";
        Lit (u "工作基础");
        seq [Lit (u "研究基础"); One CONJ; Lit (u "工作条件")];
        Lit (u "前期工作") ]) ].

(** An element of [section_positions]:
    [(matches[0].start(), section_name, matches[0].group())] *)
Record heading := mkHeading { h_pos : nat; h_name : text; h_title : text }.

(** The inner loop over the patterns of one section: the first pattern
    with a match wins, and of its matches the first. *)
Fixpoint first_heading (name : text) (patterns : list regex) (t : text)
    : list heading :=
  match patterns with
  | [] => []
  | pattern :: patterns' =>
    match finditer pattern t with
    | x :: _ => [mkHeading (m_start x) name (group0 t x)]
    | [] => first_heading name patterns' t
    end
  end.

Definition find_headings (t : text) : list heading :=
  flat_map (fun '(name, patterns) => first_heading name patterns t)
           section_patterns.

(** [section_positions.sort(key=lambda x: x[0])]: a stable sort. *)
Fixpoint insert_by_pos (h : heading) (l : list heading) : list heading :=
  match l with
  | [] => [h]
  | h' :: l' =>
    if h_pos h <=? h_pos h' then h :: l else h' :: insert_by_pos h l'
  end.

Fixpoint sort_by_pos (l : list heading) : list heading :=
  match l with
  | [] => []
  | h :: l' => insert_by_pos h (sort_by_pos l')
  end.

Definition section_positions (t : text) : list heading :=
  sort_by_pos (find_headings t).

(** Where the section of a heading ends: at the next heading, or at the
    end of the text. *)
Definition span_end (t : text) (next : list heading) : nat :=
  match next with
  | h' :: _ => h_pos h'
  | [] => length t
  end.

(** The body of the extraction loop, up to the length test. *)
Definition section_content (t : text) (h : heading) (next : list heading)
    : text :=
  let content := strip (slice (h_pos h) (span_end t next) t) in
  strip (sub (Cat Bol (escape (h_title h))) [] content).

Fixpoint extract_loop (t : text) (positions : list heading)
    (sections : dict text) : dict text :=
  match positions with
  | [] => sections
  | h :: next =>
    let content := section_content t h next in
    extract_loop t next
      (if 50 <? length content
       then dict_set (h_name h) content sections
       else sections)
  end.

Definition _extract_sections (t : text) : dict text :=
  let sections := extract_loop t (section_positions t) [] in
  match sections with
  | [] => dict_set FULL_TEXT t sections
  | _ :: _ => sections
  end.

(** *** Parsing a model response *)

Definition COLONS : cset := Chars (u "：:").
Definition ANY : cset := [Space; NonSpace].          (* [\s\S] *)
Definition ITEM_MARK : cset := Chars (u ".、").       (* [\.\、] *)

(** [评分[：:]\s*(\d+)] *)
Definition SCORE_RE : regex :=
  seq [Lit (u "评分"); One COLONS; star [Space]; Group (plus [Digit])].

(** [主要问题[：:]?\s*([\s\S]*?)(?=##|修改建议|$)] *)
Definition ISSUES_RE : regex :=
  seq [Lit (u "主要问题"); opt COLONS; star [Space]; Group (star_lazy ANY);
       Ahead (Or (Lit (u "##")) (Or (Lit (u "修改建议")) Eol))].

(** [修改建议[：:]?\s*([\s\S]*?)(?=##|修改后|$)] *)
Definition SUGGESTIONS_RE : regex :=
  seq [Lit (u "修改建议"); opt COLONS; star [Space]; Group (star_lazy ANY);
       Ahead (Or (Lit (u "##")) (Or (Lit (u "修改后")) Eol))].

(** [\d+[\.\、]\s*(.+?)(?=\n\d+[\.\、]|\n\n|$)] *)
Definition ITEM_RE : regex :=
  seq [plus [Digit]; One ITEM_MARK; star [Space]; Group (plus_lazy [NotNewline]);
       Ahead (Or (seq [Lit [LF]; plus [Digit]; One ITEM_MARK])
                 (Or (Lit [LF; LF]) Eol))].

(** [修改后的完整内容[：:]?\s*([\s\S]*?)$] *)
Definition REVISED_RE : regex :=
  seq [Lit (u "修改后的完整内容"); opt COLONS; star [Space];
       Group (star_lazy ANY); Eol].

Definition is_empty (t : text) : bool :=
  match t with [] => true | _ :: _ => false end.

(** [[m.strip() for m in matches if m.strip()]] *)
Definition stripped_items (matches : list text) : list text :=
  map strip (filter (fun x => negb (is_empty (strip x))) matches).

(** [x.group(1)], which raises when [x.group(1)] is [None] and a string
    method or [int] is applied to it. *)
Definition group1_or_raise (t : text) (x : match_) : exn + text :=
  match group1 t x with
  | Some g => inr g
  | None => inl (AttributeError (u "NoneType"))
  end.

(** The numbered items of the part of the response that [section_re]
    delimits. *)
Definition numbered_items (section_re : regex) (response : text)
    : exn + list text :=
  match search section_re response with
  | Some x =>
    match group1_or_raise response x with
    | inr body => inr (stripped_items (findall ITEM_RE body))
    | inl e => inl e
    end
  | None => inr []
  end.

(** [xs if xs else [placeholder]] *)
Definition or_placeholder (xs : list text) (placeholder : text) : list text :=
  match xs with
  | [] => [placeholder]
  | _ :: _ => xs
  end.

Section ProposalReviewer.

(** [sys.get_int_max_str_digits()] of the interpreter *)
Variable int_max_str_digits : nat.

Definition _parse_review_response (name original response : text)
    : exn + ReviewResult :=
  (* score *)
  match
    match search SCORE_RE response with
    | Some x =>
      match group1_or_raise response x with
      | inr g => int int_max_str_digits g
      | inl e => inl e
      end
    | None => inr 6%Z
    end
  with
  | inl e => inl e
  | inr score =>
  (* issues *)
  match numbered_items ISSUES_RE response with
  | inl e => inl e
  | inr issues =>
  (* suggestions *)
  match numbered_items SUGGESTIONS_RE response with
  | inl e => inl e
  | inr suggestions =>
  (* revised content *)
  match
    match search REVISED_RE response with
    | Some x =>
      match group1_or_raise response x with
      | inr g => inr (strip g)
      | inl e => inl e
      end
    | None => inr response
    end
  with
  | inl e => inl e
  | inr revised =>
    inr (mkReviewResult name original
           (or_placeholder issues (u "未能提取具体问题"))
           (or_placeholder suggestions (u "未能提取具体建议"))
           revised
           (Z.min 10 (Z.max 1 score)))
  end end end end.

(** *** Rule-based review *)

(** [[（(][一二三四五1-5][）)]] *)
Definition STRUCTURE_RE : regex :=
  seq [One (Chars (u "（("));
       One (Chars (u "一二三四五") ++ [Range 49%N 53%N]);
       One (Chars (u "）)"))].

(** [\[\d+\]] *)
Definition CITATION_RE : regex :=
  seq [Lit (u "["); plus [Digit]; Lit (u "]")].

Definition found (r : regex) (t : text) : bool :=
  match search r t with Some _ => true | None => false end.

(** [int(x)] of a number: truncation towards zero. *)
Definition int_of_number (q : Q) : Z := Z.quot (Qnum q) (Z.pos (Qden q)).

(** The running values of the rule-based review.  The score starts as the
    integer 7 and becomes a float once half points are taken off; every
    value it can take is a multiple of one half between 2 and 7, which a
    binary float holds exactly, so it is a rational here. *)
Record rule_state := mkRule {
  r_issues : list text;
  r_suggestions : list text;
  r_score : Q
}.

Definition report (issue suggestion : text) (penalty : Q) (s : rule_state)
    : rule_state :=
  mkRule (r_issues s ++ [issue]) (r_suggestions s ++ [suggestion])
         (r_score s - penalty)%Q.

Definition missing_keywords (criteria : Criteria) (content : text)
    : list text :=
  filter (fun kw => negb (contains kw content)) (keywords criteria).

Definition check_length (content : text) (s : rule_state) : rule_state :=
  if length content <? 500
  then report (u "内容过于简短，缺乏详细论述")
              (u "建议扩充内容，增加具体细节和论证") 1 s
  else s.

Definition check_keywords (criteria : Criteria) (content : text)
    (s : rule_state) : rule_state :=
  let missing := missing_keywords criteria content in
  match missing with
  | [] => s
  | _ :: _ =>
    report (u "缺少关键内容：" ++ join (u ", ") missing)
           (u "建议补充以下方面的内容：" ++ join (u ", ") missing)
           (inject_Z (Z.of_nat (length missing)) * (1 # 2))%Q s
  end.

Definition check_structure (content : text) (s : rule_state) : rule_state :=
  if negb (found STRUCTURE_RE content)
  then report (u "缺乏清晰的层次结构")
              (u "建议使用（1）（2）（3）等方式组织内容层次") 0 s
  else s.

Definition check_citations (name content : text) (s : rule_state)
    : rule_state :=
  if Py.eqb name RATIONALE
  then if negb (found CITATION_RE content)
       then report (u "缺少文献引用标注")
                   (u "建议添加规范的文献引用，如[1]、[2]等") 1 s
       else s
  else s.

Definition _review_rule_based (name content : text) : ReviewResult :=
  let criteria := criteria_for name in
  let s := mkRule [] [] 7 in
  let s := check_length content s in
  let s := check_keywords criteria content s in
  let s := check_structure content s in
  let s := check_citations name content s in
  mkReviewResult name content
    (or_placeholder (r_issues s) (u "内容基本符合要求"))
    (or_placeholder (r_suggestions s) (u "可进一步优化细节"))
    content
    (Z.max 1 (Z.min 10 (int_of_number (r_score s)))).

(** *** Model-backed review *)

(** [REVIEW_PROMPT.format(section_name=.., content=.., requirements=..)] *)
Definition REVIEW_PROMPT (name content reqs : text) : text :=
  join [LF]
    [ u "你是一位资深的国家自然科学基金评审专家。请对以下申请书的"
        ++ [QUOTE] ++ name ++ [QUOTE] ++ u "部分进行专业评审。";
      [];
      u "【原文内容】";
      content;
      [];
      u "【评审要求】";
      u "请从以下几个方面进行评审：";
      reqs;
      [];
      u "【输出格式】";
      u "请按以下格式输出：";
      [];
      u "## 评分：X/10";
      [];
      u "## 主要问题";
      u "1. 问题一";
      u "2. 问题二";
      u "...";
      [];
      u "## 修改建议";
      u "1. 建议一";
      u "2. 建议二";
      u "...";
      [];
      u "## 修改后的完整内容";
      u "（请输出修改后的完整内容，保持学术规范性）";
      [] ].

Definition SYSTEM_PROMPT : text :=
  u "你是一位资深的国家自然科学基金评审专家，具有丰富的项目评审经验。请提供专业、具体、建设性的评审意见。".

(** The Generation Backend: [generator._generate(prompt, system_prompt)]
    answers with a text or raises, and may change its own state [G]
    (a model server, a loaded model). *)
Variable G : Type.
Definition Generator := text -> text -> G -> (exn + text) * G.

(** What a review can touch: the backend and the standard output. *)
Record world := mkWorld { backend : G; stdout : list text }.

Definition print (line : text) (w : world) : world :=
  mkWorld (backend w) (stdout w ++ [line]).

(** The prompt put together for a section *)
Definition review_prompt (name content : text) : text :=
  let criteria := criteria_for name in
  let reqs := join [LF] (map (fun r => u "- " ++ r) (requirements criteria)) in
  REVIEW_PROMPT name (firstn 3000 content) reqs.

Definition _review_with_model (generator : Generator) (name content : text)
    (w : world) : ReviewResult * world :=
  let prompt := review_prompt name content in
  (* try: *)
  let '(response, g) := generator prompt SYSTEM_PROMPT (backend w) in
  let w := mkWorld g (stdout w) in
  match
    match response with
    | inr response => _parse_review_response name content response
    | inl e => inl e
    end
  with
  | inr result => (result, w)
  (* except Exception as e: *)
  | inl e =>
    let w := print (u "模型审阅失败: " ++ str_of_exn e) w in
    (_review_rule_based name content, w)
  end.

(** [self.generator], [None] when the reviewer was built without one *)
Variable generator : option Generator.

Definition review_section (name content : text) (use_model : bool)
    (w : world) : ReviewResult * world :=
  match use_model, generator with
  | true, Some gen => _review_with_model gen name content w
  | _, _ => (_review_rule_based name content, w)
  end.

(** *** Reviewing a whole proposal *)

(** Of a parsed document the reviewer reads [full_text] only. *)
Record LiteratureContent := mkLiteratureContent { full_text : text }.

(** [os.path.splitext], [str.lower] and the two document parsers, which
    read the file system and may raise. *)
Variable splitext : text -> text * text.
Variable lower : text -> text.
Variable pdf_parser docx_parser : text -> exn + LiteratureContent.

Definition parse_proposal (file_path : text) : exn + dict text :=
  let ext := lower (snd (splitext file_path)) in
  match
    if Py.eqb ext (u ".pdf") then pdf_parser file_path
    else if Py.eqb ext (u ".docx") || Py.eqb ext (u ".doc")
    then docx_parser file_path
    else inl (ValueError (u "不支持的文件格式: " ++ ext))
  with
  | inr content => inr (_extract_sections (full_text content))
  | inl e => inl e
  end.

Fixpoint review_loop (sections : dict text) (use_model : bool)
    (results : dict ReviewResult) (w : world) : dict ReviewResult * world :=
  match sections with
  | [] => (results, w)
  | (name, content) :: sections' =>
    let w := print (u "正在审阅: " ++ name ++ u "...") w in
    let '(result, w) := review_section name content use_model w in
    let results := dict_set name result results in
    let w := print (u "✓ " ++ name ++ u " 评分: "
                      ++ str_of_Z (score result) ++ u "/10") w in
    review_loop sections' use_model results w
  end.

Definition review_full_proposal (file_path : text) (use_model : bool)
    (w : world) : (exn + dict ReviewResult) * world :=
  match parse_proposal file_path with
  | inl e => (inl e, w)
  | inr sections =>
    let '(results, w) := review_loop sections use_model [] w in
    (inr results, w)
  end.

End ProposalReviewer.

Arguments mkWorld {G} backend stdout.
Arguments backend {G} w.
Arguments stdout {G} w.
Arguments print {G} line w.
Arguments _review_with_model int_max_str_digits {G} generator name content w.
Arguments review_section int_max_str_digits {G} generator name content
  use_model w.
Arguments review_loop int_max_str_digits {G} generator sections use_model
  results w.
Arguments review_full_proposal int_max_str_digits {G} generator splitext lower
  pdf_parser docx_parser file_path use_model w.

(** *** The assembler *)

Definition section_order : list text :=
  [RATIONALE; CONTENT; PLAN; INNOVATION; OUTCOMES; FOUNDATION].

(** The three lines a section contributes to the revised proposal. *)
Definition section_lines (name : text) (result : ReviewResult) : list text :=
  [ [LF] ++ u "## " ++ name ++ [LF]; revised_content result; [LF] ].

Fixpoint canonical_lines (order : list text) (results : dict ReviewResult)
    : list text :=
  match order with
  | [] => []
  | name :: order' =>
    match dict_get name results with
    | Some result => section_lines name result
    | None => []
    end ++ canonical_lines order' results
  end.

Definition other_lines (results : dict ReviewResult) : list text :=
  flat_map
    (fun '(name, result) =>
       if existsb (Py.eqb name) section_order then []
       else section_lines name result)
    results.

Definition generate_revised_proposal (results : dict ReviewResult) : text :=
  join [LF]
    ([ u "# 国自然科学基金申请书（修改版）" ++ [LF]; u "---" ++ [LF] ]
     ++ canonical_lines section_order results
     ++ other_lines results).

(** *** The review report *)

Section Report.

(** [sys.get_int_max_str_digits()] of the interpreter *)
Variable int_max_str_digits : nat.

(** [f"{total / n:.1f}"] for an integer [total] and a length [n] that is
    not zero: the quotient as a binary float, written with one decimal, or
    [OverflowError] for an integer beyond the floats.  Float arithmetic is
    left to the interpreter. *)
Variable format_mean : Z -> nat -> exn + text.

(** [sum(r.score for r in results.values())] *)
Definition total_score (results : dict ReviewResult) : Z :=
  fold_left (fun total '(_, r) => (total + score r)%Z) results 0%Z.

(** The lines that the loop adds for one section.  The score is written
    by an f-string, which raises for an integer beyond the limit on
    digits. *)
Definition report_lines (name : text) (result : ReviewResult)
    : exn + list text :=
  match str_int int_max_str_digits (score result) with
  | inl e => inl e
  | inr score_text =>
    inr ([ u "## 📝 " ++ name ++ [LF];
           u "**评分: " ++ score_text ++ u "/10**" ++ [LF; LF];
           u "### 发现的问题" ++ [LF] ]
         ++ map (fun issue => u "- " ++ issue ++ [LF]) (issues result)
         ++ [ [LF] ++ u "### 修改建议" ++ [LF] ]
         ++ map (fun suggestion => u "- " ++ suggestion ++ [LF])
                (suggestions result)
         ++ [ [LF] ++ u "---" ++ [LF] ])
  end.

(** The loop over the results *)
Fixpoint report_loop (results : dict ReviewResult) (lines : list text)
    : exn + list text :=
  match results with
  | [] => inr lines
  | (name, result) :: results' =>
    match report_lines name result with
    | inl e => inl e
    | inr section => report_loop results' (lines ++ section)
    end
  end.

Definition generate_review_report (results : dict ReviewResult)
    : exn + text :=
  match
    match results with
    | [] => inr (u "0.0")
    | _ :: _ => format_mean (total_score results) (length results)
    end
  with
  | inl e => inl e
  | inr avg_score =>
    match str_int int_max_str_digits (Z.of_nat (length results)) with
    | inl e => inl e
    | inr count =>
      match
        report_loop results
          [ u "# 📋 国自然申请书审阅报告" ++ [LF];
            u "---" ++ [LF];
            u "## 📊 总体评价" ++ [LF];
            u "- **平均得分**: " ++ avg_score ++ u "/10" ++ [LF];
            u "- **审阅模块数**: " ++ count ++ [LF; LF] ]
      with
      | inl e => inl e
      | inr lines => inr (join [LF] lines)
      end
    end
  end.

End Report.

(** ** The document parsers ([literature_manager.py]) *)

Module LiteratureManager.

Record LiteratureContent := mkLiteratureContent {
  title : text;
  authors : list text;
  abstract : text;
  sections : dict text;
  references : list text;
  full_text : text;
  source_file : text;
  file_type : text
}.

(** *** [BaseParser] *)

(** The loop of [extract_title] over the lines *)
Fixpoint first_title (lines : list text) : text :=
  match lines with
  | [] => u "未知标题"
  | line :: lines' =>
    let line := strip line in
    if (10 <? length line) && (length line <? 200) then line
    else first_title lines'
  end.

Definition extract_title (t : text) : text :=
  let lines := split LF (strip t) in
  first_title (firstn 5 lines).

(** [[:\s]] *)
Definition COLON_SPACE : cset := [Chr 58%N; Space].

(** [Abstract[:\s]*(.+?)(?=\n\n|Introduction|Keywords)] and
    [摘\s*要[:\s]*(.+?)(?=\n\n|关键词|1\s|一、)], compiled with [re.DOTALL]
    and [re.IGNORECASE]: the dot stands for every character. *)
Definition ABSTRACT_PATTERNS : list regex :=
  [ seq [ignore_case (u "Abstract"); star COLON_SPACE; Group (plus_lazy ANY);
         Ahead (Or (Lit [LF; LF])
                   (Or (ignore_case (u "Introduction"))
                       (ignore_case (u "Keywords"))))];
    seq [Lit (u "摘"); star [Space]; Lit (u "要"); star COLON_SPACE;
         Group (plus_lazy ANY);
         Ahead (Or (Lit [LF; LF])
                   (Or (Lit (u "关键词"))
                       (Or (Cat (Lit (u "1")) (One [Space]))
                           (Lit (u "一、")))))] ].

(** The loop of [extract_abstract] over the patterns *)
Fixpoint first_abstract (patterns : list regex) (t : text) : exn + text :=
  match patterns with
  | [] => inr []
  | pattern :: patterns' =>
    match search pattern t with
    | Some x =>
      match group1_or_raise t x with
      | inr g => inr (strip g)
      | inl e => inl e
      end
    | None => first_abstract patterns' t
    end
  end.

Definition extract_abstract (t : text) : exn + text :=
  first_abstract ABSTRACT_PATTERNS t.

Section Parsers.

(** *** [PDFParser] *)

(** [fitz.open(file_path)] and [page.get_text()] on each of its pages:
    the texts of the pages, unless the library raises. *)
Variable fitz_pages : text -> exn + list text.

Definition PDFParser_parse (file_path : text) : exn + LiteratureContent :=
  match fitz_pages file_path with
  | inl e => inl e
  | inr pages =>
    let full_text := fold_left (fun acc page => acc ++ page) pages [] in
    match extract_abstract full_text with
    | inl e => inl e
    | inr abstract =>
      inr (mkLiteratureContent (extract_title full_text) [] abstract []
             [] full_text file_path (u "pdf"))
    end
  end.

(** *** [DocxParser] *)

(** A paragraph of a Word document: [para.text] and [para.style.name] *)
Record paragraph := mkParagraph { para_text : text; style_name : text }.

(** [Document(file_path).paragraphs], unless the library raises *)
Variable docx_paragraphs : text -> exn + list paragraph.

(** The variables of the loop of [DocxParser.parse] *)
Record docx_state := mkDocx {
  d_full_text : text;
  d_sections : dict text;
  current_section : text;
  current_content : list text
}.

(** [if current_content:
       sections[current_section] = '\n'.join(current_content)] *)
Definition flush (s : docx_state) : dict text :=
  match current_content s with
  | [] => d_sections s
  | _ :: _ =>
    dict_set (current_section s) (join [LF] (current_content s))
             (d_sections s)
  end.

Definition docx_step (para : paragraph) (s : docx_state) : docx_state :=
  let text := strip (para_text para) in
  match text with
  | [] => s
  | _ :: _ =>
    let s :=
      if startswith (u "Heading") (style_name para)
      then mkDocx (d_full_text s) (flush s) text []
      else mkDocx (d_full_text s) (d_sections s) (current_section s)
                  (current_content s ++ [text]) in
    mkDocx (d_full_text s ++ text ++ [LF]) (d_sections s)
           (current_section s) (current_content s)
  end.

Definition docx_loop (paragraphs : list paragraph) : docx_state :=
  fold_left (fun s para => docx_step para s) paragraphs
            (mkDocx [] [] (u "正文") []).

Definition DocxParser_parse (file_path : text) : exn + LiteratureContent :=
  match docx_paragraphs file_path with
  | inl e => inl e
  | inr paragraphs =>
    let s := docx_loop paragraphs in
    let full_text := d_full_text s in
    let sections := flush s in
    match extract_abstract full_text with
    | inl e => inl e
    | inr abstract =>
      inr (mkLiteratureContent (extract_title full_text) [] abstract
             sections [] full_text file_path (u "docx"))
    end
  end.

End Parsers.

End LiteratureManager.

(** The reviewer that [ProposalReviewer.__init__] builds holds a
    [PDFParser] and a [DocxParser]; of what they return it reads
    [full_text]. *)
Definition read_full_text (parsed : exn + LiteratureManager.LiteratureContent)
    : exn + LiteratureContent :=
  match parsed with
  | inr c => inr (mkLiteratureContent (LiteratureManager.full_text c))
  | inl e => inl e
  end.

Section Reviewer.

Variable splitext : text -> text * text.
Variable lower : text -> text.
Variable fitz_pages : text -> exn + list text.
Variable docx_paragraphs : text -> exn + list LiteratureManager.paragraph.

Definition reviewer_parse_proposal (file_path : text) : exn + dict text :=
  parse_proposal splitext lower
    (fun path =>
       read_full_text (LiteratureManager.PDFParser_parse fitz_pages path))
    (fun path =>
       read_full_text
         (LiteratureManager.DocxParser_parse docx_paragraphs path))
    file_path.

End Reviewer.

(** ** The review panel of the application ([app.py]) *)

Module App.

(** [get_section_review], a function of [self.review_results] and of the
    name asked for.  The look-up [self.review_results[section_name]] comes
    after the test that the name is in the mapping, so the two are one
    look-up here. *)
Definition get_section_review (review_results : dict ReviewResult)
    (section_name : text) : text * text * text * text :=
  match review_results, dict_get section_name review_results with
  | _ :: _, Some result =>
    ( u "评分: " ++ str_of_Z (score result) ++ u "/10",
      join [LF] (map (fun issue => u "• " ++ issue) (issues result)),
      join [LF] (map (fun s => u "• " ++ s) (suggestions result)),
      revised_content result )
  | _, _ => (u "请先上传并审阅标书", [], [], [])
  end.

(** *** Exporting the revised proposal as a Word file *)

Section WordExport.

(** python-docx and the file system as far as [export_revised_docx] uses
    them.  [Doc] is a document under construction; every operation may
    raise. *)
Variable Doc : Type.
(** the imports and [Document()] *)
Variable new_document : exn + Doc.
(** [doc.add_heading(t, 0)], centred *)
Variable add_title : text -> Doc -> exn + Doc.
(** [doc.add_heading(name, 1)] *)
Variable add_heading : text -> Doc -> exn + Doc.
(** [doc.add_paragraph(t)], its first line indented by 0.3 inch, its line
    spacing 1.5 *)
Variable add_paragraph : text -> Doc -> exn + Doc.
(** [tempfile.mkstemp(suffix='.docx')], [os.close(fd)] and
    [doc.save(path)]: the path of the file written *)
Variable save_temp : Doc -> exn + text.

(** The loop over the paragraphs of a revised content *)
Definition add_paragraphs (revised : text) (doc : Doc) : exn + Doc :=
  fold_left
    (fun acc para_text =>
       match acc with
       | inl e => inl e
       | inr doc =>
         if is_empty (strip para_text) then inr doc
         else add_paragraph (strip para_text) doc
       end)
    (split2 LF LF revised) (inr doc).

(** The loop over [section_order] *)
Definition add_sections (review_results : dict ReviewResult) (doc : Doc)
    : exn + Doc :=
  fold_left
    (fun acc section_name =>
       match acc with
       | inl e => inl e
       | inr doc =>
         match dict_get section_name review_results with
         | Some result =>
           match add_heading section_name doc with
           | inl e => inl e
           | inr doc => add_paragraphs (revised_content result) doc
           end
         | None => inr doc
         end
       end)
    section_order (inr doc).

(** [export_revised_docx], a function of [self.review_results] and of the
    standard output: the path of the file, or [None]. *)
Definition export_revised_docx (review_results : dict ReviewResult)
    (out : list text) : option text * list text :=
  match review_results with
  | [] => (None, out)
  | _ :: _ =>
    match
      match new_document with
      | inl e => inl e
      | inr doc =>
        match add_title (u "国自然科学基金申请书（修改版）") doc with
        | inl e => inl e
        | inr doc =>
          match add_sections review_results doc with
          | inl e => inl e
          | inr doc => save_temp doc
          end
        end
      end
    with
    | inr path => (Some path, out)
    | inl e => (None, out ++ [u "导出失败: " ++ str_of_exn e])
    end
  end.

End WordExport.

End App.

(** ** Specification-level notions *)

(** The declarative reading of the patterns: [Matches r p w after g g']
    says that [r], tried at offset [p] with group 1 at [g], can consume the
    word [w] when [after] follows it, leaving group 1 at [g']. *)
Definition within (hi : option nat) (n : nat) : Prop :=
  match hi with Some h => n <= h | None => True end.

Inductive Matches : regex -> nat -> text -> text ->
    option (nat * nat) -> option (nat * nat) -> Prop :=
| MLit l p after g : Matches (Lit l) p l after g g
| MOne cs c p after g :
    in_cset cs c = true -> Matches (One cs) p [c] after g g
| MCat r1 r2 p w1 w2 after g g1 g2 :
    Matches r1 p w1 (w2 ++ after) g g1 ->
    Matches r2 (p + length w1) w2 after g1 g2 ->
    Matches (Cat r1 r2) p (w1 ++ w2) after g g2
| MOrL r1 r2 p w after g g' :
    Matches r1 p w after g g' -> Matches (Or r1 r2) p w after g g'
| MOrR r1 r2 p w after g g' :
    Matches r2 p w after g g' -> Matches (Or r1 r2) p w after g g'
| MRep greedy lo hi cs p w after g :
    forallb (in_cset cs) w = true -> lo <= length w -> within hi (length w) ->
    Matches (Rep greedy lo hi cs) p w after g g
| MGroup r p w after g g' :
    Matches r p w after g g' ->
    Matches (Group r) p w after g (Some (p, p + length w))
| MAhead r p w after' after g g' :
    Matches r p w after' g g' -> after = w ++ after' ->
    Matches (Ahead r) p [] after g g'
| MBol after g : Matches Bol 0 [] after g g
| MEol p after g :
    after = [] \/ after = [LF] -> Matches Eol p [] after g g.

(** Syntactic checks on a pattern: every match starts (ends) with a
    character that is not white space, and every match sets group 1. *)
Definition nonspace_set (cs : cset) : bool :=
  forallb (fun i => match i with
                    | Chr c => negb (isspace c)
                    | NonSpace => true
                    | _ => false
                    end) cs.

Fixpoint starts_nonspace (r : regex) : bool :=
  match r with
  | Lit (c :: _) => negb (isspace c)
  | One cs => nonspace_set cs
  | Cat r1 _ => starts_nonspace r1
  | Group r1 => starts_nonspace r1
  | _ => false
  end.

Fixpoint ends_nonspace (r : regex) : bool :=
  match r with
  | Lit l => match rev l with c :: _ => negb (isspace c) | [] => false end
  | One cs => nonspace_set cs
  | Cat _ r2 => ends_nonspace r2
  | Group r1 => ends_nonspace r1
  | _ => false
  end.

Fixpoint sets_group (r : regex) : bool :=
  match r with
  | Cat r1 r2 => sets_group r1 || sets_group r2
  | Or r1 r2 => sets_group r1 && sets_group r2
  | Group _ => true
  | _ => false
  end.






(** The suffixes of a word that are not empty *)
Fixpoint suffixes (l : text) : list text :=
  match l with
  | [] => []
  | _ :: l' => l :: suffixes l'
  end.





(** The section of each heading as the segmenter cuts it: its offsets in
    the text, and the heading with the content extracted for it. *)
Fixpoint spans (t : text) (hs : list heading) : list (nat * nat) :=
  match hs with
  | [] => []
  | h :: next => (h_pos h, span_end t next) :: spans t next
  end.

Fixpoint candidates (t : text) (hs : list heading) : list (text * text) :=
  match hs with
  | [] => []
  | h :: next => (h_name h, section_content t h next) :: candidates t next
  end.

Definition long_enough (e : text * text) : bool := 50 <? length (snd e).

(** [sections] before the fallback *)
Definition kept_sections (t : text) : dict text :=
  extract_loop t (section_positions t) [].

(** A word that starts and ends with characters that are not white
    space. *)
Definition solid (w : text) : Prop :=
  (exists c w', w = c :: w' /\ isspace c = false) /\
  (exists w' c, w = w' ++ [c] /\ isspace c = false).

(** The heading stands in the text at its offset. *)
Definition heading_at (t : text) (h : heading) : Prop :=
  exists pre after,
    t = pre ++ h_title h ++ after /\ h_pos h = length pre /\
    solid (h_title h).



(** No pattern of any section matches anywhere. *)
Definition no_heading (t : text) : bool :=
  forallb (fun '(_, patterns) => forallb (fun p => negb (found p t)) patterns)
          section_patterns.


(** The states the rule-based review goes through, in one expression *)
Definition rule_checks (name content : text) : rule_state :=
  check_citations name content
    (check_structure content
       (check_keywords (criteria_for name) content
          (check_length content (mkRule [] [] 7)))).

(** The rule-based score as the specification words it: from 7, one off
    for a short content, one half off for each rubric keyword that is
    absent, one off for a rationale without citation mark; the result
    clamped to [1,10] and truncated. *)
Definition penalty (b : bool) : Q := if b then 1 else 0.

Definition clamp_number (q : Q) : Q :=
  if Qle_bool q 1 then 1 else if Qle_bool 10 q then 10 else q.

Definition spec_rule_score (name content : text) : Z :=
  let absent := length (missing_keywords (criteria_for name) content) in
  int_of_number
    (clamp_number
       (7 - penalty (length content <? 500)
          - inject_Z (Z.of_nat absent) * (1 # 2)
          - penalty (Py.eqb name RATIONALE && negb (found CITATION_RE content)))%Q).

(** The same in whole half points *)
Definition half_points (name content : text) : Z :=
  (14 - (if (length content <? 500)%nat then 2 else 0)
      - Z.of_nat (length (missing_keywords (criteria_for name) content))
      - (if Py.eqb name RATIONALE && negb (found CITATION_RE content)
         then 2 else 0))%Z.

(** The issues of the rule-based review as the specification lists them *)
Definition spec_rule_issues (name content : text) : list text :=
  let missing := missing_keywords (criteria_for name) content in
  (if length content <? 500 then [u "内容过于简短，缺乏详细论述"] else []) ++
  (match missing with
   | [] => []
   | _ :: _ => [u "缺少关键内容：" ++ join (u ", ") missing]
   end) ++
  (if found STRUCTURE_RE content then [] else [u "缺乏清晰的层次结构"]) ++
  (if Py.eqb name RATIONALE && negb (found CITATION_RE content)
   then [u "缺少文献引用标注"] else []).

(** The order in which the assembler emits the sections, as the
    specification words it: the canonical names that have a result, in
    canonical order, then the other results in the order of the mapping. *)
Definition canonical (name : text) : bool := existsb (Py.eqb name) section_order.

Definition emitted (results : dict ReviewResult) : dict ReviewResult :=
  flat_map (fun name =>
              match dict_get name results with
              | Some result => [(name, result)]
              | None => []
              end) section_order
  ++ filter (fun '(name, _) => negb (canonical name)) results.

(** The first offset at which [sub] occurs in [t] *)
Fixpoint find (sub t : text) : option nat :=
  if startswith sub t then Some 0
  else match t with
       | [] => None
       | _ :: t' => option_map S (find sub t')
       end.

Definition REVISED_HEADING : text := u "修改后的完整内容".

Definition drop_colon (t : text) : text :=
  match t with
  | c :: t' => if in_cset COLONS c then t' else t
  | [] => []
  end.

(** What [$] leaves out: a line feed that ends the text *)
Fixpoint eol_cut (t : text) : text :=
  match t with
  | [] => []
  | c :: t' =>
    match t' with
    | [] => if (c =? LF)%N then [] else [c]
    | _ :: _ => c :: eol_cut t'
    end
  end.

(** What group 1 of the pattern of the revised content starts at, when
    the heading starts [t] *)
Definition revised_body (t : text) : text :=
  lstrip (drop_colon (skipn (length REVISED_HEADING) t)).

(** The revised content as the code extracts it: what follows the first
    occurrence of the heading and an optional colon, stripped; the whole
    response when the heading does not occur. *)
Definition spec_revised (response : text) : text :=
  match find REVISED_HEADING response with
  | Some i => strip (drop_colon (skipn (i + length REVISED_HEADING) response))
  | None => response
  end.

(** The revised content as the claim words it: everything after the
    heading. *)
Definition claimed_revised (response : text) : text :=
  match find REVISED_HEADING response with
  | Some i => skipn (i + length REVISED_HEADING) response
  | None => response
  end.

(** The digits of the first score line, empty when there is none *)
Definition score_digits (response : text) : text :=
  match search SCORE_RE response with
  | Some x => match group1 response x with Some g => g | None => [] end
  | None => []
  end.

Definition spec_score (response : text) : Z :=
  match search SCORE_RE response with
  | Some _ =>
    match digits_value (score_digits response) with
    | Some n => Z.of_N n
    | None => 6
    end
  | None => 6
  end.

(** The batch as a list of reviews, one after the other *)
Section Batch.
Variable int_max_str_digits : nat.
Variable G : Type.
Variable generator : option (Generator G).

Definition review_one (name content : text) (use_model : bool) (w : world G)
    : ReviewResult * world G :=
  let w := print (u "正在审阅: " ++ name ++ u "...") w in
  let '(result, w) :=
    review_section int_max_str_digits generator name content use_model w in
  (result, print (u "✓ " ++ name ++ u " 评分: "
                      ++ str_of_Z (score result) ++ u "/10") w).

Fixpoint review_each (sections : dict text) (use_model : bool) (w : world G)
    : dict ReviewResult * world G :=
  match sections with
  | [] => ([], w)
  | (name, content) :: sections' =>
    let '(result, w) := review_one name content use_model w in
    let '(results, w) := review_each sections' use_model w in
    ((name, result) :: results, w)
  end.
End Batch.

Arguments review_one int_max_str_digits {G} generator name content use_model w.
Arguments review_each int_max_str_digits {G} generator sections use_model w.

(** The standard output only grows. *)
Definition grows {G} (w w' : world G) : Prop :=
  exists lines, stdout w' = stdout w ++ lines.

(** ** Notions for further properties *)

(** A text that is one line: not empty, and without line feed. *)
Definition one_line (t : text) : bool :=
  negb (is_empty t) && negb (existsb (N.eqb LF) t).

(** What names a section of a Word file: 正文, or the text of a paragraph
    in the style of headings. *)
Definition docx_title (paragraphs : list LiteratureManager.paragraph)
    (k : text) : Prop :=
  k = u "正文" \/
  exists para, In para paragraphs /\
    startswith (u "Heading") (LiteratureManager.style_name para) = true /\
    k = strip (LiteratureManager.para_text para).

(** Sections with distinct names, each the name of a section and none
    empty; and the same for the variables of the loop of the Word parser. *)
Definition docx_sound (paragraphs : list LiteratureManager.paragraph)
    (d : dict text) : Prop :=
  NoDup (keys d) /\
  forall k v, In (k, v) d -> v <> [] /\ docx_title paragraphs k.

Definition docx_steady (paragraphs : list LiteratureManager.paragraph)
    (s : LiteratureManager.docx_state) : Prop :=
  docx_sound paragraphs (LiteratureManager.d_sections s) /\
  docx_title paragraphs (LiteratureManager.current_section s) /\
  Forall (fun line => line <> []) (LiteratureManager.current_content s).

(** [s] stands at the start of [t], whatever the case of its letters. *)
Fixpoint starts_ignoring_case (s t : text) : bool :=
  match s, t with
  | [], _ => true
  | c :: s', d :: t' =>
    in_cset (Chars (case_variants c)) d && starts_ignoring_case s' t'
  | _ :: _, [] => false
  end.

(** What ends an abstract, for one or the other of the two patterns: a
    blank line, the words Introduction, Keywords or 关键词, a 1 followed by
    white space, or 一、. *)
Definition stop_marker (post : text) : bool :=
  startswith [LF; LF] post
  || starts_ignoring_case (u "Introduction") post
  || starts_ignoring_case (u "Keywords") post
  || startswith (u "关键词") post
  || match post with
     | c :: d :: _ => (c =? 49)%N && isspace d
     | _ => false
     end
  || startswith (u "一、") post.

(** [sub] occurs in [t]: [t] is some characters, then [sub], then some
    more. *)
Definition occurs (sub t : text) : Prop :=
  exists pre post, t = pre ++ sub ++ post.

(** The keywords of the rubrics, spelled out: those of the six canonical
    sections, and for every other name those of the rationale. *)
Definition rubric_keywords (name : text) : list text :=
  if Py.eqb name (u "立项依据")
  then [u "研究背景"; u "国内外"; u "研究现状"; u "意义"; u "必要性"; u "科学问题"]
  else if Py.eqb name (u "研究内容")
  then [u "研究内容"; u "研究问题"; u "核心问题"; u "研究要点"]
  else if Py.eqb name (u "研究方案")
  then [u "技术路线"; u "研究方法"; u "实验"; u "步骤"; u "进度"]
  else if Py.eqb name (u "创新点")
  then [u "创新"; u "特色"; u "首次"; u "新方法"; u "新理论"]
  else if Py.eqb name (u "预期成果")
  then [u "成果"; u "论文"; u "专利"; u "指标"; u "应用"]
  else if Py.eqb name (u "研究基础")
  then [u "基础"; u "前期"; u "团队"; u "条件"; u "积累"]
  else [u "研究背景"; u "国内外"; u "研究现状"; u "意义"; u "必要性"; u "科学问题"].

(** [Absent content keywords absent]: [absent] lists, in their order, the
    keywords that do not occur in the content. *)
Inductive Absent (content : text) : list text -> list text -> Prop :=
| Absent_nil : Absent content [] []
| Absent_found kw kws absent :
    occurs kw content -> Absent content kws absent ->
    Absent content (kw :: kws) absent
| Absent_missing kw kws absent :
    ~ occurs kw content -> Absent content kws absent ->
    Absent content (kw :: kws) (kw :: absent).

(** A citation mark: decimal digits between square brackets. *)
Definition cited (content : text) : Prop :=
  exists pre digits post,
    digits <> [] /\ forallb isdecimal digits = true /\
    content = pre ++ u "[" ++ digits ++ u "]" ++ post.

(** An enumeration mark: one of 一二三四五 or of the digits 1 to 5 between
    round brackets, full-width or not. *)
Definition enumerated (content : text) : Prop :=
  exists pre a b c post,
    content = pre ++ [a; b; c] ++ post /\
    In a (u "（(") /\
    (In b (u "一二三四五") \/ (49 <= b <= 53)%N) /\
    In c (u "）)").

(** ** Sample inputs *)

(** A preamble and two sections with enough text. *)
Definition sample_document : text :=
  u "国家自然科学基金申请书" ++ [LF] ++
  u "一、立项依据" ++ [LF] ++ u "研究背景与意义：" ++ repeat 97%N 60 ++ [LF] ++
  u "二、研究内容" ++ [LF] ++ repeat 98%N 55 ++ [LF].

(** A heading followed by too little text. *)
Definition short_document : text := u "一、立项依据 内容太短".

(** A heading followed by exactly fifty characters. *)
Definition fifty_document : text := u "一、立项依据" ++ repeat 97%N 50.

(** A text without any heading. *)
Definition plain_document : text := u "这是一段没有标题的文字。".

(** Results put into the mapping in the order 创新点, 立项依据, 研究基础,
    全文, and the same with the first two the other way round. *)
Definition sample_result (name : text) : ReviewResult :=
  mkReviewResult name (u "原文" ++ name) [u "问题"] [u "建议"]
                 (u "修改稿" ++ name) 7.

Definition sample_results : dict ReviewResult :=
  [ (INNOVATION, sample_result INNOVATION);
    (RATIONALE, sample_result RATIONALE);
    (FOUNDATION, sample_result FOUNDATION);
    (FULL_TEXT, sample_result FULL_TEXT) ].

Definition sample_results_swapped : dict ReviewResult :=
  [ (RATIONALE, sample_result RATIONALE);
    (INNOVATION, sample_result INNOVATION);
    (FOUNDATION, sample_result FOUNDATION);
    (FULL_TEXT, sample_result FULL_TEXT) ].

(** A rationale to which the rules have nothing to object. *)
Definition sound_rationale : text :=
  u "研究背景 国内外 研究现状 意义 必要性 科学问题 （1） [1]" ++ repeat 97%N 500.

(** A response in the format the prompt asks for, and one that ignores it. *)
Definition formatted_response : text :=
  join [LF]
    [ u "## 评分：8/10"; [];
      u "## 主要问题"; u "1. 文献综述不足"; u "2. 缺少与现有方法的对比"; [];
      u "## 修改建议"; u "1. 补充近五年的文献"; [];
      u "## 修改后的完整内容"; u "修改后的正文"; [] ].

Definition garbled_response : text := u "模型没有按格式回答".

(** A response that holds the revised content only, and one whose score
    has more digits than the interpreter converts by default. *)
Definition revised_only_response : text :=
  u "## 修改后的完整内容：" ++ [LF] ++ u "修改后的正文" ++ [LF].

Definition long_score_response : text := u "评分：" ++ repeat 57%N 4301.

(** A backend that raises on its second call and answers the others; its
    state counts the calls. *)
Definition flaky_backend : Generator nat :=
  fun _ _ calls =>
    (if calls =? 1 then inl (Exception_ (u "Ollama调用失败"))
     else inr formatted_response,
     S calls).

(** A document of three sections, and a file system that holds it as a
    PDF file. *)
Definition three_section_document : text :=
  u "一、立项依据" ++ [LF] ++ repeat 97%N 60 ++ [LF] ++
  u "二、研究内容" ++ [LF] ++ repeat 98%N 60 ++ [LF] ++
  u "三、研究方案" ++ [LF] ++ repeat 99%N 60 ++ [LF].

Definition sample_splitext (path : text) : text * text :=
  (u "proposal", u ".PDF").

Definition sample_lower (ext : text) : text := u ".pdf".

Definition sample_pdf_parser (path : text) : exn + LiteratureContent :=
  inr (mkLiteratureContent three_section_document).

Definition sample_docx_parser (path : text) : exn + LiteratureContent :=
  inl (Exception_ (u "not a Word document")).

(** The paragraphs of a Word file: a title, a heading in the style of
    headings, a blank paragraph and a paragraph of text. *)
Definition sample_paragraphs : list LiteratureManager.paragraph :=
  [ LiteratureManager.mkParagraph (u "国家自然科学基金申请书") (u "Title");
    LiteratureManager.mkParagraph (u " 一、立项依据 ") (u "Heading 1");
    LiteratureManager.mkParagraph (u "  ") (u "Normal");
    LiteratureManager.mkParagraph (repeat 97%N 60) (u "Normal") ].

(** * Facts about the string operations *)

Section StringFacts.

Lemma eqb_spec (a b : text) : Py.eqb a b = true <-> a = b.
Proof.
  revert b; induction a as [|x a IH]; intros [|y b]; simpl;
    try (split; [discriminate | congruence]); try tauto.
  rewrite andb_true_iff, N.eqb_eq, IH. split.
  - intros [-> ->]; reflexivity.
  - intros E; injection E; auto.
Qed.

Lemma eqb_refl (a : text) : Py.eqb a a = true.
Proof. apply eqb_spec; reflexivity. Qed.

Lemma eqb_neq (a b : text) : Py.eqb a b = false <-> a <> b.
Proof.
  rewrite <- eqb_spec. destruct (Py.eqb a b); split; congruence.
Qed.

Lemma startswith_app (l rest : text) : startswith l (l ++ rest) = true.
Proof. induction l; simpl; [|rewrite N.eqb_refl]; auto. Qed.

Lemma startswith_split (l t : text) :
  startswith l t = true -> t = l ++ skipn (length l) t.
Proof.
  revert t; induction l as [|a l IH]; intros [|b t]; simpl; try easy.
  rewrite andb_true_iff, N.eqb_eq. intros [-> H]. f_equal; auto.
Qed.

Lemma lstrip_idem (t : text) : lstrip (lstrip t) = lstrip t.
Proof.
  induction t as [|c t IH]; simpl; auto.
  destruct (isspace c) eqn:E; auto. simpl; rewrite E; reflexivity.
Qed.

Lemma lstrip_nonspace (c : char) (t : text) :
  isspace c = false -> lstrip (c :: t) = c :: t.
Proof. simpl; intros ->; reflexivity. Qed.

Lemma lstrip_app (x y : text) :
  lstrip (x ++ y) = match lstrip x with [] => lstrip y | _ :: _ => lstrip x ++ y end.
Proof.
  induction x as [|c x IH]; simpl; auto.
  destruct (isspace c); auto.
Qed.

Lemma lstrip_spaces (x y : text) :
  forallb isspace x = true -> lstrip (x ++ y) = lstrip y.
Proof.
  induction x as [|c x IH]; simpl; auto.
  rewrite andb_true_iff; intros [-> H]; auto.
Qed.

Lemma rstrip_idem (t : text) : rstrip (rstrip t) = rstrip t.
Proof. unfold rstrip. rewrite rev_involutive, lstrip_idem. reflexivity. Qed.

(** Trailing white space is cut off behind a word that ends with a
    character that is not white space. *)
Lemma rstrip_app (a b : text) (c : char) :
  isspace c = false -> rstrip ((a ++ [c]) ++ b) = (a ++ [c]) ++ rstrip b.
Proof.
  intros Hc. unfold rstrip.
  rewrite !rev_app_distr, lstrip_app. simpl.
  destruct (lstrip (rev b)) eqn:E.
  - rewrite Hc. simpl. rewrite rev_involutive, app_nil_r. reflexivity.
  - rewrite rev_app_distr. simpl. rewrite rev_involutive. reflexivity.
Qed.

Lemma lstrip_decompose (t : text) :
  exists ws, t = ws ++ lstrip t /\ forallb isspace ws = true.
Proof.
  induction t as [|c t (ws & E & H)]; simpl.
  - exists []; auto.
  - destruct (isspace c) eqn:Ec.
    + exists (c :: ws); simpl; rewrite Ec, H; split; [f_equal; exact E | reflexivity].
    + exists []; auto.
Qed.

Lemma lstrip_head (t : text) (c : char) (t' : text) :
  lstrip t = c :: t' -> isspace c = false.
Proof.
  induction t as [|d t IH]; simpl; try discriminate.
  destruct (isspace d) eqn:E; auto. intros H; injection H as -> _; auto.
Qed.

Lemma strip_comm (t : text) : lstrip (rstrip t) = rstrip (lstrip t).
Proof.
  destruct (lstrip_decompose t) as (ws & E & Hws).
  destruct (lstrip t) as [|c t'] eqn:El.
  - (* only white space *)
    rewrite app_nil_r in E; subst ws.
    assert (R : lstrip (rev t) = []).
    { clear El. assert (H : forallb isspace (rev t) = true).
      { rewrite forallb_forall in *. intros x Hx; apply Hws, in_rev; auto. }
      rewrite <- (app_nil_r (rev t)), lstrip_spaces; auto. }
    unfold rstrip. rewrite R; reflexivity.
  - pose proof (lstrip_head _ _ _ El) as Hc.
    assert (Ht : rstrip t = (ws ++ [c]) ++ rstrip t').
    { rewrite E, <- rstrip_app by auto. rewrite <- app_assoc. reflexivity. }
    rewrite Ht, <- app_assoc, lstrip_spaces by auto.
    simpl. rewrite Hc.
    apply (eq_sym (rstrip_app [] t' c Hc)).
Qed.


(** White space around a word that starts and ends with other characters
    is cut off behind it only. *)
Lemma strip_headed (c : char) (a : text) (d : char) (b : text) :
  isspace c = false -> isspace d = false ->
  strip ((c :: a ++ [d]) ++ b) = (c :: a ++ [d]) ++ rstrip b.
Proof.
  intros Hc Hd. unfold strip. simpl. rewrite Hc.
  change (c :: (a ++ [d]) ++ b) with (((c :: a) ++ [d]) ++ b).
  rewrite rstrip_app by auto. reflexivity.
Qed.



Lemma slice_app_at (pre w after : text) :
  slice (length pre) (length pre + length w) (pre ++ w ++ after) = w.
Proof.
  unfold slice. rewrite skipn_app, skipn_all, Nat.sub_diag. simpl.
  replace (length pre + length w - length pre) with (length w) by lia.
  rewrite firstn_app, firstn_all, Nat.sub_diag. simpl. apply app_nil_r.
Qed.


End StringFacts.

(** * Soundness of the matcher *)

Section MatcherFacts.

Lemma orelse_some {A} (a b : option A) (r : A) :
  orelse a b = Some r -> a = Some r \/ b = Some r.
Proof. destruct a; simpl; auto. Qed.

Lemma orelse_none {A} (a b : option A) :
  orelse a b = None <-> a = None /\ b = None.
Proof.
  destruct a; simpl.
  - split; [discriminate | intros [H _]; discriminate].
  - split; [auto | intros [_ H]; auto].
Qed.

Lemma below_within (hi : option nat) (n : nat) :
  below hi n = true -> within hi (S n).
Proof.
  destruct hi; simpl; auto. rewrite Nat.ltb_lt. lia.
Qed.

Lemma rep_greedy_sound cs lo hi k res : forall t n p g,
  rep_greedy cs lo hi k n p t g = Some res ->
  within hi n ->
  exists w after,
    t = w ++ after /\ forallb (in_cset cs) w = true /\
    lo <= n + length w /\ within hi (n + length w) /\
    k (St (p + length w) after g) = Some res.
Proof.
  assert (Stop : forall t n p g,
    (if lo <=? n then k (St p t g) else None) = Some res -> within hi n ->
    exists w after,
      t = w ++ after /\ forallb (in_cset cs) w = true /\
      lo <= n + length w /\ within hi (n + length w) /\
      k (St (p + length w) after g) = Some res).
  { intros t n p g H W. destruct (lo <=? n) eqn:E; try discriminate.
    apply Nat.leb_le in E. exists [], t. simpl.
    rewrite !Nat.add_0_r. auto. }
  induction t as [|c t IH]; intros n p g H W; simpl in H.
  - apply Stop; auto.
  - destruct (in_cset cs c && below hi n) eqn:E.
    + apply orelse_some in H. destruct H as [H|H]; [|apply Stop; auto].
      apply andb_true_iff in E. destruct E as [Ec Eb].
      apply IH in H; [|apply below_within; auto].
      destruct H as (w & after & -> & Hw & Hlo & Hhi & Hk).
      exists (c :: w), after. simpl. rewrite Ec, Hw.
      replace (n + S (length w)) with (S n + length w) by lia.
      replace (p + S (length w)) with (S p + length w) by lia. auto.
    + apply Stop; auto.
Qed.

Lemma rep_lazy_sound cs lo hi k res : forall t n p g,
  rep_lazy cs lo hi k n p t g = Some res ->
  within hi n ->
  exists w after,
    t = w ++ after /\ forallb (in_cset cs) w = true /\
    lo <= n + length w /\ within hi (n + length w) /\
    k (St (p + length w) after g) = Some res.
Proof.
  induction t as [|c t IH]; intros n p g H W; simpl in H.
  - destruct (lo <=? n) eqn:E; try discriminate.
    apply orelse_some in H. destruct H as [H|H]; try discriminate.
    apply Nat.leb_le in E. exists [], []. simpl. rewrite !Nat.add_0_r. auto.
  - assert (More :
      (if in_cset cs c && below hi n
       then rep_lazy cs lo hi k (S n) (S p) t g else None) = Some res ->
      exists w after,
        c :: t = w ++ after /\ forallb (in_cset cs) w = true /\
        lo <= n + length w /\ within hi (n + length w) /\
        k (St (p + length w) after g) = Some res).
    { intros H'. destruct (in_cset cs c && below hi n) eqn:E; try discriminate.
      apply andb_true_iff in E. destruct E as [Ec Eb].
      apply IH in H'; [|apply below_within; auto].
      destruct H' as (w & after & -> & Hw & Hlo & Hhi & Hk).
      exists (c :: w), after. simpl. rewrite Ec, Hw.
      replace (n + S (length w)) with (S n + length w) by lia.
      replace (p + S (length w)) with (S p + length w) by lia. auto. }
    destruct (lo <=? n) eqn:E; auto.
    apply orelse_some in H. destruct H as [H|H]; auto.
    apply Nat.leb_le in E. exists [], (c :: t). simpl.
    rewrite !Nat.add_0_r. auto.
Qed.

(** Whenever the matcher answers, its continuation was entered after a
    word that the pattern matches declaratively. *)
Lemma m_sound (r : regex) : forall k s res,
  m r k s = Some res ->
  exists w after g',
    rest s = w ++ after /\ Matches r (pos s) w after (grp s) g' /\
    k (St (pos s + length w) after g') = Some res.
Proof.
  induction r as [l|cs|r1 IH1 r2 IH2|r1 IH1 r2 IH2|gr lo hi cs|r IH|r IH| |];
    intros k [p t g] res H; simpl in *.
  - destruct (startswith l t) eqn:E; try discriminate.
    exists l, (skipn (length l) t), g. split; [apply startswith_split; auto|].
    split; [constructor | auto].
  - destruct t as [|c t]; try discriminate.
    destruct (in_cset cs c) eqn:E; try discriminate.
    exists [c], t, g. simpl. replace (p + 1) with (S p) by lia.
    split; auto. split; [constructor; auto | auto].
  - apply IH1 in H. destruct H as (w1 & after1 & g1 & E1 & M1 & H).
    apply IH2 in H. destruct H as (w2 & after & g2 & E2 & M2 & H).
    simpl in *. subst after1.
    exists (w1 ++ w2), after, g2. rewrite length_app, Nat.add_assoc, <- app_assoc.
    split; auto. split; auto. econstructor; eauto.
  - apply orelse_some in H. destruct H as [H|H].
    + apply IH1 in H. destruct H as (w & after & g' & E & M & H).
      exists w, after, g'. split; auto. split; auto. apply MOrL; auto.
    + apply IH2 in H. destruct H as (w & after & g' & E & M & H).
      exists w, after, g'. split; auto. split; auto. apply MOrR; auto.
  - assert (W0 : within hi 0) by (destruct hi; simpl; auto; lia).
    destruct gr.
    + apply rep_greedy_sound in H; auto.
      destruct H as (w & after & E & Hw & Hlo & Hhi & Hk).
      exists w, after, g. split; auto. split; auto. constructor; auto.
    + apply rep_lazy_sound in H; auto.
      destruct H as (w & after & E & Hw & Hlo & Hhi & Hk).
      exists w, after, g. split; auto. split; auto. constructor; auto.
  - apply IH in H. destruct H as (w & after & g' & E & M & H). simpl in *.
    exists w, after, (Some (p, p + length w)). split; auto. split; auto.
    econstructor; eauto.
  - destruct (m r Some (St p t g)) as [s'|] eqn:E; try discriminate.
    apply IH in E. destruct E as (w & after' & g' & E & M & E').
    injection E' as <-. simpl in *.
    exists [], t, g'. rewrite Nat.add_0_r. split; auto. split; auto.
    econstructor; eauto.
  - destruct (p =? 0) eqn:E; try discriminate. apply Nat.eqb_eq in E. subst p.
    exists [], t, g. simpl. split; auto. split; [constructor | auto].
  - assert (Hk : k (St p t g) = Some res /\ (t = [] \/ t = [LF])).
    { destruct t as [|c [|d t]]; try discriminate; auto.
      destruct (c =? LF)%N eqn:E; try discriminate.
      apply N.eqb_eq in E. subst c. auto. }
    destruct Hk as [Hk Ht].
    exists [], t, g. simpl. rewrite Nat.add_0_r. split; auto.
    split; [constructor; auto | auto].
Qed.

(** What a declarative match says about its word and about group 1. *)
Lemma Matches_starts r p w after g g' :
  Matches r p w after g g' -> starts_nonspace r = true ->
  exists c w', w = c :: w' /\ isspace c = false.
Proof.
  induction 1; simpl; intros S; try discriminate.
  - destruct l as [|c l]; try discriminate.
    exists c, l. split; auto. apply negb_true_iff; auto.
  - exists c, []. split; auto.
    unfold in_cset in H. apply existsb_exists in H. destruct H as (i & Hi & Hc).
    unfold nonspace_set in S. rewrite forallb_forall in S. specialize (S i Hi).
    destruct i; simpl in *; try discriminate.
    + apply N.eqb_eq in Hc. subst. apply negb_true_iff; auto.
    + apply negb_true_iff; auto.
  - destruct (IHMatches1 S) as (c & w' & -> & Hc).
    exists c, (w' ++ w2). auto.
  - auto.
Qed.

Lemma Matches_ends r p w after g g' :
  Matches r p w after g g' -> ends_nonspace r = true ->
  exists w' c, w = w' ++ [c] /\ isspace c = false.
Proof.
  induction 1; simpl; intros S; try discriminate.
  - destruct (rev l) as [|c l'] eqn:E; try discriminate.
    exists (rev l'), c. split; [|apply negb_true_iff; auto].
    rewrite <- (rev_involutive l), E. reflexivity.
  - exists [], c. split; auto.
    unfold in_cset in H. apply existsb_exists in H. destruct H as (i & Hi & Hc).
    unfold nonspace_set in S. rewrite forallb_forall in S. specialize (S i Hi).
    destruct i; simpl in *; try discriminate.
    + apply N.eqb_eq in Hc. subst. apply negb_true_iff; auto.
    + apply negb_true_iff; auto.
  - destruct (IHMatches2 S) as (w' & c & -> & Hc).
    exists (w1 ++ w'), c. rewrite app_assoc. auto.
  - auto.
Qed.

Lemma Matches_group_kept r p w after g g' :
  Matches r p w after g g' -> g <> None -> g' <> None.
Proof. induction 1; auto; discriminate. Qed.

Lemma Matches_group r p w after g g' :
  Matches r p w after g g' -> sets_group r = true -> g' <> None.
Proof.
  induction 1; simpl; intros S; try discriminate.
  - apply orb_true_iff in S. destruct S as [S|S]; auto.
    eapply Matches_group_kept; eauto.
  - apply andb_true_iff in S. destruct S; auto.
  - apply andb_true_iff in S. destruct S; auto.
Qed.

End MatcherFacts.

(** * Searching *)

Section SearchFacts.

Lemma match_at_sound r p t x :
  match_at r p t = Some x ->
  exists w after,
    t = w ++ after /\ Matches r p w after None (m_group1 x) /\
    m_start x = p /\ m_end x = p + length w.
Proof.
  unfold match_at. destruct (m r Some (St p t None)) as [s|] eqn:E; try discriminate.
  intros H; injection H as <-.
  apply m_sound in E. destruct E as (w & after & g' & E & M & H).
  injection H as <-. simpl in *. exists w, after. auto.
Qed.

Lemma search_from_sound r : forall t p x,
  search_from r p t = Some x ->
  exists pre w after,
    t = pre ++ w ++ after /\
    Matches r (p + length pre) w after None (m_group1 x) /\
    m_start x = p + length pre /\ m_end x = p + length pre + length w.
Proof.
  induction t as [|c t IH]; intros p x H; simpl in H.
  - destruct (match_at r p []) eqn:E; try discriminate. injection H as ->.
    apply match_at_sound in E. destruct E as (w & after & E & M & Hs & He).
    exists [], w, after. simpl. rewrite Nat.add_0_r. auto.
  - destruct (match_at r p (c :: t)) eqn:E.
    + injection H as ->.
      apply match_at_sound in E. destruct E as (w & after & E & M & Hs & He).
      exists [], w, after. simpl. rewrite Nat.add_0_r. auto.
    + apply IH in H. destruct H as (pre & w & after & -> & M & Hs & He).
      exists (c :: pre), w, after. simpl.
      replace (p + S (length pre)) with (S p + length pre) by lia. auto.
Qed.

Lemma search_sound r t x :
  search r t = Some x ->
  exists pre w after,
    t = pre ++ w ++ after /\
    Matches r (length pre) w after None (m_group1 x) /\
    m_start x = length pre /\ m_end x = length pre + length w.
Proof. intros H. apply search_from_sound in H. exact H. Qed.

(** [search] finds the leftmost match: the pattern matches at no offset
    before it. *)
Lemma search_from_leftmost r : forall t p x,
  search_from r p t = Some x ->
  forall i, p + i < m_start x -> match_at r (p + i) (skipn i t) = None.
Proof.
  induction t as [|c t IH]; intros p x H i L; cbn [search_from] in H.
  - destruct (match_at r p []) as [y|] eqn:E; [|discriminate].
    injection H as ->. apply match_at_sound in E.
    destruct E as (_ & _ & _ & _ & Hs & _). lia.
  - destruct (match_at r p (c :: t)) as [y|] eqn:E.
    + injection H as ->. apply match_at_sound in E.
      destruct E as (_ & _ & _ & _ & Hs & _). lia.
    + destruct i as [|i].
      * rewrite Nat.add_0_r. exact E.
      * cbn [skipn]. replace (p + S i) with (S p + i) by lia.
        apply (IH (S p) x H). lia.
Qed.

Lemma search_leftmost r t x :
  search r t = Some x ->
  forall i, i < m_start x -> match_at r i (skipn i t) = None.
Proof. intros H i L. apply (search_from_leftmost r t 0 x H i). exact L. Qed.

(** The first match that [finditer] yields is the one [search] finds. *)
Lemma finditer_head r t :
  finditer r t =
  match search r t with
  | Some x =>
    x :: finditer_from (length t) r t
           (if m_end x =? m_start x then S (m_end x) else m_end x)
  | None => []
  end.
Proof. reflexivity. Qed.

(** More fuel than the length of what is left of the subject changes
    nothing. *)
Lemma finditer_fuel r t : forall fuel fuel' p,
  length t < p + fuel -> length t < p + fuel' ->
  finditer_from fuel r t p = finditer_from fuel' r t p.
Proof.
  induction fuel as [|fuel IH]; intros [|fuel'] p H H'; cbn [finditer_from];
    auto.
  - assert (G : (length t <? p) = true) by (apply Nat.ltb_lt; lia).
    rewrite G. reflexivity.
  - assert (G : (length t <? p) = true) by (apply Nat.ltb_lt; lia).
    rewrite G. reflexivity.
  - destruct (length t <? p) eqn:G; auto.
    destruct (search_from r p (skipn p t)) as [x|] eqn:E; auto.
    apply search_from_sound in E.
    destruct E as (pre & w & after & _ & _ & Hs & He).
    f_equal. apply IH;
      (destruct (m_end x =? m_start x) eqn:Q;
       [|apply Nat.eqb_neq in Q]; lia).
Qed.

Lemma finditer_nil r t : finditer r t = [] <-> search r t = None.
Proof.
  rewrite finditer_head. destruct (search r t); split; congruence.
Qed.

Lemma found_false r t : found r t = false <-> search r t = None.
Proof. unfold found. destruct (search r t); split; congruence. Qed.

(** A pattern anchored at the start of the text matches there or
    nowhere. *)
Lemma search_from_bol r : forall t p, 0 < p -> search_from (Cat Bol r) p t = None.
Proof.
  assert (A : forall t p, 0 < p -> match_at (Cat Bol r) p t = None).
  { intros t p Hp. unfold match_at. simpl.
    destruct (p =? 0) eqn:E; auto. apply Nat.eqb_eq in E. lia. }
  induction t as [|c t IH]; intros p Hp; simpl; rewrite A by auto;
    [reflexivity | apply IH; lia].
Qed.

(** [re.sub("^" + re.escape(title), "", s)] removes [title] from the
    front of [s] when it is there, and leaves [s] alone otherwise. *)
Lemma sub_title (title s : text) :
  title <> [] ->
  sub (Cat Bol (escape title)) [] s =
  if startswith title s then skipn (length title) s else s.
Proof.
  intros Ht. unfold sub. rewrite finditer_head. unfold search.
  assert (A : match_at (Cat Bol (escape title)) 0 s =
              if startswith title s
              then Some (Match 0 (length title) None) else None).
  { unfold match_at. simpl. destruct (startswith title s); reflexivity. }
  destruct (startswith title s) eqn:E.
  - assert (S0 : search_from (Cat Bol (escape title)) 0 s
                 = Some (Match 0 (length title) None)).
    { destruct s; simpl; rewrite A; reflexivity. }
    rewrite S0. cbn [m_end m_start].
    assert (L : (length title =? 0) = false).
    { destruct title; [congruence | reflexivity]. }
    rewrite L.
    assert (Hs : 0 < length s).
    { apply startswith_split in E. rewrite E, length_app.
      destruct title; [congruence | simpl; lia]. }
    destruct (length s) as [|n] eqn:En; [lia|]. cbn [finditer_from].
    destruct (length s <? length title); [reflexivity|].
    rewrite search_from_bol by (destruct title; [congruence | simpl; lia]).
    reflexivity.
  - assert (S0 : search_from (Cat Bol (escape title)) 0 s = None).
    { destruct s; simpl; rewrite A; auto. apply search_from_bol. lia. }
    rewrite S0. reflexivity.
Qed.

End SearchFacts.

(** * Dictionaries and sorting *)

Section DictFacts.
Context {V : Type}.

Lemma dict_set_fresh (k : text) (v : V) (d : dict V) :
  ~ In k (keys d) -> dict_set k v d = d ++ [(k, v)].
Proof.
  induction d as [|[k' v'] d IH]; simpl; intros H; auto.
  destruct (Py.eqb k' k) eqn:E.
  - apply eqb_spec in E. tauto.
  - rewrite IH; auto.
Qed.

Lemma keys_dict_set (k : text) (v : V) (d : dict V) :
  keys (dict_set k v d) = if dict_mem k d then keys d else keys d ++ [k].
Proof.
  unfold dict_mem.
  induction d as [|[k' v'] d IH]; simpl; auto.
  destruct (Py.eqb k' k) eqn:E; simpl; auto.
  rewrite IH. destruct (dict_get k d); reflexivity.
Qed.

Lemma dict_mem_In (k : text) (d : dict V) :
  dict_mem k d = true <-> In k (keys d).
Proof.
  unfold dict_mem.
  induction d as [|[k' v'] d IH]; simpl.
  - split; [discriminate | tauto].
  - destruct (Py.eqb k' k) eqn:E.
    + apply eqb_spec in E. split; auto.
    + apply eqb_neq in E. rewrite IH. split; auto. intros [H|H]; tauto.
Qed.

Lemma dict_get_In (k : text) (v : V) (d : dict V) :
  NoDup (keys d) -> (dict_get k d = Some v <-> In (k, v) d).
Proof.
  induction d as [|[k' v'] d IH]; simpl; intros N.
  - split; [discriminate | tauto].
  - inversion N as [|? ? N1 N2]; subst.
    destruct (Py.eqb k' k) eqn:E.
    + apply eqb_spec in E. subst k'. split.
      * intros H; injection H as ->; auto.
      * intros [H|H]; [congruence|].
        exfalso. apply N1. apply (in_map fst) in H. exact H.
    + apply eqb_neq in E. rewrite IH by auto. split; auto.
      intros [H|H]; auto. congruence.
Qed.

Lemma NoDup_keys_dict_set (k : text) (v : V) (d : dict V) :
  NoDup (keys d) -> NoDup (keys (dict_set k v d)).
Proof.
  intros N. rewrite keys_dict_set. destruct (dict_mem k d) eqn:E; auto.
  apply NoDup_app; auto.
  - constructor; [simpl; tauto | constructor].
  - intros x Hx [<-|[]]. apply dict_mem_In in Hx. congruence.
Qed.

End DictFacts.

Section SortFacts.

Lemma insert_by_pos_perm h l : Permutation (insert_by_pos h l) (h :: l).
Proof.
  induction l as [|h' l IH]; simpl; auto.
  destruct (h_pos h <=? h_pos h'); auto.
  rewrite IH. apply perm_swap.
Qed.

Lemma sort_by_pos_perm l : Permutation (sort_by_pos l) l.
Proof.
  induction l as [|h l IH]; simpl; auto.
  rewrite insert_by_pos_perm. auto.
Qed.



End SortFacts.

(** * The headings the segmenter finds *)

Section HeadingFacts.


Lemma solid_nonempty (w : text) : solid w -> w <> [].
Proof. intros [(c & w' & -> & _) _]. discriminate. Qed.

Lemma patterns_solid :
  forallb (fun '(_, patterns) =>
             forallb (fun p => starts_nonspace p && ends_nonspace p) patterns)
          section_patterns = true.
Proof. vm_compute. reflexivity. Qed.

Lemma first_heading_spec name t : forall patterns h,
  In h (first_heading name patterns t) ->
  h_name h = name /\
  exists p x, In p patterns /\ search p t = Some x /\
              h_pos h = m_start x /\ h_title h = group0 t x.
Proof.
  induction patterns as [|p ps IH]; simpl; intros h H; [tauto|].
  rewrite finditer_head in H. destruct (search p t) as [x|] eqn:E.
  - destruct H as [<-|[]]. simpl. split; auto. exists p, x. auto.
  - destruct (IH h H) as (Hn & q & x & Hq & Hx). split; auto.
    exists q, x. auto.
Qed.

Lemma first_heading_names name t patterns :
  map h_name (first_heading name patterns t) = [] \/
  map h_name (first_heading name patterns t) = [name].
Proof.
  induction patterns as [|p ps IH]; simpl; auto.
  destruct (finditer p t); simpl; auto.
Qed.

Lemma search_heading_at p t x :
  starts_nonspace p = true -> ends_nonspace p = true ->
  search p t = Some x ->
  exists pre after,
    t = pre ++ group0 t x ++ after /\ m_start x = length pre /\
    solid (group0 t x).
Proof.
  intros S E H. apply search_sound in H.
  destruct H as (pre & w & after & -> & M & Hs & He).
  exists pre, after. unfold group0. rewrite Hs, He, slice_app_at.
  repeat split; auto.
  - eapply Matches_starts; eauto.
  - eapply Matches_ends; eauto.
Qed.

Lemma find_headings_at t : Forall (heading_at t) (find_headings t).
Proof.
  unfold find_headings. apply Forall_forall. intros h H.
  apply in_flat_map in H. destruct H as ([name ps] & Hin & H).
  apply first_heading_spec in H. destruct H as (_ & p & x & Hp & Hx & Hpos & Ht).
  pose proof patterns_solid as PS. rewrite forallb_forall in PS.
  specialize (PS _ Hin). simpl in PS. rewrite forallb_forall in PS.
  specialize (PS _ Hp). apply andb_true_iff in PS. destruct PS as [S E].
  destruct (search_heading_at p t x S E Hx) as (pre & after & Et & Hs & Hsolid).
  exists pre, after. rewrite Ht, Hpos. auto.
Qed.

Lemma find_headings_names_aux t : forall (l : dict (list regex)),
  NoDup (keys l) ->
  NoDup (map h_name (flat_map (fun '(name, patterns) =>
                                 first_heading name patterns t) l)) /\
  forall n, In n (map h_name (flat_map (fun '(name, patterns) =>
                                 first_heading name patterns t) l)) ->
            In n (keys l).
Proof.
  induction l as [|[name ps] l IH]; simpl; intros N.
  - split; [constructor | tauto].
  - inversion N as [|? ? N1 N2]; subst. destruct (IH N2) as [IH1 IH2].
    rewrite map_app.
    destruct (first_heading_names name t ps) as [E|E]; rewrite E; simpl.
    + split; auto.
    + split.
      * constructor; auto.
      * intros n [<-|H]; auto.
Qed.

Lemma section_patterns_keys : keys section_patterns = section_order.
Proof. reflexivity. Qed.

Lemma distinct_NoDup (l : list text) : distinct l = true -> NoDup l.
Proof.
  induction l as [|x l IH]; simpl; intros H; constructor.
  - apply andb_true_iff in H. destruct H as [H _].
    apply negb_true_iff in H. intros Hin.
    assert (existsb (Py.eqb x) l = true).
    { apply existsb_exists. exists x. split; auto. apply eqb_refl. }
    congruence.
  - apply IH. apply andb_true_iff in H. tauto.
Qed.

Lemma section_order_nodup : NoDup section_order.
Proof. apply distinct_NoDup. vm_compute. reflexivity. Qed.

Lemma find_headings_names t :
  NoDup (map h_name (find_headings t)) /\
  forall h, In h (find_headings t) -> In (h_name h) section_order.
Proof.
  destruct (find_headings_names_aux t section_patterns) as [N I].
  { rewrite section_patterns_keys. apply section_order_nodup. }
  split; auto. intros h H. apply I. apply in_map. exact H.
Qed.

Lemma section_positions_at t : Forall (heading_at t) (section_positions t).
Proof.
  eapply Permutation_Forall; [|apply find_headings_at].
  symmetry. apply sort_by_pos_perm.
Qed.

Lemma section_positions_names t :
  NoDup (map h_name (section_positions t)) /\
  forall h, In h (section_positions t) -> In (h_name h) section_order.
Proof.
  destruct (find_headings_names t) as [N I].
  pose proof (sort_by_pos_perm (find_headings t)) as P. split.
  - eapply Permutation_NoDup; [|exact N].
    apply Permutation_map. symmetry. exact P.
  - intros h H. apply I. eapply Permutation_in; eauto.
Qed.



End HeadingFacts.

(** * What the extraction loop keeps *)

Section ExtractionFacts.

Lemma candidates_names t hs : map fst (candidates t hs) = map h_name hs.
Proof. induction hs as [|h hs IH]; simpl; congruence. Qed.

Lemma candidates_split t : forall pre h next,
  exists before,
    candidates t (pre ++ h :: next) =
      before ++ (h_name h, section_content t h next) :: candidates t next /\
    map fst before = map h_name pre.
Proof.
  induction pre as [|x pre IH]; intros h next; simpl.
  - exists []. auto.
  - destruct (IH h next) as (before & E & N). rewrite E.
    exists ((h_name x, section_content t x (pre ++ h :: next)) :: before).
    simpl. rewrite N. auto.
Qed.

(** The names found are distinct, so every [sections[name] = content] of
    the loop adds an entry at the end. *)
Lemma extract_loop_filter t : forall hs acc,
  NoDup (map h_name hs) ->
  (forall h, In h hs -> ~ In (h_name h) (keys acc)) ->
  extract_loop t hs acc = acc ++ filter long_enough (candidates t hs).
Proof.
  induction hs as [|h hs IH]; intros acc N F; simpl.
  - rewrite app_nil_r. reflexivity.
  - inversion N as [|? ? N1 N2]; subst.
    unfold long_enough at 1. simpl.
    destruct (50 <? length (section_content t h hs)) eqn:E.
    + rewrite IH; auto.
      * rewrite dict_set_fresh by (apply F; simpl; auto).
        rewrite <- app_assoc. reflexivity.
      * intros h' H'. rewrite dict_set_fresh by (apply F; simpl; auto).
        unfold keys. rewrite map_app, in_app_iff. simpl.
        intros [H|[H|[]]].
        -- apply (F h'); simpl; auto.
        -- apply N1. rewrite H. apply in_map. exact H'.
    + apply IH; auto. intros h' H'. apply F. simpl; auto.
Qed.

Lemma kept_sections_filter t :
  kept_sections t = filter long_enough (candidates t (section_positions t)).
Proof.
  unfold kept_sections. rewrite extract_loop_filter; auto.
  apply section_positions_names.
Qed.

Lemma extract_sections_cases t :
  _extract_sections t =
  match kept_sections t with
  | [] => [(FULL_TEXT, t)]
  | _ :: _ => kept_sections t
  end.
Proof.
  unfold _extract_sections, kept_sections.
  destruct (extract_loop t (section_positions t) []); reflexivity.
Qed.







Lemma first_heading_none name t : forall patterns,
  forallb (fun p => negb (found p t)) patterns = true ->
  first_heading name patterns t = [].
Proof.
  induction patterns as [|p ps IH]; simpl; auto.
  rewrite andb_true_iff, negb_true_iff, found_false. intros [H1 H2].
  apply finditer_nil in H1. rewrite H1. auto.
Qed.

Lemma no_heading_positions t : no_heading t = true -> section_positions t = [].
Proof.
  unfold no_heading, section_positions, find_headings.
  induction section_patterns as [|[name ps] l IH]; simpl; auto.
  rewrite andb_true_iff. intros [H1 H2].
  rewrite first_heading_none by auto. simpl. auto.
Qed.

Lemma full_text_not_canonical : ~ In FULL_TEXT section_order.
Proof.
  intros H. apply (in_map (fun x => length x)) in H.
  vm_compute in H. intuition discriminate.
Qed.

End ExtractionFacts.

(** * The segmenter *)


Lemma spans_length t hs : length (spans t hs) = length hs.
Proof. induction hs; simpl; auto. Qed.

(** C2. A text in which no heading pattern matches comes back as the
    single section [全文] holding the whole text. *)
Theorem no_heading_fallback (t : text) :
  no_heading t = true -> _extract_sections t = [(FULL_TEXT, t)].
Proof.
  intros H. unfold _extract_sections.
  rewrite (no_heading_positions t H). reflexivity.
Qed.

(** C9, as the code has it.  The section of a heading found in the text is
    in the result exactly when its content, without the heading and the
    white space around it, is longer than fifty characters, and it is then
    stored under the name of the section. *)
Theorem section_kept_iff (t : text) (before : list heading) (h : heading)
    (next : list heading) :
  section_positions t = before ++ h :: next ->
  (In (h_name h) (keys (_extract_sections t))
     <-> 50 < length (section_content t h next)) /\
  (50 < length (section_content t h next) ->
   dict_get (h_name h) (_extract_sections t) = Some (section_content t h next)).
Proof.
  intros E.
  destruct (section_positions_names t) as [N C]. rewrite E in N, C.
  assert (Hcanon : In (h_name h) section_order).
  { apply C. apply in_elt. }
  destruct (candidates_split t before h next) as (pre & Ec & Npre).
  assert (K : kept_sections t =
              filter long_enough pre ++
              (if 50 <? length (section_content t h next)
               then [(h_name h, section_content t h next)] else []) ++
              filter long_enough (candidates t next)).
  { rewrite kept_sections_filter, E, Ec, filter_app. simpl.
    unfold long_enough at 2. simpl.
    destruct (50 <? length (section_content t h next)); reflexivity. }
  rewrite map_app in N. simpl in N.
  assert (Nb : ~ In (h_name h) (map fst (filter long_enough pre))).
  { intros H. apply in_map_iff in H. destruct H as ([n c] & Hn & H).
    apply filter_In in H. destruct H as [H _]. simpl in Hn. subst n.
    apply (in_map fst) in H. rewrite Npre in H. simpl in H.
    apply NoDup_remove_2 in N. apply N. apply in_or_app. auto. }
  assert (Nn : ~ In (h_name h) (map fst (filter long_enough (candidates t next)))).
  { intros H. apply in_map_iff in H. destruct H as ([n c] & Hn & H).
    apply filter_In in H. destruct H as [H _]. simpl in Hn. subst n.
    apply (in_map fst) in H. rewrite candidates_names in H. simpl in H.
    apply NoDup_remove_2 in N. apply N. apply in_or_app. auto. }
  assert (Nk : NoDup (keys (kept_sections t))).
  { rewrite kept_sections_filter, E.
    assert (G : forall l : dict text, NoDup (map fst l) ->
                NoDup (keys (filter long_enough l))).
    { induction l as [|[n c] l IH]; simpl; intros Hl; [constructor|].
      inversion Hl; subst. destruct (long_enough (n, c)); simpl; auto.
      constructor; auto. intros H. apply in_map_iff in H.
      destruct H as ([n' c'] & Hn & H). apply filter_In in H. simpl in Hn.
      subst n'. destruct H as [H _]. apply (in_map fst) in H. auto. }
    apply G. rewrite candidates_names, map_app. exact N. }
  destruct (50 <? length (section_content t h next)) eqn:L.
  - apply Nat.ltb_lt in L.
    assert (I : In (h_name h, section_content t h next) (kept_sections t)).
    { rewrite K. apply in_or_app. right. simpl. auto. }
    assert (X : _extract_sections t = kept_sections t).
    { rewrite extract_sections_cases. destruct (kept_sections t); [destruct I | auto]. }
    rewrite X. split.
    + split; auto. intros _. apply (in_map fst) in I. exact I.
    + intros _. apply dict_get_In; auto.
  - apply Nat.ltb_ge in L. split; [|lia]. split; [|lia].
    intros H. exfalso. rewrite extract_sections_cases in H.
    assert (H' : In (h_name h) (keys (kept_sections t))).
    { destruct (kept_sections t); auto. simpl in H. destruct H as [H|[]].
      apply full_text_not_canonical. rewrite H. exact Hcanon. }
    rewrite K in H'. unfold keys in H'. rewrite !map_app in H'. simpl in H'.
    apply in_app_or in H'. destruct H' as [H'|H']; auto.
Qed.

(** C10. The result is never empty: whenever the loop kept nothing, also
    when headings were found and every section was too short, the whole
    text comes back as the section [全文]. *)
Theorem catch_all_when_nothing_kept (t : text) :
  _extract_sections t <> [] /\
  (kept_sections t = [] -> _extract_sections t = [(FULL_TEXT, t)]).
Proof.
  rewrite extract_sections_cases.
  destruct (kept_sections t); split; intros; congruence.
Qed.

Lemma no_heading_fallback_witness :
  _extract_sections plain_document = [(FULL_TEXT, plain_document)].
Proof.
  apply (no_heading_fallback plain_document). vm_compute. reflexivity.
Defined.

Lemma section_kept_iff_witness :
  In RATIONALE (keys (_extract_sections sample_document)) /\
  dict_get RATIONALE (_extract_sections sample_document)
    = Some (u "研究背景与意义：" ++ repeat 97%N 60).
Proof.
  pose (h := mkHeading 12 RATIONALE (u "一、立项依据")).
  pose (next := [mkHeading 88 CONTENT (u "二、研究内容")]).
  assert (E : section_positions sample_document = [] ++ h :: next).
  { vm_compute. reflexivity. }
  assert (L : 50 < length (section_content sample_document h next)).
  { apply Nat.ltb_lt. vm_compute. reflexivity. }
  destruct (section_kept_iff sample_document [] h next E) as [H1 H2].
  split.
  - apply H1. exact L.
  - etransitivity; [exact (H2 L) | vm_compute; reflexivity].
Defined.

(** C9, as the claim states it, fails: content of exactly fifty characters
    is discarded. *)
Lemma fifty_characters_discarded :
  ~ (forall t before h next,
       section_positions t = before ++ h :: next ->
       (In (h_name h) (keys (_extract_sections t))
          <-> 50 <= length (section_content t h next))).
Proof.
  intros H.
  pose (h := mkHeading 0 RATIONALE (u "一、立项依据")).
  assert (E : section_positions fifty_document = [] ++ h :: []).
  { vm_compute. reflexivity. }
  assert (L : 50 <= length (section_content fifty_document h [])).
  { apply Nat.leb_le. vm_compute. reflexivity. }
  apply (H fifty_document [] h [] E) in L.
  assert (X : _extract_sections fifty_document = [(FULL_TEXT, fifty_document)]).
  { vm_compute. reflexivity. }
  rewrite X in L. simpl in L. destruct L as [L|[]].
  apply (f_equal (@length char)) in L. vm_compute in L. discriminate L.
Qed.

Lemma catch_all_when_nothing_kept_witness :
  section_positions short_document <> [] /\
  _extract_sections short_document = [(FULL_TEXT, short_document)].
Proof.
  split.
  - vm_compute. discriminate.
  - apply (proj2 (catch_all_when_nothing_kept short_document)).
    vm_compute. reflexivity.
Defined.

(** * The assembler *)

Section AssemblerFacts.

Lemma canonical_lines_emitted (results : dict ReviewResult) : forall order,
  canonical_lines order results =
  flat_map (fun '(name, result) => section_lines name result)
    (flat_map (fun name =>
                 match dict_get name results with
                 | Some result => [(name, result)]
                 | None => []
                 end) order).
Proof.
  induction order as [|name order IH]; simpl; auto.
  rewrite flat_map_app, IH.
  destruct (dict_get name results); simpl; rewrite ?app_nil_r; reflexivity.
Qed.

Lemma other_lines_emitted (results : dict ReviewResult) :
  other_lines results =
  flat_map (fun '(name, result) => section_lines name result)
    (filter (fun '(name, _) => negb (canonical name)) results).
Proof.
  unfold other_lines, canonical.
  induction results as [|[name r] results IH]; [reflexivity|].
  cbn [flat_map filter].
  destruct (existsb (Py.eqb name) section_order);
    cbn [negb flat_map app]; rewrite IH; reflexivity.
Qed.

Lemma canonical_In name : canonical name = true <-> In name section_order.
Proof.
  unfold canonical. rewrite existsb_exists. split.
  - intros (x & Hx & E). apply eqb_spec in E. subst; auto.
  - intros H. exists name. split; auto. apply eqb_refl.
Qed.

Lemma NoDup_keys {V} (d : dict V) : NoDup (keys d) -> NoDup d.
Proof.
  induction d as [|[k v] d IH]; simpl; intros N; constructor;
    inversion N; subst; auto.
  intros H. apply (in_map fst) in H. auto.
Qed.

Lemma lookups_in (results : dict ReviewResult) (name : text) (r : ReviewResult) : forall order,
  In (name, r)
     (flat_map (fun n => match dict_get n results with
                         | Some result => [(n, result)]
                         | None => []
                         end) order)
  <-> In name order /\ dict_get name results = Some r.
Proof.
  induction order as [|n order IH]; simpl.
  - tauto.
  - rewrite in_app_iff, IH. split.
    + intros [H|H]; [|tauto].
      destruct (dict_get n results) eqn:E; simpl in H; [|tauto].
      destruct H as [H|[]]. injection H as -> ->. auto.
    + intros [[->|H] E]; auto. left. rewrite E. simpl; auto.
Qed.

Lemma lookups_nodup (results : dict ReviewResult) : forall order,
  NoDup order ->
  NoDup (flat_map (fun n => match dict_get n results with
                            | Some result => [(n, result)]
                            | None => []
                            end) order).
Proof.
  induction order as [|n order IH]; simpl; intros N; [constructor|].
  inversion N; subst.
  destruct (dict_get n results) eqn:E; simpl; auto.
  constructor; auto. rewrite lookups_in. tauto.
Qed.

(** The sections emitted are those of the mapping, each once. *)
Lemma emitted_perm (results : dict ReviewResult) :
  NoDup (keys results) -> Permutation (emitted results) results.
Proof.
  intros N. pose proof (NoDup_keys _ N) as N'.
  apply NoDup_Permutation; auto.
  - unfold emitted. apply NoDup_app.
    + apply lookups_nodup, section_order_nodup.
    + apply NoDup_filter; auto.
    + intros [n r] H1 H2. apply lookups_in in H1. destruct H1 as [H1 _].
      apply filter_In in H2. destruct H2 as [_ H2].
      apply negb_true_iff in H2. apply canonical_In in H1. congruence.
  - intros [n r]. unfold emitted. rewrite in_app_iff, lookups_in, filter_In.
    rewrite dict_get_In by auto. rewrite negb_true_iff.
    rewrite <- canonical_In. destruct (canonical n); intuition congruence.
Qed.

Lemma dict_get_perm (a b : dict ReviewResult) (name : text) :
  NoDup (keys a) -> NoDup (keys b) -> Permutation a b ->
  dict_get name a = dict_get name b.
Proof.
  intros Na Nb P.
  destruct (dict_get name a) as [r|] eqn:Ea.
  - symmetry. apply dict_get_In; auto. apply dict_get_In in Ea; auto.
    eapply Permutation_in; eauto.
  - destruct (dict_get name b) as [r|] eqn:Eb; auto.
    apply dict_get_In in Eb; auto.
    apply Permutation_sym in P. apply (Permutation_in _ P) in Eb.
    apply dict_get_In in Eb; auto. congruence.
Qed.

End AssemblerFacts.

(** The revised proposal in terms of the lines of its sections. *)
Lemma revised_proposal_order (results results' : dict ReviewResult) :
  NoDup (keys results) -> NoDup (keys results') ->
  Permutation results results' ->
  generate_revised_proposal results =
    join [LF]
      ([ u "# 国自然科学基金申请书（修改版）" ++ [LF]; u "---" ++ [LF] ]
       ++ flat_map (fun '(name, result) => section_lines name result)
                   (emitted results)) /\
  keys (emitted results) =
    filter (fun name => dict_mem name results) section_order
    ++ filter (fun name => negb (canonical name)) (keys results) /\
  Permutation (emitted results) results /\
  (filter (fun '(name, _) => negb (canonical name)) results
     = filter (fun '(name, _) => negb (canonical name)) results' ->
   generate_revised_proposal results = generate_revised_proposal results').
Proof.
  intros N N' P.
  assert (G : forall d, generate_revised_proposal d =
    join [LF]
      ([ u "# 国自然科学基金申请书（修改版）" ++ [LF]; u "---" ++ [LF] ]
       ++ flat_map (fun '(name, result) => section_lines name result)
                   (emitted d))).
  { intros d. unfold generate_revised_proposal, emitted.
    rewrite canonical_lines_emitted, other_lines_emitted, flat_map_app.
    reflexivity. }
  split; [apply G|]. split; [|split; [apply emitted_perm; auto|]].
  - unfold emitted, keys. rewrite map_app. f_equal.
    + unfold dict_mem. induction section_order as [|n l IH]; simpl; auto.
      rewrite map_app, IH. destruct (dict_get n results); reflexivity.
    + clear. induction results as [|[n r] d IH]; [reflexivity|].
      cbn [filter map fst]. destruct (canonical n); cbn [negb map fst];
        rewrite IH; reflexivity.
  - intros E. rewrite !G. unfold emitted. rewrite E.
    assert (L : forall order,
      flat_map (fun n => match dict_get n results with
                         | Some result => [(n, result)]
                         | None => []
                         end) order =
      flat_map (fun n => match dict_get n results' with
                         | Some result => [(n, result)]
                         | None => []
                         end) order).
    { induction order as [|n l IH]; simpl; auto.
      rewrite IH, (dict_get_perm results results' n); auto. }
    rewrite L. reflexivity.
Qed.


(** * Rule-based review *)

Section RuleFacts.

Lemma criteria_cases (name : text) :
  In (criteria_for name) (map snd REVIEW_CRITERIA).
Proof.
  unfold criteria_for.
  assert (G : forall d : dict Criteria,
            match dict_get name d with
            | Some c => In c (map snd d)
            | None => True
            end).
  { induction d as [|[k c] d IH]; simpl; auto.
    destruct (Py.eqb k name); auto.
    destruct (dict_get name d); auto. }
  specialize (G REVIEW_CRITERIA).
  destruct (dict_get name REVIEW_CRITERIA); [exact G|].
  left. vm_compute. reflexivity.
Qed.

Lemma keywords_bound (name : text) :
  length (keywords (criteria_for name)) <= 6.
Proof.
  assert (A : forall c, In c (map snd REVIEW_CRITERIA) ->
                        length (keywords c) <= 6).
  { intros c Hc. unfold REVIEW_CRITERIA in Hc. cbn [map snd In] in Hc.
    repeat (destruct Hc as [<-|Hc]; [apply Nat.leb_le; vm_compute; reflexivity|]).
    destruct Hc. }
  apply A, criteria_cases.
Qed.

Lemma missing_bound (name content : text) :
  length (missing_keywords (criteria_for name) content) <= 6.
Proof.
  unfold missing_keywords.
  etransitivity; [apply filter_length_le | apply keywords_bound].
Qed.

Lemma rule_based_unfold (name content : text) :
  _review_rule_based name content =
  mkReviewResult name content
    (or_placeholder (r_issues (rule_checks name content)) (u "内容基本符合要求"))
    (or_placeholder (r_suggestions (rule_checks name content))
                    (u "可进一步优化细节"))
    content
    (Z.max 1 (Z.min 10 (int_of_number (r_score (rule_checks name content))))).
Proof. reflexivity. Qed.

Ltac rule_cases name content :=
  destruct (length content <? 500), (found STRUCTURE_RE content),
    (Py.eqb name RATIONALE), (found CITATION_RE content);
  cbv [report r_score r_issues r_suggestions penalty andb negb length app].

Lemma rule_score_spec (name content : text) :
  score (_review_rule_based name content) = spec_rule_score name content /\
  score (_review_rule_based name content)
    = (half_points name content / 2)%Z.
Proof.
  rewrite rule_based_unfold. cbn [score].
  unfold spec_rule_score, half_points, rule_checks.
  unfold check_citations, check_structure, check_keywords, check_length.
  pose proof (missing_bound name content) as B.
  destruct (missing_keywords (criteria_for name) content) as [|k1 l].
  { rule_cases name content; split; vm_compute; reflexivity. }
  do 6 (destruct l as [|? l];
    [ rule_cases name content; split; vm_compute; reflexivity | ]).
  simpl in B. lia.
Qed.

Lemma rule_issues_spec (name content : text) :
  r_issues (rule_checks name content) = spec_rule_issues name content.
Proof.
  unfold spec_rule_issues, rule_checks.
  unfold check_citations, check_structure, check_keywords, check_length.
  destruct (missing_keywords (criteria_for name) content) as [|k1 l];
    rule_cases name content; reflexivity.
Qed.

Lemma rule_lists_together (name content : text) :
  length (r_issues (rule_checks name content))
  = length (r_suggestions (rule_checks name content)).
Proof.
  unfold rule_checks.
  unfold check_citations, check_structure, check_keywords, check_length.
  destruct (missing_keywords (criteria_for name) content) as [|k1 l];
    rule_cases name content; reflexivity.
Qed.

End RuleFacts.


(** * Review results *)

Section ReviewFacts.
Variable maxd : nat.
Variable G : Type.

Lemma or_placeholder_nonempty (xs : list text) (p : text) :
  or_placeholder xs p <> [].
Proof. destruct xs; discriminate. Qed.

(** What every parsed response looks like. *)
Lemma parse_fields (name original response : text) (r : ReviewResult) :
  _parse_review_response maxd name original response = inr r ->
  exists s found_issues found_suggestions revised,
    numbered_items ISSUES_RE response = inr found_issues /\
    numbered_items SUGGESTIONS_RE response = inr found_suggestions /\
    r = mkReviewResult name original
          (or_placeholder found_issues (u "未能提取具体问题"))
          (or_placeholder found_suggestions (u "未能提取具体建议"))
          revised (Z.min 10 (Z.max 1 s)).
Proof.
  unfold _parse_review_response.
  destruct (match search SCORE_RE response with
            | Some x => _ | None => _ end) as [e|s]; try discriminate.
  destruct (numbered_items ISSUES_RE response) as [e|i]; try discriminate.
  destruct (numbered_items SUGGESTIONS_RE response) as [e|g]; try discriminate.
  destruct (match search REVISED_RE response with
            | Some x => _ | None => _ end) as [e|v]; try discriminate.
  intros H. injection H as <-. exists s, i, g, v. auto.
Qed.

Lemma parse_score_clamped (name original response : text) :
  match _parse_review_response maxd name original response with
  | inr r => (1 <= score r <= 10)%Z
  | inl _ => True
  end.
Proof.
  destruct (_parse_review_response maxd name original response) as [e|r] eqn:E;
    auto.
  apply parse_fields in E. destruct E as (s & i & g & v & _ & _ & ->).
  cbn [score]. lia.
Qed.

Lemma rule_score_clamped (name content : text) :
  (1 <= score (_review_rule_based name content) <= 10)%Z.
Proof. rewrite rule_based_unfold. cbn [score]. lia. Qed.

(** A model-backed review ends with the parsed response or with the
    rule-based result. *)
Lemma review_with_model_cases (gen : Generator G) (name content : text)
    (w : world G) :
  fst (_review_with_model maxd gen name content w)
    = _review_rule_based name content \/
  exists response,
    _parse_review_response maxd name content response
      = inr (fst (_review_with_model maxd gen name content w)).
Proof.
  unfold _review_with_model.
  destruct (gen (review_prompt name content) SYSTEM_PROMPT (backend w))
    as [[e|response] g]; auto.
  destruct (_parse_review_response maxd name content response) as [e|r] eqn:E;
    auto.
  right. exists response. exact E.
Qed.

Lemma review_section_cases (generator : option (Generator G))
    (name content : text) (use_model : bool) (w : world G) :
  fst (review_section maxd generator name content use_model w)
    = _review_rule_based name content \/
  exists response,
    _parse_review_response maxd name content response
      = inr (fst (review_section maxd generator name content use_model w)).
Proof.
  unfold review_section.
  destruct use_model, generator as [gen|]; auto.
  apply review_with_model_cases.
Qed.

End ReviewFacts.

(** C3. Whatever the section, the content and the answer of the model, the
    score of a review lies between 1 and 10, in model-backed and in
    rule-based mode; so does the score of every parsed response and of
    every rule-based review, where the clamp is the last step. *)
Theorem score_clamped (maxd : nat) (G : Type)
    (generator : option (Generator G)) (name content : text)
    (use_model : bool) (w : world G) (response : text) :
  (1 <= score (fst (review_section maxd generator name content use_model w))
     <= 10)%Z /\
  (1 <= score (_review_rule_based name content) <= 10)%Z /\
  match _parse_review_response maxd name content response with
  | inr r => (1 <= score r <= 10)%Z
  | inl _ => True
  end.
Proof.
  split; [|split; [apply rule_score_clamped | apply parse_score_clamped]].
  destruct (review_section_cases maxd G generator name content use_model w)
    as [E|(resp & E)].
  - rewrite E. apply rule_score_clamped.
  - pose proof (parse_score_clamped maxd name content resp) as H.
    rewrite E in H. exact H.
Qed.

(** C7. The issues and the suggestions of a review are never empty.  The
    rule-based review that found nothing to report holds the placeholders
    内容基本符合要求 and 可进一步优化细节; a parsed response from which no
    numbered item could be extracted holds 未能提取具体问题 and
    未能提取具体建议. *)
Theorem issues_and_suggestions_nonempty (maxd : nat) (G : Type)
    (generator : option (Generator G)) (name content : text)
    (use_model : bool) (w : world G) :
  let r := fst (review_section maxd generator name content use_model w) in
  issues r <> [] /\ suggestions r <> [] /\
  (r_issues (rule_checks name content) = [] ->
   issues (_review_rule_based name content) = [u "内容基本符合要求"] /\
   suggestions (_review_rule_based name content) = [u "可进一步优化细节"]) /\
  (forall response r',
     _parse_review_response maxd name content response = inr r' ->
     issues r' <> [] /\ suggestions r' <> [] /\
     (numbered_items ISSUES_RE response = inr [] ->
      issues r' = [u "未能提取具体问题"]) /\
     (numbered_items SUGGESTIONS_RE response = inr [] ->
      suggestions r' = [u "未能提取具体建议"])).
Proof.
  assert (P : forall response r',
     _parse_review_response maxd name content response = inr r' ->
     issues r' <> [] /\ suggestions r' <> [] /\
     (numbered_items ISSUES_RE response = inr [] ->
      issues r' = [u "未能提取具体问题"]) /\
     (numbered_items SUGGESTIONS_RE response = inr [] ->
      suggestions r' = [u "未能提取具体建议"])).
  { intros response r' E. apply parse_fields in E.
    destruct E as (s & i & g & v & Ei & Eg & ->). cbn [issues suggestions].
    repeat split; try apply or_placeholder_nonempty.
    - intros H. rewrite Ei in H. injection H as ->. reflexivity.
    - intros H. rewrite Eg in H. injection H as ->. reflexivity. }
  assert (R : issues (_review_rule_based name content) <> [] /\
              suggestions (_review_rule_based name content) <> []).
  { rewrite rule_based_unfold. cbn [issues suggestions].
    split; apply or_placeholder_nonempty. }
  assert (Q : r_issues (rule_checks name content) = [] ->
     issues (_review_rule_based name content) = [u "内容基本符合要求"] /\
     suggestions (_review_rule_based name content) = [u "可进一步优化细节"]).
  { intros H. rewrite rule_based_unfold. cbn [issues suggestions].
    pose proof (rule_lists_together name content) as L. rewrite H in *.
    destruct (r_suggestions (rule_checks name content));
      [split; reflexivity | discriminate]. }
  intros r. subst r.
  destruct (review_section_cases maxd G generator name content use_model w)
    as [E|(resp & E)].
  - rewrite E. destruct R. auto.
  - destruct (P _ _ E) as (A & B & _). auto.
Qed.

Lemma issues_and_suggestions_nonempty_witness :
  issues (_review_rule_based RATIONALE sound_rationale) = [u "内容基本符合要求"] /\
  exists r,
    _parse_review_response 4300 RATIONALE sound_rationale garbled_response
      = inr r /\
    issues r = [u "未能提取具体问题"] /\
    suggestions r = [u "未能提取具体建议"].
Proof.
  destruct (issues_and_suggestions_nonempty 4300 unit None RATIONALE
              sound_rationale false (mkWorld tt []))
    as (_ & _ & Hr & Hp).
  split.
  - destruct Hr as [Hr _]; [vm_compute; reflexivity | exact Hr].
  - destruct (_parse_review_response 4300 RATIONALE sound_rationale
                garbled_response) as [e|r] eqn:E.
    { vm_compute in E. discriminate E. }
    exists r. split; [reflexivity|].
    destruct (Hp garbled_response r E) as (_ & _ & Hi & Hs).
    split; [apply Hi | apply Hs]; vm_compute; reflexivity.
Defined.

(** * Reviewing a batch *)

Section BatchFacts.
Variable maxd : nat.
Variable G : Type.
Variable generator : option (Generator G).

Lemma grows_refl (w : world G) : grows w w.
Proof. exists []. rewrite app_nil_r. reflexivity. Qed.

Lemma grows_trans (a b c : world G) : grows a b -> grows b c -> grows a c.
Proof.
  intros [l1 E1] [l2 E2]. exists (l1 ++ l2).
  rewrite E2, E1, app_assoc. reflexivity.
Qed.

Lemma grows_print (line : text) (w : world G) : grows w (print line w).
Proof. exists [line]. reflexivity. Qed.

Lemma grows_In (line : text) (w w' : world G) :
  grows w w' -> In line (stdout w) -> In line (stdout w').
Proof. intros [l E] H. rewrite E. apply in_or_app. auto. Qed.

(** A backend that raises leaves the rule-based review of the section and
    one line on the standard output. *)
Lemma review_with_model_raises (gen : Generator G) (name content : text)
    (w : world G) (e : exn) (g : G) :
  gen (review_prompt name content) SYSTEM_PROMPT (backend w) = (inl e, g) ->
  _review_with_model maxd gen name content w =
  (_review_rule_based name content,
   print (u "模型审阅失败: " ++ str_of_exn e) (mkWorld g (stdout w))).
Proof. intros H. unfold _review_with_model. rewrite H. reflexivity. Qed.

Lemma review_with_model_grows (gen : Generator G) (name content : text)
    (w : world G) :
  grows w (snd (_review_with_model maxd gen name content w)).
Proof.
  unfold _review_with_model.
  destruct (gen (review_prompt name content) SYSTEM_PROMPT (backend w))
    as [[e|response] g].
  - apply (grows_print _ (mkWorld g (stdout w))).
  - destruct (_parse_review_response maxd name content response).
    + apply (grows_print _ (mkWorld g (stdout w))).
    + apply (grows_refl (mkWorld g (stdout w))).
Qed.

Lemma review_section_grows (name content : text) (use_model : bool)
    (w : world G) :
  grows w (snd (review_section maxd generator name content use_model w)).
Proof.
  unfold review_section. destruct use_model, generator as [gen|];
    try apply grows_refl.
  apply review_with_model_grows.
Qed.

Lemma review_one_unfold (name content : text) (use_model : bool)
    (w : world G) :
  review_one maxd generator name content use_model w =
  (fst (review_section maxd generator name content use_model
          (print (u "正在审阅: " ++ name ++ u "...") w)),
   print (u "✓ " ++ name ++ u " 评分: "
            ++ str_of_Z
                 (score (fst (review_section maxd generator name content
                                use_model
                                (print (u "正在审阅: " ++ name ++ u "...") w))))
            ++ u "/10")
         (snd (review_section maxd generator name content use_model
                 (print (u "正在审阅: " ++ name ++ u "...") w)))).
Proof.
  unfold review_one.
  destruct (review_section maxd generator name content use_model
              (print (u "正在审阅: " ++ name ++ u "...") w)); reflexivity.
Qed.

Lemma review_one_grows (name content : text) (use_model : bool)
    (w : world G) :
  grows w (snd (review_one maxd generator name content use_model w)).
Proof.
  rewrite review_one_unfold. cbn [snd].
  eapply grows_trans; [apply grows_print|].
  eapply grows_trans; [apply review_section_grows|]. apply grows_print.
Qed.

Lemma review_each_cons (name content : text) (sections : dict text)
    (use_model : bool) (w : world G) :
  review_each maxd generator ((name, content) :: sections) use_model w =
  ((name, fst (review_one maxd generator name content use_model w))
     :: fst (review_each maxd generator sections use_model
               (snd (review_one maxd generator name content use_model w))),
   snd (review_each maxd generator sections use_model
          (snd (review_one maxd generator name content use_model w)))).
Proof.
  cbn [review_each].
  destruct (review_one maxd generator name content use_model w) as [r w1].
  cbn [fst snd].
  destruct (review_each maxd generator sections use_model w1); reflexivity.
Qed.

Lemma review_each_grows : forall (sections : dict text) (use_model : bool)
    (w : world G),
  grows w (snd (review_each maxd generator sections use_model w)).
Proof.
  induction sections as [|[name content] sections IH]; intros um w.
  - apply grows_refl.
  - rewrite review_each_cons. cbn [snd].
    eapply grows_trans; [apply review_one_grows | apply IH].
Qed.

Lemma review_each_keys : forall (sections : dict text) (use_model : bool)
    (w : world G),
  keys (fst (review_each maxd generator sections use_model w)) = keys sections.
Proof.
  induction sections as [|[name content] sections IH]; intros um w; auto.
  rewrite review_each_cons. cbn [fst keys map]. f_equal. apply IH.
Qed.

Lemma review_each_app : forall (a b : dict text) (use_model : bool)
    (w : world G),
  review_each maxd generator (a ++ b) use_model w =
  (fst (review_each maxd generator a use_model w)
     ++ fst (review_each maxd generator b use_model
               (snd (review_each maxd generator a use_model w))),
   snd (review_each maxd generator b use_model
          (snd (review_each maxd generator a use_model w)))).
Proof.
  induction a as [|[name content] a IH]; intros b um w.
  - cbn [app review_each fst snd].
    destruct (review_each maxd generator b um w); reflexivity.
  - rewrite <- app_comm_cons, !review_each_cons, IH. reflexivity.
Qed.

(** The loop of [review_full_proposal] over sections with distinct names
    appends one result per section. *)
Lemma review_loop_each : forall (sections : dict text) (use_model : bool)
    (results : dict ReviewResult) (w : world G),
  NoDup (keys sections) ->
  (forall k, In k (keys sections) -> ~ In k (keys results)) ->
  review_loop maxd generator sections use_model results w =
  (results ++ fst (review_each maxd generator sections use_model w),
   snd (review_each maxd generator sections use_model w)).
Proof.
  induction sections as [|[name content] sections IH]; intros um results w N F.
  - cbn [review_loop review_each fst snd]. rewrite app_nil_r. reflexivity.
  - rewrite review_each_cons. cbn [review_loop fst snd].
    rewrite review_one_unfold. cbn [fst snd].
    destruct (review_section maxd generator name content um
                (print (u "正在审阅: " ++ name ++ u "...") w)) as [r w1].
    cbn [fst snd].
    inversion N as [|? ? N1 N2]; subst.
    rewrite dict_set_fresh by (apply F; simpl; auto).
    rewrite IH; auto.
    + rewrite <- app_assoc. reflexivity.
    + intros k Hk. unfold keys. rewrite map_app, in_app_iff. simpl.
      intros [H|[H|[]]].
      * apply (F k); simpl; auto.
      * subst k. auto.
Qed.

Lemma filter_keys_nodup (l : dict text) :
  NoDup (keys l) -> NoDup (keys (filter long_enough l)).
Proof.
  induction l as [|[n c] l IH]; simpl; intros Hl; [constructor|].
  inversion Hl; subst. destruct (long_enough (n, c)); simpl; auto.
  constructor; auto. intros H. apply in_map_iff in H.
  destruct H as ([n' c'] & Hn & H). apply filter_In in H. simpl in Hn.
  subst n'. destruct H as [H _]. apply (in_map fst) in H. auto.
Qed.

Lemma extract_sections_nodup (t : text) : NoDup (keys (_extract_sections t)).
Proof.
  rewrite extract_sections_cases.
  assert (K : NoDup (keys (kept_sections t))).
  { rewrite kept_sections_filter. apply filter_keys_nodup.
    unfold keys. rewrite candidates_names. apply section_positions_names. }
  destruct (kept_sections t); auto.
  repeat constructor. simpl. tauto.
Qed.

Lemma parse_proposal_nodup splitext lower pdf docx (file_path : text)
    (sections : dict text) :
  parse_proposal splitext lower pdf docx file_path = inr sections ->
  NoDup (keys sections).
Proof.
  unfold parse_proposal.
  destruct (if Py.eqb _ _ then _ else _) as [e|c]; try discriminate.
  intros H. injection H as <-. apply extract_sections_nodup.
Qed.

Lemma dict_get_middle {V} (a b : dict V) (k : text) (v : V) :
  ~ In k (keys a) -> dict_get k (a ++ (k, v) :: b) = Some v.
Proof.
  induction a as [|[k' v'] a IH]; simpl; intros H.
  - rewrite eqb_refl. reflexivity.
  - destruct (Py.eqb k' k) eqn:E.
    + apply eqb_spec in E. tauto.
    + apply IH. tauto.
Qed.

End BatchFacts.

(** C5. Once the document is parsed, the review of the whole proposal
    returns a mapping with one result under the name of each section, in
    the order of the sections.  The result of a section is the review of
    that section alone, made in the state that the sections before it left.
    When the backend raises on the prompt of a section, its result is the
    rule-based review of the section, the failure is a line on the standard
    output, and nothing is raised. *)
Theorem generation_failures_isolated (maxd : nat) (G : Type)
    (generator : option (Generator G))
    (splitext : text -> text * text) (lower : text -> text)
    (pdf_parser docx_parser : text -> exn + LiteratureContent)
    (file_path : text) (use_model : bool) (w : world G)
    (sections : dict text) :
  parse_proposal splitext lower pdf_parser docx_parser file_path
    = inr sections ->
  exists results w',
    review_full_proposal maxd generator splitext lower pdf_parser docx_parser
      file_path use_model w = (inr results, w') /\
    keys results = keys sections /\
    forall before name content after,
      sections = before ++ (name, content) :: after ->
      let w0 := print (u "正在审阅: " ++ name ++ u "...")
                  (snd (review_each maxd generator before use_model w)) in
      dict_get name results
        = Some (fst (review_section maxd generator name content use_model w0))
      /\
      forall gen e g,
        generator = Some gen -> use_model = true ->
        gen (review_prompt name content) SYSTEM_PROMPT (backend w0)
          = (inl e, g) ->
        dict_get name results = Some (_review_rule_based name content) /\
        In (u "模型审阅失败: " ++ str_of_exn e) (stdout w').
Proof.
  intros P.
  pose proof (parse_proposal_nodup _ _ _ _ _ _ P) as N.
  exists (fst (review_each maxd generator sections use_model w)),
         (snd (review_each maxd generator sections use_model w)).
  split.
  { unfold review_full_proposal. rewrite P.
    rewrite (review_loop_each maxd G generator sections use_model [] w N)
      by (intros k _ []).
    reflexivity. }
  split; [apply review_each_keys|].
  intros before name content after E w0.
  assert (D : dict_get name
                (fst (review_each maxd generator sections use_model w))
              = Some (fst (review_section maxd generator name content
                             use_model w0))).
  { rewrite E, review_each_app, review_each_cons. cbn [fst].
    rewrite review_one_unfold. cbn [fst].
    apply dict_get_middle. rewrite review_each_keys.
    rewrite E in N. unfold keys in N. rewrite map_app in N. simpl in N.
    apply NoDup_remove_2 in N. intros H. apply N, in_or_app. auto. }
  split; [exact D|].
  intros gen e g -> -> R.
  pose proof (review_with_model_raises maxd G gen name content w0 e g R) as F.
  assert (S : review_section maxd (Some gen) name content true w0
              = (_review_rule_based name content,
                 print (u "模型审阅失败: " ++ str_of_exn e)
                       (mkWorld g (stdout w0)))) by exact F.
  split.
  - rewrite D, S. reflexivity.
  - rewrite E, review_each_app, review_each_cons. cbn [snd].
    eapply grows_In; [apply review_each_grows|].
    rewrite review_one_unfold. cbn [snd]. fold w0. rewrite S. cbn [snd fst].
    eapply grows_In; [apply grows_print|].
    cbn [print stdout]. apply in_or_app. right. simpl. auto.
Qed.

Lemma generation_failures_isolated_witness :
  exists results w',
    review_full_proposal 4300 (Some flaky_backend) sample_splitext
      sample_lower sample_pdf_parser sample_docx_parser (u "proposal.PDF")
      true (mkWorld 0 []) = (inr results, w') /\
    keys results = [RATIONALE; CONTENT; PLAN] /\
    dict_get CONTENT results
      = Some (_review_rule_based CONTENT (repeat 98%N 60)) /\
    In (u "模型审阅失败: Ollama调用失败") (stdout w').
Proof.
  pose (sections := [ (RATIONALE, repeat 97%N 60);
                      (CONTENT, repeat 98%N 60);
                      (PLAN, repeat 99%N 60) ]).
  assert (P : parse_proposal sample_splitext sample_lower sample_pdf_parser
                sample_docx_parser (u "proposal.PDF") = inr sections).
  { vm_compute. reflexivity. }
  destruct (generation_failures_isolated 4300 nat (Some flaky_backend)
              sample_splitext sample_lower sample_pdf_parser
              sample_docx_parser (u "proposal.PDF") true (mkWorld 0 [])
              sections P) as (results & w' & E & K & H).
  exists results, w'. split; [exact E|]. split; [exact K|].
  destruct (H [(RATIONALE, repeat 97%N 60)] CONTENT (repeat 98%N 60)
              [(PLAN, repeat 99%N 60)] eq_refl) as [_ F].
  refine (F flaky_backend (Exception_ (u "Ollama调用失败")) 2 eq_refl eq_refl _).
  vm_compute. reflexivity.
Defined.

(** * How the pattern of the revised content runs *)

Section RevisedFacts.

Lemma any_char (c : char) : in_cset ANY c = true.
Proof. unfold in_cset, ANY. simpl. destruct (isspace c); reflexivity. Qed.

Lemma lstrip_length (t : text) : length (lstrip t) <= length t.
Proof.
  induction t as [|c t IH]; simpl; auto.
  destruct (isspace c); simpl; lia.
Qed.

Lemma drop_colon_length (t : text) : length (drop_colon t) <= length t.
Proof.
  destruct t as [|c t]; cbn [drop_colon length]; auto.
  destruct (in_cset COLONS c); cbn [length]; lia.
Qed.

Lemma skipn_lstrip (t : text) :
  skipn (length t - length (lstrip t)) t = lstrip t.
Proof.
  induction t as [|c t IH]; [reflexivity|].
  cbn [lstrip]. destruct (isspace c) eqn:E.
  - pose proof (lstrip_length t). cbn [length].
    replace (S (length t) - length (lstrip t))
      with (S (length t - length (lstrip t))) by lia.
    cbn [skipn]. exact IH.
  - rewrite Nat.sub_diag. reflexivity.
Qed.

Lemma skipn_drop_colon (t : text) :
  skipn (length t - length (drop_colon t)) t = drop_colon t.
Proof.
  destruct t as [|c t]; cbn [drop_colon length]; auto.
  destruct (in_cset COLONS c); cbn [length].
  - replace (S (length t) - length t) with 1 by lia. reflexivity.
  - rewrite Nat.sub_diag. reflexivity.
Qed.

(** [[\s\S]*?] before [$] stops at the end of the text, or before the
    line feed that ends it. *)
Lemma rep_lazy_eol (p0 : nat) : forall t n p g,
  rep_lazy ANY 0 None
    (fun s' => m Eol Some (St (pos s') (rest s') (Some (p0, pos s'))))
    n p t g
  = Some (St (p + length (eol_cut t)) (skipn (length (eol_cut t)) t)
             (Some (p0, p + length (eol_cut t)))).
Proof.
  induction t as [|c t IH]; intros n p g.
  - simpl. rewrite Nat.add_0_r. reflexivity.
  - cbn [rep_lazy]. rewrite any_char. cbn [below andb Nat.leb].
    rewrite IH. destruct t as [|d t].
    + cbn [m rest pos eol_cut]. destruct (c =? LF)%N.
      * simpl. rewrite Nat.add_0_r. reflexivity.
      * simpl. replace (p + 1) with (S p) by lia.
        rewrite Nat.add_0_r. reflexivity.
    + cbn [m rest pos orelse].
      change (eol_cut (c :: d :: t)) with (c :: eol_cut (d :: t)).
      cbn [length skipn].
      replace (p + S (length (eol_cut (d :: t))))
        with (S p + length (eol_cut (d :: t))) by lia.
      reflexivity.
Qed.

(** [\s*] takes all the white space when what follows can match after
    it. *)
Lemma rep_greedy_spaces (k : cont) (r : state) : forall t n p g,
  k (St (p + (length t - length (lstrip t))) (lstrip t) g) = Some r ->
  rep_greedy [Space] 0 None k n p t g = Some r.
Proof.
  induction t as [|c t IH]; intros n p g H.
  - simpl in *. rewrite Nat.add_0_r in H. exact H.
  - cbn [rep_greedy Nat.leb]. unfold in_cset. cbn [existsb in_citem below].
    cbn [lstrip] in H. destruct (isspace c) eqn:E.
    + cbn [orb andb]. rewrite (IH (S n) (S p) g); [reflexivity|].
      pose proof (lstrip_length t).
      replace (S p + (length t - length (lstrip t)))
        with (p + (length (c :: t) - length (lstrip t))) by (cbn [length]; lia).
      exact H.
    + cbn [orb andb]. rewrite Nat.sub_diag, Nat.add_0_r in H. exact H.
Qed.

(** [[：:]?] takes the colon when what follows can match after it. *)
Lemma rep_opt_colon (k : cont) (r : state) (t : text) (p : nat)
    (g : option (nat * nat)) :
  k (St (p + (length t - length (drop_colon t))) (drop_colon t) g) = Some r ->
  rep_greedy COLONS 0 (Some 1) k 0 p t g = Some r.
Proof.
  destruct t as [|c t]; intros H.
  - simpl in *. rewrite Nat.add_0_r in H. exact H.
  - cbn [rep_greedy Nat.leb below]. cbn [drop_colon] in H.
    destruct (in_cset COLONS c) eqn:E.
    + change (0 <? 1) with true. cbn [andb].
      assert (I : rep_greedy COLONS 0 (Some 1) k 1 (S p) t g = Some r).
      { replace (p + (length (c :: t) - length t)) with (S p) in H
          by (cbn [length]; lia).
        destruct t as [|d t]; cbn [rep_greedy Nat.leb below]; auto.
        change (1 <? 1) with false. rewrite andb_false_r. exact H. }
      rewrite I. reflexivity.
    + cbn [andb]. rewrite Nat.sub_diag, Nat.add_0_r in H. exact H.
Qed.

(** Where the first match of the pattern lies. *)
Lemma match_at_revised (p : nat) (t : text) :
  match_at REVISED_RE p t =
  if startswith REVISED_HEADING t
  then Some (Match p
               (p + (length t - length (revised_body t))
                  + length (eol_cut (revised_body t)))
               (Some (p + (length t - length (revised_body t)),
                      p + (length t - length (revised_body t))
                        + length (eol_cut (revised_body t)))))
  else None.
Proof.
  unfold match_at, REVISED_RE, seq, opt, star, star_lazy, revised_body,
    REVISED_HEADING.
  cbn [m pos rest grp].
  set (h := u "修改后的完整内容").
  destruct (startswith h t) eqn:E; [|reflexivity].
  set (t1 := skipn (length h) t).
  set (p1 := p + length h).
  set (t2 := drop_colon t1).
  set (t3 := lstrip t2).
  assert (L1 : length t = length h + length t1).
  { apply startswith_split in E. fold t1 in E. rewrite E at 1.
    apply length_app. }
  pose proof (drop_colon_length t1) as H2. pose proof (lstrip_length t2) as H3.
  fold t2 in H2. fold t3 in H3.
  assert (P3 : p + (length t - length t3)
               = p1 + (length t1 - length t2) + (length t2 - length t3)).
  { unfold p1. lia. }
  erewrite rep_opt_colon.
  2:{ fold t2. cbn [m pos rest grp]. apply rep_greedy_spaces.
      fold t3. cbn [m pos rest grp]. apply rep_lazy_eol. }
  cbn [pos grp]. rewrite P3. reflexivity.
Qed.

Lemma search_from_revised : forall (t : text) (p : nat),
  search_from REVISED_RE p t =
  match find REVISED_HEADING t with
  | Some i => match_at REVISED_RE (p + i) (skipn i t)
  | None => None
  end.
Proof.
  induction t as [|c t IH]; intros p.
  - cbn [search_from find]. rewrite match_at_revised.
    destruct (startswith REVISED_HEADING []) eqn:E.
    + replace (p + 0) with p by lia. cbn [skipn].
      rewrite match_at_revised, E. reflexivity.
    + reflexivity.
  - cbn [search_from find]. rewrite match_at_revised.
    destruct (startswith REVISED_HEADING (c :: t)) eqn:E.
    + replace (p + 0) with p by lia. cbn [skipn].
      rewrite match_at_revised, E. reflexivity.
    + rewrite IH. destruct (find REVISED_HEADING t) as [i|]; [|reflexivity].
      cbn [option_map skipn]. replace (p + S i) with (S p + i) by lia.
      reflexivity.
Qed.

Lemma find_bound (sub : text) : forall t i,
  find sub t = Some i -> i + length sub <= length t.
Proof.
  induction t as [|c t IH]; intros i; cbn [find].
  - destruct (startswith sub []) eqn:E; [|discriminate].
    intros H; injection H as <-. destruct sub; [simpl; lia | discriminate E].
  - destruct (startswith sub (c :: t)) eqn:E.
    + intros H; injection H as <-. apply startswith_split in E.
      apply (f_equal (@length char)) in E. rewrite length_app in E. simpl in *.
      lia.
    + destruct (find sub t) as [j|]; try discriminate.
      intros H; injection H as <-. specialize (IH j eq_refl). simpl. lia.
Qed.

Lemma eol_cut_prefix : forall t, firstn (length (eol_cut t)) t = eol_cut t.
Proof.
  induction t as [|c t IH]; auto.
  destruct t as [|d t].
  - simpl. destruct (c =? LF)%N; reflexivity.
  - change (eol_cut (c :: d :: t)) with (c :: eol_cut (d :: t)).
    cbn [length firstn]. f_equal. exact IH.
Qed.

Lemma eol_cut_cases : forall t, eol_cut t = t \/ t = eol_cut t ++ [LF].
Proof.
  induction t as [|c t IH]; auto.
  destruct t as [|d t].
  - simpl. destruct (c =? LF)%N eqn:E; auto.
    apply N.eqb_eq in E. subst. auto.
  - change (eol_cut (c :: d :: t)) with (c :: eol_cut (d :: t)).
    destruct IH as [IH|IH].
    + left. f_equal. exact IH.
    + right. simpl. f_equal. exact IH.
Qed.

Lemma strip_line_feed (t : text) : strip (t ++ [LF]) = strip t.
Proof.
  unfold strip. rewrite lstrip_app.
  destruct (lstrip t) as [|c t'] eqn:E.
  - reflexivity.
  - unfold rstrip. rewrite rev_app_distr. reflexivity.
Qed.

Lemma strip_eol_cut (t : text) : strip (eol_cut t) = strip t.
Proof.
  destruct (eol_cut_cases t) as [E|E].
  - rewrite E. reflexivity.
  - rewrite E at 2. symmetry. apply strip_line_feed.
Qed.

Lemma strip_lstrip (t : text) : strip (lstrip t) = strip t.
Proof. unfold strip. rewrite lstrip_idem. reflexivity. Qed.

(** The revised content that the parser reads off a response. *)
Lemma revised_content_spec (response : text) :
  match search REVISED_RE response with
  | Some x =>
    match group1_or_raise response x with
    | inr g => inr (strip g)
    | inl e => inl e
    end
  | None => inr response
  end = inr (spec_revised response).
Proof.
  unfold search, spec_revised. rewrite search_from_revised.
  destruct (find REVISED_HEADING response) as [i|] eqn:F; [|reflexivity].
  pose proof (find_bound _ _ _ F) as B.
  rewrite match_at_revised.
  assert (S : startswith REVISED_HEADING (skipn i response) = true).
  { clear B. revert i F. induction response as [|c t IH]; intros i; cbn [find].
    - destruct (startswith REVISED_HEADING []) eqn:E;
        [intros H; injection H as <-; exact E | discriminate].
    - destruct (startswith REVISED_HEADING (c :: t)) eqn:E.
      + intros H; injection H as <-. exact E.
      + destruct (find REVISED_HEADING t) as [j|]; try discriminate.
        intros H; injection H as <-. apply IH. reflexivity. }
  rewrite S. unfold group1_or_raise, group1. cbn [m_group1].
  set (t := skipn i response).
  set (body := revised_body t).
  assert (Lb : length body <= length t).
  { unfold body, revised_body.
    etransitivity; [apply lstrip_length|].
    etransitivity; [apply drop_colon_length|].
    rewrite length_skipn. lia. }
  assert (Lt : length t = length response - i).
  { unfold t. apply length_skipn. }
  assert (K : skipn (0 + i + (length t - length body)) response = body).
  { unfold body, revised_body.
    set (t1 := skipn (length REVISED_HEADING) t).
    set (t2 := drop_colon t1).
    pose proof (drop_colon_length t1). pose proof (lstrip_length t2).
    fold t2 in H.
    assert (L1 : length t1 = length t - length REVISED_HEADING).
    { unfold t1. apply length_skipn. }
    replace (0 + i + (length t - length (lstrip t2)))
      with ((length t2 - length (lstrip t2))
            + ((length t1 - length t2) + (length REVISED_HEADING + i)))
      by lia.
    rewrite <- !skipn_skipn. fold t. fold t1.
    unfold t2 at 2. rewrite skipn_drop_colon. fold t2.
    apply skipn_lstrip. }
  unfold slice.
  replace (0 + i + (length t - length body) + length (eol_cut body)
           - (0 + i + (length t - length body)))
    with (length (eol_cut body)) by lia.
  rewrite K, eol_cut_prefix, strip_eol_cut.
  unfold body, revised_body. rewrite strip_lstrip.
  unfold t. rewrite skipn_skipn. rewrite (Nat.add_comm i). reflexivity.
Qed.

End RevisedFacts.

(** * Parsing a response never fails on its format *)

Section ParseFacts.

Lemma Matches_Lit_inv l p w after g g' :
  Matches (Lit l) p w after g g' -> w = l /\ g' = g.
Proof. inversion 1; subst; auto. Qed.

Lemma Matches_One_inv cs p w after g g' :
  Matches (One cs) p w after g g' ->
  exists c, w = [c] /\ in_cset cs c = true /\ g' = g.
Proof. inversion 1; subst; eauto. Qed.

Lemma Matches_Cat_inv r1 r2 p w after g g2 :
  Matches (Cat r1 r2) p w after g g2 ->
  exists w1 w2 g1,
    w = w1 ++ w2 /\ Matches r1 p w1 (w2 ++ after) g g1 /\
    Matches r2 (p + length w1) w2 after g1 g2.
Proof. inversion 1; subst; eauto 7. Qed.

Lemma Matches_Rep_inv gr lo hi cs p w after g g' :
  Matches (Rep gr lo hi cs) p w after g g' ->
  forallb (in_cset cs) w = true /\ lo <= length w /\ g' = g.
Proof. inversion 1; subst; auto. Qed.

Lemma Matches_Group_inv r p w after g g' :
  Matches (Group r) p w after g g' ->
  g' = Some (p, p + length w) /\ exists g'', Matches r p w after g g''.
Proof. inversion 1; subst; eauto. Qed.

Lemma isdecimal_decimal (c : char) :
  isdecimal c = true -> exists d, decimal c = Some d.
Proof. unfold isdecimal. destruct (decimal c); [eauto | discriminate]. Qed.

Lemma digits_value_some : forall (ds : text) (acc : N),
  forallb isdecimal ds = true ->
  exists n,
    fold_left (fun acc c =>
                 match acc, decimal c with
                 | Some n, Some d => Some (n * 10 + d)%N
                 | _, _ => None
                 end) ds (Some acc) = Some n.
Proof.
  induction ds as [|c ds IH]; intros acc H; cbn [fold_left].
  - eauto.
  - cbn [forallb] in H. apply andb_true_iff in H. destruct H as [Hc H].
    destruct (isdecimal_decimal c Hc) as [d ->]. apply IH. exact H.
Qed.

(** [int] of a run of decimal digits within the limit is its value. *)
Lemma int_digits (maxd : nat) (ds : text) :
  ds <> [] -> forallb isdecimal ds = true ->
  maxd = 0 \/ length ds <= maxd ->
  exists n, digits_value ds = Some n /\ int maxd ds = inr (Z.of_N n).
Proof.
  intros NE D L.
  destruct (digits_value_some ds 0%N D) as [n Hn].
  exists n. split; [exact Hn|].
  unfold int. destruct ds as [|c ds]; [congruence|].
  change (digits_value (c :: ds)) with
    (fold_left (fun acc c =>
                 match acc, decimal c with
                 | Some n, Some d => Some (n * 10 + d)%N
                 | _, _ => None
                 end) (c :: ds) (Some 0%N)).
  rewrite Hn.
  assert (B : (0 <? maxd) && (maxd <? length (c :: ds)) = false).
  { destruct L as [->|L]; [reflexivity|].
    apply andb_false_iff. right. apply Nat.ltb_ge. exact L. }
  rewrite B. reflexivity.
Qed.

(** The score line found: group 1 is a run of decimal digits. *)
Lemma score_match_digits (response : text) (x : match_) :
  search SCORE_RE response = Some x ->
  exists ds,
    group1 response x = Some ds /\ ds <> [] /\ forallb isdecimal ds = true.
Proof.
  intros H. apply search_sound in H.
  destruct H as (pre & w & after & E & M & Hs & He).
  unfold SCORE_RE, seq, star, plus in M.
  apply Matches_Cat_inv in M. destruct M as (w1 & v1 & g1 & -> & M1 & M).
  apply Matches_Cat_inv in M. destruct M as (w2 & v2 & g2 & -> & M2 & M).
  apply Matches_Cat_inv in M. destruct M as (w3 & ds & g3 & -> & M3 & M).
  apply Matches_Group_inv in M. destruct M as (Hg & g4 & M').
  apply Matches_Rep_inv in M'. destruct M' as (D & L & _).
  exists ds. unfold group1. rewrite Hg.
  split; [|split].
  - f_equal. rewrite E.
    replace (length pre + length w1 + length w2 + length w3)
      with (length (pre ++ w1 ++ w2 ++ w3))
      by (rewrite !length_app; lia).
    replace (pre ++ (w1 ++ w2 ++ w3 ++ ds) ++ after)
      with ((pre ++ w1 ++ w2 ++ w3) ++ ds ++ after)
      by (rewrite <- !app_assoc; reflexivity).
    apply slice_app_at.
  - destruct ds; [simpl in L; lia | discriminate].
  - rewrite forallb_forall in *. intros c Hc. specialize (D c Hc).
    unfold in_cset in D. cbn [existsb in_citem] in D.
    rewrite orb_false_r in D. exact D.
Qed.

(** A match of a pattern that sets group 1 on every path has a group 1. *)
Lemma group_participates (r : regex) (response : text) (x : match_) :
  sets_group r = true -> search r response = Some x ->
  exists g, group1 response x = Some g.
Proof.
  intros S H. apply search_sound in H.
  destruct H as (pre & w & after & E & M & Hs & He).
  pose proof (Matches_group _ _ _ _ _ _ M S) as G.
  unfold group1. destruct (m_group1 x) as [[a b]|]; [eauto | congruence].
Qed.

Lemma numbered_items_total (r : regex) (response : text) :
  sets_group r = true -> exists items, numbered_items r response = inr items.
Proof.
  intros S. unfold numbered_items, group1_or_raise.
  destruct (search r response) as [x|] eqn:E; [|eauto].
  destruct (group_participates r response x S E) as [g ->]. eauto.
Qed.

Lemma score_spec (maxd : nat) (response : text) :
  maxd = 0 \/ length (score_digits response) <= maxd ->
  match search SCORE_RE response with
  | Some x =>
    match group1_or_raise response x with
    | inr g => int maxd g
    | inl e => inl e
    end
  | None => inr 6%Z
  end = inr (spec_score response).
Proof.
  unfold spec_score, score_digits, group1_or_raise.
  destruct (search SCORE_RE response) as [x|] eqn:E; [|reflexivity].
  destruct (score_match_digits response x E) as (ds & -> & NE & D).
  intros L. destruct (int_digits maxd ds NE D L) as (n & -> & ->).
  reflexivity.
Qed.

End ParseFacts.

(** C6, as the code has it.  Parsing a response whose score digits do not
    exceed the limit of the interpreter on integer conversions (none when
    the limit is zero) raises nothing and yields a result: its score is the
    number of the first score line, 6 when there is none, clamped to
    [1,10]; its revised content is what follows the first occurrence of the
    heading 修改后的完整内容 and an optional colon, stripped of the white
    space around it, and the response itself when the heading does not
    occur; its issues and suggestions are not empty. *)
Theorem parse_review_response_total (maxd : nat) (name original response : text) :
  maxd = 0 \/ length (score_digits response) <= maxd ->
  exists r,
    _parse_review_response maxd name original response = inr r /\
    score r = Z.min 10 (Z.max 1 (spec_score response)) /\
    revised_content r = spec_revised response /\
    section_name r = name /\ original_content r = original /\
    issues r <> [] /\ suggestions r <> [].
Proof.
  intros L. unfold _parse_review_response.
  rewrite (score_spec maxd response L).
  destruct (numbered_items_total ISSUES_RE response eq_refl) as [i ->].
  destruct (numbered_items_total SUGGESTIONS_RE response eq_refl) as [g ->].
  rewrite revised_content_spec.
  eexists. split; [reflexivity|]. cbn [score revised_content section_name
    original_content issues suggestions].
  repeat split; apply or_placeholder_nonempty.
Qed.

Lemma parse_review_response_total_witness :
  exists r,
    _parse_review_response 4300 RATIONALE sound_rationale formatted_response
      = inr r /\
    score r = 8%Z /\ revised_content r = u "修改后的正文".
Proof.
  assert (L : 4300 = 0 \/ length (score_digits formatted_response) <= 4300).
  { right. apply Nat.leb_le. vm_compute. reflexivity. }
  destruct (parse_review_response_total 4300 RATIONALE sound_rationale
              formatted_response L) as (r & E & S & R & _).
  exists r. split; [exact E|]. split.
  - rewrite S. vm_compute. reflexivity.
  - rewrite R. vm_compute. reflexivity.
Defined.

(** C6, as the claim states it, fails: the colon and the white space after
    the heading, and the white space at the end, are not part of the
    revised content. *)
Lemma revised_content_is_stripped :
  ~ (forall maxd name original response r,
       _parse_review_response maxd name original response = inr r ->
       revised_content r = claimed_revised response).
Proof.
  intros H.
  pose proof (H 4300 RATIONALE [] revised_only_response) as H'.
  destruct (_parse_review_response 4300 RATIONALE [] revised_only_response)
    as [e|r] eqn:E.
  - vm_compute in E. discriminate E.
  - specialize (H' r eq_refl). vm_compute in E. injection E as <-.
    vm_compute in H'. discriminate H'.
Qed.

(** The revised content of that response is the text alone. *)
Example revised_content_example :
  spec_revised revised_only_response = u "修改后的正文" /\
  claimed_revised revised_only_response
    = u "：" ++ [LF] ++ u "修改后的正文" ++ [LF].
Proof. split; vm_compute; reflexivity. Qed.

(** Beyond the limit on integer conversions [int] raises, and so does the
    parser; with the limit switched off the same response is parsed. *)
Example parse_raises_beyond_digit_limit :
  _parse_review_response 4300 RATIONALE [] long_score_response
    = inl (ValueError
             (u "Exceeds the limit (4300 digits) for integer string conversion: value has 4301 digits; use sys.set_int_max_str_digits() to increase the limit")) /\
  match _parse_review_response 0 RATIONALE [] long_score_response with
  | inr r => score r = 10%Z
  | inl _ => False
  end.
Proof. split; vm_compute; reflexivity. Qed.

(** A rationale without citation mark is told so and scores 6 at most. *)
Lemma rationale_without_citation (content : text) :
  found CITATION_RE content = false ->
  In (u "缺少文献引用标注") (issues (_review_rule_based RATIONALE content)) /\
  (score (_review_rule_based RATIONALE content) <= 6)%Z.
Proof.
  intros H.
  destruct (rule_score_spec RATIONALE content) as (_ & S).
  split.
  - rewrite rule_based_unfold. cbn [issues]. rewrite rule_issues_spec.
    unfold spec_rule_issues. rewrite H, eqb_refl. cbn [negb andb].
    set (a := if length content <? 500 then _ else _).
    set (b := match missing_keywords _ _ with [] => _ | _ => _ end).
    set (c := if found STRUCTURE_RE content then _ else _).
    assert (In (u "缺少文献引用标注") (a ++ b ++ c ++ [u "缺少文献引用标注"])).
    { rewrite !in_app_iff. right. right. right. left. reflexivity. }
    destruct (a ++ b ++ c ++ [u "缺少文献引用标注"]); [contradiction | assumption].
  - rewrite S. unfold half_points. rewrite H, eqb_refl. cbn [negb andb].
    apply Z.div_le_upper_bound; [lia|].
    destruct (length content <? 500); lia.
Qed.

(** With the score beyond the limit on integer conversions the
    model-backed review falls back on the rules. *)
Example long_score_falls_back :
  fst (_review_with_model 4300
         (fun _ _ (g : unit) => (inr long_score_response, g))
         PLAN (u "技术路线") (mkWorld tt []))
  = _review_rule_based PLAN (u "技术路线").
Proof. vm_compute. reflexivity. Qed.

(** * Headings that run into one another *)

Section OverlapFacts.






Lemma suffixes_In : forall (l z tail : text),
  l = z ++ tail -> tail <> [] -> In tail (suffixes l).
Proof.
  intros l z. revert l. induction z as [|a z IH]; intros l tail E NE.
  - simpl in E. subst. destruct tail; [congruence | simpl; auto].
  - subst l. simpl. right. apply (IH _ tail eq_refl NE).
Qed.






End OverlapFacts.

Section KeptFacts.







Lemma candidates_In (t : text) (name content : text) : forall hs,
  In (name, content) (candidates t hs) ->
  exists before h next,
    hs = before ++ h :: next /\ name = h_name h /\
    content = section_content t h next.
Proof.
  induction hs as [|h hs IH]; cbn [candidates]; intros H; [destruct H|].
  destruct H as [H|H].
  - injection H as <- <-. exists [], h, hs. auto.
  - destruct (IH H) as (before & h' & next & -> & -> & ->).
    exists (h :: before), h', next. auto.
Qed.

End KeptFacts.



(** * Further facts about strings *)

Section ContainsFacts.

Lemma startswith_inv : forall (p t : text),
  startswith p t = true -> exists rest, t = p ++ rest.
Proof.
  induction p as [|a p IH]; intros t H.
  - exists t. reflexivity.
  - destruct t as [|b t]; [discriminate H|].
    cbn [startswith] in H. apply andb_prop in H. destruct H as [E H].
    apply N.eqb_eq in E. subst b.
    destruct (IH t H) as [rest ->]. exists rest. reflexivity.
Qed.

Lemma contains_app (sub : text) : forall (pre post : text),
  contains sub (pre ++ sub ++ post) = true.
Proof.
  induction pre as [|c pre IH]; intros post.
  - cbn [app]. destruct (sub ++ post) eqn:E; cbn [contains];
      rewrite <- E, startswith_app; reflexivity.
  - cbn [app contains]. rewrite IH. apply orb_true_r.
Qed.

Lemma contains_inv (sub : text) : forall t : text,
  contains sub t = true -> exists pre post, t = pre ++ sub ++ post.
Proof.
  induction t as [|c t IH]; cbn [contains]; intros H.
  - rewrite orb_false_r in H. apply startswith_inv in H.
    destruct H as [rest E]. exists [], rest. exact E.
  - apply orb_prop in H. destruct H as [H|H].
    + apply startswith_inv in H. destruct H as [rest E].
      exists [], rest. exact E.
    + destruct (IH H) as (pre & post & ->). exists (c :: pre), post.
      reflexivity.
Qed.

Lemma contains_trans (a b c : text) :
  contains a b = true -> contains b c = true -> contains a c = true.
Proof.
  intros H1 H2. apply contains_inv in H1. apply contains_inv in H2.
  destruct H1 as (p1 & q1 & ->). destruct H2 as (p2 & q2 & ->).
  replace (p2 ++ (p1 ++ a ++ q1) ++ q2) with ((p2 ++ p1) ++ a ++ (q1 ++ q2))
    by (rewrite <- !app_assoc; reflexivity).
  apply contains_app.
Qed.

Lemma contains_refl (t : text) : contains t t = true.
Proof.
  pose proof (contains_app t [] []) as H. rewrite app_nil_r in H. exact H.
Qed.

Lemma contains_skipn (n : nat) (t : text) : contains (skipn n t) t = true.
Proof.
  rewrite <- (firstn_skipn n t) at 2.
  pose proof (contains_app (skipn n t) (firstn n t) []) as H.
  rewrite app_nil_r in H. exact H.
Qed.

Lemma contains_firstn (n : nat) (t : text) : contains (firstn n t) t = true.
Proof.
  rewrite <- (firstn_skipn n t) at 2.
  apply (contains_app (firstn n t) [] (skipn n t)).
Qed.

Lemma contains_slice (a b : nat) (t : text) : contains (slice a b t) t = true.
Proof.
  unfold slice. eapply contains_trans; [apply contains_firstn|].
  apply contains_skipn.
Qed.

Lemma contains_lstrip (t : text) : contains (lstrip t) t = true.
Proof.
  destruct (lstrip_decompose t) as (ws & E & _).
  rewrite E at 2.
  pose proof (contains_app (lstrip t) ws []) as H.
  rewrite app_nil_r in H. exact H.
Qed.

Lemma contains_rev (a b : text) :
  contains a b = true -> contains (rev a) (rev b) = true.
Proof.
  intros H. apply contains_inv in H. destruct H as (pre & post & ->).
  rewrite !rev_app_distr, <- app_assoc. apply contains_app.
Qed.

Lemma contains_rstrip (t : text) : contains (rstrip t) t = true.
Proof.
  unfold rstrip. rewrite <- (rev_involutive t) at 2.
  apply contains_rev, contains_lstrip.
Qed.

Lemma contains_strip (t : text) : contains (strip t) t = true.
Proof.
  unfold strip. eapply contains_trans; [apply contains_rstrip|].
  apply contains_lstrip.
Qed.

Lemma contains_In (sub : text) (c : char) (t : text) :
  contains sub t = true -> In c sub -> In c t.
Proof.
  intros H I. apply contains_inv in H. destruct H as (pre & post & ->).
  apply in_or_app. right. apply in_or_app. left. exact I.
Qed.

End ContainsFacts.

(** * Further properties of the segmenter *)

Lemma section_content_verbatim (t : text) (h : heading) (next : list heading) :
  h_title h <> [] -> contains (section_content t h next) t = true.
Proof.
  intros NE. unfold section_content.
  eapply contains_trans; [apply contains_strip|].
  rewrite sub_title by exact NE.
  eapply contains_trans;
    [|eapply contains_trans; [apply contains_strip | apply contains_slice]].
  destruct (startswith _ _); [apply contains_skipn | apply contains_refl].
Qed.

(** X1. The names under which the segmenter returns sections: no name twice,
    six sections at most however often a heading occurs in the text, and
    either the names are canonical or the result is the whole text under
    全文. *)
Theorem extracted_names (t : text) :
  NoDup (keys (_extract_sections t)) /\
  length (_extract_sections t) <= 6 /\
  (_extract_sections t = [(FULL_TEXT, t)] \/
   forall name, In name (keys (_extract_sections t)) -> In name section_order).
Proof.
  pose proof (extract_sections_nodup t) as N.
  assert (C : _extract_sections t = [(FULL_TEXT, t)] \/
              forall name, In name (keys (_extract_sections t)) ->
                           In name section_order).
  { rewrite extract_sections_cases.
    destruct (kept_sections t) as [|e l] eqn:K; [left; reflexivity|right].
    rewrite <- K, kept_sections_filter. intros name H.
    unfold keys in H. apply in_map_iff in H.
    destruct H as ([n c] & <- & H). apply filter_In in H. destruct H as [H _].
    apply candidates_In in H. destruct H as (before & h & next & E & -> & _).
    apply (proj2 (section_positions_names t)). rewrite E.
    apply in_or_app. right. left. reflexivity. }
  split; [exact N|]. split; [|exact C].
  destruct C as [C|C].
  - rewrite C. cbn [length]. lia.
  - unfold keys in *. rewrite <- (length_map fst).
    change 6 with (length section_order).
    apply NoDup_incl_length; [exact N|]. intros name H. apply C, H.
Qed.

(** X2. Every section that the segmenter returns stands in the text as it is:
    its content is a run of consecutive characters of the text. *)
Theorem extracted_content_verbatim (t : text) (name content : text) :
  In (name, content) (_extract_sections t) -> contains content t = true.
Proof.
  rewrite extract_sections_cases.
  destruct (kept_sections t) as [|e l] eqn:K.
  - intros [H|[]]. injection H as _ <-. apply contains_refl.
  - rewrite <- K, kept_sections_filter. intros H.
    apply filter_In in H. destruct H as [H _].
    apply candidates_In in H. destruct H as (before & h & next & E & _ & ->).
    apply section_content_verbatim.
    pose proof (section_positions_at t) as A. rewrite E in A.
    apply Forall_app in A. destruct A as [_ A].
    inversion A as [|? ? (pre & after & _ & _ & S) _]; subst.
    apply solid_nonempty, S.
Qed.

Lemma extracted_content_verbatim_witness :
  contains (repeat 98%N 55) sample_document = true.
Proof.
  apply (extracted_content_verbatim sample_document CONTENT).
  vm_compute. right. left. reflexivity.
Defined.

(** * Further properties of the rule-based review *)

Lemma half_points_range (name content : text) :
  (4 <= half_points name content <= 14)%Z /\
  (name <> RATIONALE -> (6 <= half_points name content)%Z).
Proof.
  pose proof (missing_bound name content) as M.
  unfold half_points.
  destruct (Py.eqb name RATIONALE) eqn:E.
  - apply eqb_spec in E. split; [|intros H; contradiction].
    destruct (length content <? 500)%nat, (found CITATION_RE content);
      cbn [andb negb]; lia.
  - cbn [andb]. destruct (length content <? 500)%nat; split; try intros _; lia.
Qed.

(** X4. The rule-based score lies between 2 and 7, and is 3 at least for every
    section but the rationale: the clamp to [1,10] never acts. *)
Theorem rule_score_range (name content : text) :
  (2 <= score (_review_rule_based name content) <= 7)%Z /\
  (name <> RATIONALE -> (3 <= score (_review_rule_based name content))%Z) /\
  score (_review_rule_based name content)
    = int_of_number (r_score (rule_checks name content)).
Proof.
  destruct (rule_score_spec name content) as [_ S].
  destruct (half_points_range name content) as [R R'].
  assert (A : (2 <= score (_review_rule_based name content) <= 7)%Z).
  { rewrite S. split.
    - apply Z.div_le_lower_bound; lia.
    - apply Z.div_le_upper_bound; lia. }
  split; [exact A|]. split.
  - intros N. rewrite S. apply Z.div_le_lower_bound; [lia|].
    specialize (R' N). lia.
  - rewrite rule_based_unfold in *. cbn [score] in *. lia.
Qed.


(** X6. The rule-based review reports between one and four issues, and as many
    suggestions as issues. *)
Theorem rule_lists_paired (name content : text) :
  let r := _review_rule_based name content in
  length (issues r) = length (suggestions r) /\
  1 <= length (issues r) <= 4.
Proof.
  cbv zeta. rewrite rule_based_unfold. cbn [issues suggestions].
  pose proof (rule_lists_together name content) as T.
  assert (B : length (r_issues (rule_checks name content)) <= 4).
  { rewrite rule_issues_spec. unfold spec_rule_issues.
    rewrite !length_app.
    destruct (length content <? 500), (missing_keywords _ _),
      (found STRUCTURE_RE content), (_ && _); cbn [length]; lia. }
  destruct (r_issues (rule_checks name content)) as [|i li],
           (r_suggestions (rule_checks name content)) as [|s ls];
    cbn [or_placeholder length] in *; try discriminate T; lia.
Qed.

(** * Further properties of the review of a section *)

Section ModelFacts.

Variable maxd : nat.
Variable G : Type.

(** The original content is handed through to the result and plays no
    other part in the parsing of a response. *)
Lemma parse_original (name c1 c2 response : text) :
  _parse_review_response maxd name c2 response =
  match _parse_review_response maxd name c1 response with
  | inl e => inl e
  | inr r =>
    inr (mkReviewResult name c2 (issues r) (suggestions r)
           (revised_content r) (score r))
  end.
Proof.
  unfold _parse_review_response.
  destruct (match search SCORE_RE response with
            | Some x => _ | None => _ end) as [e|s]; [reflexivity|].
  destruct (numbered_items ISSUES_RE response) as [e|i]; [reflexivity|].
  destruct (numbered_items SUGGESTIONS_RE response) as [e|j]; [reflexivity|].
  destruct (match search REVISED_RE response with
            | Some x => _ | None => _ end) as [e|r]; reflexivity.
Qed.

Lemma review_with_model_backend (gen : Generator G) (name content : text)
    (w : world G) :
  backend (snd (_review_with_model maxd gen name content w))
  = snd (gen (review_prompt name content) SYSTEM_PROMPT (backend w)).
Proof.
  unfold _review_with_model.
  destruct (gen (review_prompt name content) SYSTEM_PROMPT (backend w))
    as [[e|response] g]; cbn [snd].
  - reflexivity.
  - destruct (_parse_review_response maxd name content response);
      reflexivity.
Qed.

Lemma review_section_names (generator : option (Generator G))
    (name content : text) (use_model : bool) (w : world G) :
  let r := fst (review_section maxd generator name content use_model w) in
  section_name r = name /\ original_content r = content.
Proof.
  cbv zeta.
  destruct (review_section_cases maxd G generator name content use_model w)
    as [E|(response & E)].
  - rewrite E, rule_based_unfold. split; reflexivity.
  - apply parse_fields in E.
    destruct E as (s & i & j & r & _ & _ & ->). split; reflexivity.
Qed.

End ModelFacts.

(** X7. A review by the model reads the first 3000 characters of the content
    only.  Two contents that agree on them get the same prompt, and their
    reviews leave the backend and the standard output in the same state;
    when the response of the model is parsed, they get the same score,
    issues, suggestions and revised content, so that the revised content is
    a revision of the first 3000 characters at most. *)
Theorem model_review_reads_3000 (maxd : nat) (G : Type) (gen : Generator G)
    (name c1 c2 : text) (w : world G) :
  firstn 3000 c1 = firstn 3000 c2 ->
  review_prompt name c1 = review_prompt name c2 /\
  snd (_review_with_model maxd gen name c1 w)
    = snd (_review_with_model maxd gen name c2 w) /\
  forall response r1,
    fst (gen (review_prompt name c1) SYSTEM_PROMPT (backend w))
      = inr response ->
    _parse_review_response maxd name c1 response = inr r1 ->
    fst (_review_with_model maxd gen name c1 w) = r1 /\
    fst (_review_with_model maxd gen name c2 w)
      = mkReviewResult name c2 (issues r1) (suggestions r1)
          (revised_content r1) (score r1).
Proof.
  intros E.
  assert (P : review_prompt name c1 = review_prompt name c2).
  { unfold review_prompt. rewrite E. reflexivity. }
  split; [exact P|].
  unfold _review_with_model. rewrite <- P.
  destruct (gen (review_prompt name c1) SYSTEM_PROMPT (backend w))
    as [[e|response] g]; cbn [fst snd].
  - split; [reflexivity|]. intros response r1 H. discriminate H.
  - rewrite (parse_original maxd name c1 c2 response).
    destruct (_parse_review_response maxd name c1 response) as [e|r] eqn:R;
      cbn [fst snd].
    + split; [reflexivity|]. intros response' r1 H H1.
      injection H as <-. rewrite R in H1. discriminate H1.
    + split; [reflexivity|]. intros response' r1 H H1.
      injection H as <-. rewrite R in H1. injection H1 as <-.
      split; reflexivity.
Qed.

Lemma model_review_reads_3000_witness :
  review_prompt RATIONALE (repeat 97%N 3000 ++ u "甲")
    = review_prompt RATIONALE (repeat 97%N 3000 ++ u "乙").
Proof.
  apply (model_review_reads_3000 4300 nat flaky_backend RATIONALE
           (repeat 97%N 3000 ++ u "甲") (repeat 97%N 3000 ++ u "乙")
           (mkWorld 0 [])).
  vm_compute. reflexivity.
Defined.

(** * Further properties of the review of a whole proposal *)

Section RunFacts.

Variable maxd : nat.
Variable G : Type.

Lemma print_backend (line : text) (w : world G) :
  backend (print line w) = backend w.
Proof. reflexivity. Qed.

Lemma review_each_names (generator : option (Generator G)) :
  forall (sections : dict text) (use_model : bool) (w : world G),
  map (fun '(k, r) => (k, section_name r, original_content r))
      (fst (review_each maxd generator sections use_model w))
  = map (fun '(name, content) => (name, name, content)) sections.
Proof.
  induction sections as [|[name content] sections IH]; intros use_model w.
  - reflexivity.
  - rewrite review_each_cons. cbn [fst map]. rewrite IH.
    rewrite review_one_unfold. cbn [fst].
    destruct (review_section_names maxd G generator name content use_model
                (print (u "正在审阅: " ++ name ++ u "...") w)) as [-> ->].
    reflexivity.
Qed.

Lemma review_each_backend (gen : Generator G) :
  forall (sections : dict text) (w : world G),
  backend (snd (review_each maxd (Some gen) sections true w))
  = fold_left (fun g '(name, content) =>
                 snd (gen (review_prompt name content) SYSTEM_PROMPT g))
              sections (backend w).
Proof.
  induction sections as [|[name content] sections IH]; intros w.
  - reflexivity.
  - rewrite review_each_cons. cbn [snd fold_left]. rewrite IH.
    rewrite review_one_unfold. cbn [snd]. rewrite print_backend.
    cbn [review_section]. rewrite review_with_model_backend.
    rewrite print_backend. reflexivity.
Qed.

Lemma review_each_rules (generator : option (Generator G)) :
  forall (sections : dict text) (use_model : bool) (w : world G),
  use_model = false \/ generator = None ->
  review_each maxd generator sections use_model w
  = (map (fun '(name, content) => (name, _review_rule_based name content))
         sections,
     mkWorld (backend w)
       (stdout w ++
        flat_map (fun '(name, content) =>
                    [ u "正在审阅: " ++ name ++ u "...";
                      u "✓ " ++ name ++ u " 评分: "
                        ++ str_of_Z (score (_review_rule_based name content))
                        ++ u "/10" ]) sections)).
Proof.
  induction sections as [|[name content] sections IH]; intros use_model w H.
  - cbn [review_each map flat_map]. rewrite app_nil_r. destruct w; reflexivity.
  - rewrite review_each_cons, review_one_unfold. cbn [fst snd].
    assert (R : forall w0 : world G,
              review_section maxd generator name content use_model w0
              = (_review_rule_based name content, w0)).
    { intros w0. unfold review_section.
      destruct H as [-> | ->]; [reflexivity|].
      destruct use_model; reflexivity. }
    rewrite !R. cbn [fst snd]. rewrite (IH use_model _ H).
    cbn [fst snd map flat_map print backend stdout].
    rewrite <- !app_assoc. reflexivity.
Qed.

End RunFacts.

(** X8. Every result of a whole review stands under the name of its section,
    names that section, and holds the whole content of that section as its
    original content, in the order of the sections. *)
Theorem results_name_their_sections (maxd : nat) (G : Type)
    (generator : option (Generator G))
    (splitext : text -> text * text) (lower : text -> text)
    (pdf_parser docx_parser : text -> exn + LiteratureContent)
    (file_path : text) (use_model : bool) (w : world G)
    (sections : dict text) :
  parse_proposal splitext lower pdf_parser docx_parser file_path
    = inr sections ->
  exists results w',
    review_full_proposal maxd generator splitext lower pdf_parser docx_parser
      file_path use_model w = (inr results, w') /\
    map (fun '(k, r) => (k, section_name r, original_content r)) results
    = map (fun '(name, content) => (name, name, content)) sections.
Proof.
  intros P.
  pose proof (parse_proposal_nodup _ _ _ _ _ _ P) as N.
  exists (fst (review_each maxd generator sections use_model w)),
         (snd (review_each maxd generator sections use_model w)).
  split.
  - unfold review_full_proposal. rewrite P.
    rewrite (review_loop_each maxd G generator sections use_model [] w N)
      by (intros k _ []).
    reflexivity.
  - apply review_each_names.
Qed.

Lemma results_name_their_sections_witness :
  exists results w',
    review_full_proposal 4300 (Some flaky_backend) sample_splitext
      sample_lower sample_pdf_parser sample_docx_parser (u "proposal.PDF")
      true (mkWorld 0 []) = (inr results, w') /\
    map (fun '(k, r) => (k, section_name r, original_content r)) results
    = [ (RATIONALE, RATIONALE, repeat 97%N 60);
        (CONTENT, CONTENT, repeat 98%N 60);
        (PLAN, PLAN, repeat 99%N 60) ].
Proof.
  apply (results_name_their_sections 4300 nat (Some flaky_backend)
           sample_splitext sample_lower sample_pdf_parser sample_docx_parser
           (u "proposal.PDF") true (mkWorld 0 [])
           [ (RATIONALE, repeat 97%N 60); (CONTENT, repeat 98%N 60);
             (PLAN, repeat 99%N 60) ]).
  vm_compute. reflexivity.
Defined.

(** X9. A whole review with a backend calls it once for each section, in the
    order of the sections, with the prompt of that section, whether or not
    earlier calls raised or gave a response that could not be parsed. *)
Theorem backend_called_once_per_section (maxd : nat) (G : Type)
    (gen : Generator G)
    (splitext : text -> text * text) (lower : text -> text)
    (pdf_parser docx_parser : text -> exn + LiteratureContent)
    (file_path : text) (w : world G) (sections : dict text) :
  parse_proposal splitext lower pdf_parser docx_parser file_path
    = inr sections ->
  backend (snd (review_full_proposal maxd (Some gen) splitext lower
                  pdf_parser docx_parser file_path true w))
  = fold_left (fun g '(name, content) =>
                 snd (gen (review_prompt name content) SYSTEM_PROMPT g))
              sections (backend w).
Proof.
  intros P.
  pose proof (parse_proposal_nodup _ _ _ _ _ _ P) as N.
  unfold review_full_proposal. rewrite P.
  rewrite (review_loop_each maxd G (Some gen) sections true [] w N)
    by (intros k _ []).
  cbn [snd]. apply review_each_backend.
Qed.

Lemma backend_called_once_per_section_witness :
  backend (snd (review_full_proposal 4300 (Some flaky_backend)
                  sample_splitext sample_lower sample_pdf_parser
                  sample_docx_parser (u "proposal.PDF") true (mkWorld 0 [])))
  = 3.
Proof.
  apply (backend_called_once_per_section 4300 nat flaky_backend
           sample_splitext sample_lower sample_pdf_parser sample_docx_parser
           (u "proposal.PDF") (mkWorld 0 [])
           [ (RATIONALE, repeat 97%N 60); (CONTENT, repeat 98%N 60);
             (PLAN, repeat 99%N 60) ]).
  vm_compute. reflexivity.
Defined.

(** X10. A whole review without the model, or by a reviewer that has no
    backend, leaves the backend as it was, gives every section its
    rule-based review, and prints two lines for each section and nothing
    else. *)
Theorem review_without_model (maxd : nat) (G : Type)
    (generator : option (Generator G))
    (splitext : text -> text * text) (lower : text -> text)
    (pdf_parser docx_parser : text -> exn + LiteratureContent)
    (file_path : text) (use_model : bool) (w : world G)
    (sections : dict text) :
  use_model = false \/ generator = None ->
  parse_proposal splitext lower pdf_parser docx_parser file_path
    = inr sections ->
  review_full_proposal maxd generator splitext lower pdf_parser docx_parser
    file_path use_model w
  = (inr (map (fun '(name, content) =>
                 (name, _review_rule_based name content)) sections),
     mkWorld (backend w)
       (stdout w ++
        flat_map (fun '(name, content) =>
                    [ u "正在审阅: " ++ name ++ u "...";
                      u "✓ " ++ name ++ u " 评分: "
                        ++ str_of_Z (score (_review_rule_based name content))
                        ++ u "/10" ]) sections)).
Proof.
  intros H P.
  pose proof (parse_proposal_nodup _ _ _ _ _ _ P) as N.
  unfold review_full_proposal. rewrite P.
  rewrite (review_loop_each maxd G generator sections use_model [] w N)
    by (intros k _ []).
  rewrite (review_each_rules maxd G generator sections use_model w H).
  reflexivity.
Qed.

Lemma review_without_model_witness :
  stdout (snd (review_full_proposal 4300 (Some flaky_backend)
                 sample_splitext sample_lower sample_pdf_parser
                 sample_docx_parser (u "proposal.PDF") false (mkWorld 0 [])))
  = [ u "正在审阅: 立项依据..."; u "✓ 立项依据 评分: 2/10";
      u "正在审阅: 研究内容..."; u "✓ 研究内容 评分: 4/10";
      u "正在审阅: 研究方案..."; u "✓ 研究方案 评分: 3/10" ].
Proof.
  rewrite (review_without_model 4300 nat (Some flaky_backend)
             sample_splitext sample_lower sample_pdf_parser
             sample_docx_parser (u "proposal.PDF") false (mkWorld 0 [])
             [ (RATIONALE, repeat 97%N 60); (CONTENT, repeat 98%N 60);
               (PLAN, repeat 99%N 60) ]).
  - vm_compute. reflexivity.
  - left. reflexivity.
  - vm_compute. reflexivity.
Defined.

(** X11. A file whose extension, in lower case, is none of .pdf, .docx and .doc
    is refused with a [ValueError] that names the extension: no parser is
    asked, nothing is reviewed, and the backend and the standard output
    stay as they were. *)
Theorem unsupported_format_refused (maxd : nat) (G : Type)
    (generator : option (Generator G))
    (splitext : text -> text * text) (lower : text -> text)
    (pdf_parser docx_parser : text -> exn + LiteratureContent)
    (file_path : text) (use_model : bool) (w : world G) :
  let ext := lower (snd (splitext file_path)) in
  ext <> u ".pdf" -> ext <> u ".docx" -> ext <> u ".doc" ->
  parse_proposal splitext lower pdf_parser docx_parser file_path
    = inl (ValueError (u "不支持的文件格式: " ++ ext)) /\
  review_full_proposal maxd generator splitext lower pdf_parser docx_parser
    file_path use_model w
  = (inl (ValueError (u "不支持的文件格式: " ++ ext)), w).
Proof.
  intros ext A B C.
  assert (P : parse_proposal splitext lower pdf_parser docx_parser file_path
              = inl (ValueError (u "不支持的文件格式: " ++ ext))).
  { unfold parse_proposal. fold ext.
    apply eqb_neq in A. apply eqb_neq in B. apply eqb_neq in C.
    rewrite A, B, C. reflexivity. }
  split; [exact P|].
  unfold review_full_proposal. rewrite P. reflexivity.
Qed.

Lemma unsupported_format_refused_witness :
  parse_proposal (fun _ => (u "notes", u ".TXT")) (fun _ => u ".txt")
    sample_pdf_parser sample_docx_parser (u "notes.TXT")
  = inl (ValueError (u "不支持的文件格式: .txt")).
Proof.
  apply (unsupported_format_refused 4300 nat (Some flaky_backend)
           (fun _ => (u "notes", u ".TXT")) (fun _ => u ".txt")
           sample_pdf_parser sample_docx_parser (u "notes.TXT") true
           (mkWorld 0 []));
    intros H; vm_compute in H; discriminate H.
Defined.

(** * The items taken from a response *)

Section ItemFacts.

Lemma strip_idem (t : text) : strip (strip t) = strip t.
Proof.
  unfold strip. rewrite strip_comm, lstrip_idem, rstrip_idem. reflexivity.
Qed.

Lemma finditer_from_sound r t : forall fuel p x,
  In x (finditer_from fuel r t p) ->
  exists pre w after,
    t = pre ++ w ++ after /\
    Matches r (length pre) w after None (m_group1 x) /\
    m_start x = length pre /\ m_end x = length pre + length w.
Proof.
  induction fuel as [|fuel IH]; intros p x H; [destruct H|].
  cbn [finditer_from] in H.
  destruct (length t <? p) eqn:L; [destruct H|]. apply Nat.ltb_ge in L.
  destruct (search_from r p (skipn p t)) as [y|] eqn:S; [|destruct H].
  destruct H as [<-|H]; [|apply (IH _ _ H)].
  apply search_from_sound in S.
  destruct S as (pre & w & after & E & M & A & B).
  assert (Lp : length (firstn p t ++ pre) = p + length pre).
  { rewrite length_app, firstn_length_le by exact L. reflexivity. }
  exists (firstn p t ++ pre), w, after. rewrite Lp.
  repeat split; auto.
  rewrite <- app_assoc, <- E. symmetry. apply firstn_skipn.
Qed.

Lemma existsb_lf_false (w : text) :
  forallb (in_cset [NotNewline]) w = true -> existsb (N.eqb LF) w = false.
Proof.
  induction w as [|c w IH]; [reflexivity|].
  cbn [forallb existsb in_cset in_citem]. rewrite orb_false_r.
  intros H. apply andb_prop in H. destruct H as [H1 H2].
  rewrite (IH H2), orb_false_r. rewrite N.eqb_sym.
  apply negb_true_iff. exact H1.
Qed.

Lemma existsb_lf_contained (a b : text) :
  contains a b = true -> existsb (N.eqb LF) b = false ->
  existsb (N.eqb LF) a = false.
Proof.
  intros C H. apply contains_inv in C. destruct C as (pre & post & ->).
  rewrite !existsb_app in H. apply orb_false_elim in H. destruct H as [_ H].
  apply orb_false_elim in H. apply H.
Qed.

(** Group 1 of an item is a run of characters other than the line feed. *)
Lemma item_group (body : text) (x : match_) :
  In x (finditer ITEM_RE body) ->
  exists g, group1 body x = Some g /\ existsb (N.eqb LF) g = false.
Proof.
  intros H. apply finditer_from_sound in H.
  destruct H as (pre & w & after & E & M & _ & _).
  unfold ITEM_RE in M. cbn [seq] in M.
  apply Matches_Cat_inv in M. destruct M as (w1 & r1 & g1 & -> & M1 & M).
  apply Matches_Rep_inv in M1. destruct M1 as (_ & _ & ->).
  apply Matches_Cat_inv in M. destruct M as (w2 & r2 & g2 & -> & M2 & M).
  apply Matches_One_inv in M2. destruct M2 as (c & -> & _ & ->).
  apply Matches_Cat_inv in M. destruct M as (w3 & r3 & g3 & -> & M3 & M).
  apply Matches_Rep_inv in M3. destruct M3 as (_ & _ & ->).
  apply Matches_Cat_inv in M. destruct M as (w4 & r4 & g4 & -> & M4 & M).
  apply Matches_Group_inv in M4. destruct M4 as (-> & g'' & M4).
  apply Matches_Rep_inv in M4. destruct M4 as (F & _ & _).
  assert (G1 : m_group1 x
               = Some (length pre + length w1 + length [c] + length w3,
                       length pre + length w1 + length [c] + length w3
                       + length w4)).
  { inversion M as [| | | | | | |? ? ? ? ? ? ? Ma Ea| |]; subst.
    inversion Ma as [| | |? ? ? ? ? ? ? Mb|? ? ? ? ? ? ? Mb| | | | |]; subst.
    - cbn [seq] in Mb.
      apply Matches_Cat_inv in Mb. destruct Mb as (a1 & b1 & h1 & _ & Mb1 & Mb).
      inversion Mb1; subst.
      apply Matches_Cat_inv in Mb. destruct Mb as (a2 & b2 & h2 & _ & Mb2 & Mb).
      apply Matches_Rep_inv in Mb2. destruct Mb2 as (_ & _ & ->).
      apply Matches_One_inv in Mb. destruct Mb as (c' & _ & _ & ->).
      reflexivity.
    - inversion Mb as [| | |? ? ? ? ? ? ? Mc|? ? ? ? ? ? ? Mc| | | | |]; subst.
      + inversion Mc; subst. reflexivity.
      + inversion Mc; subst. reflexivity. }
  exists w4. split; [|apply existsb_lf_false, F].
  unfold group1. rewrite G1. f_equal.
  rewrite E.
  replace (pre ++ (w1 ++ [c] ++ w3 ++ w4 ++ r4) ++ after)
    with ((pre ++ w1 ++ [c] ++ w3) ++ w4 ++ (r4 ++ after))
    by (rewrite <- !app_assoc; reflexivity).
  replace (length pre + length w1 + length [c] + length w3)
    with (length (pre ++ w1 ++ [c] ++ w3))
    by (rewrite !length_app; lia).
  apply slice_app_at.
Qed.

Lemma findall_items_lf (body : text) :
  Forall (fun g => existsb (N.eqb LF) g = false) (findall ITEM_RE body).
Proof.
  apply Forall_forall. intros g H. unfold findall in H.
  apply in_map_iff in H. destruct H as (x & <- & H).
  destruct (item_group body x H) as (g & -> & F). exact F.
Qed.

Lemma stripped_items_lines (ms : list text) :
  Forall (fun g => existsb (N.eqb LF) g = false) ms ->
  Forall (fun i => one_line i = true /\ strip i = i) (stripped_items ms).
Proof.
  intros F. apply Forall_forall. intros i H. unfold stripped_items in H.
  apply in_map_iff in H. destruct H as (g & <- & H).
  apply filter_In in H. destruct H as [H NE].
  rewrite Forall_forall in F. specialize (F g H).
  split; [|apply strip_idem].
  unfold one_line. rewrite NE. cbn [andb].
  rewrite (existsb_lf_contained (strip g) g (contains_strip g) F).
  reflexivity.
Qed.

Lemma numbered_items_lines (r : regex) (response : text) (items : list text) :
  numbered_items r response = inr items ->
  Forall (fun i => one_line i = true /\ strip i = i) items.
Proof.
  unfold numbered_items.
  destruct (search r response) as [x|].
  - destruct (group1_or_raise response x) as [e|body]; intros H;
      [discriminate H|].
    injection H as <-. apply stripped_items_lines, findall_items_lf.
  - intros H. injection H as <-. constructor.
Qed.

Lemma or_placeholder_Forall (P : text -> Prop) (xs : list text) (p : text) :
  Forall P xs -> P p -> Forall P (or_placeholder xs p).
Proof.
  intros F H. destruct xs; cbn [or_placeholder]; auto.
Qed.

End ItemFacts.

Lemma parse_response_lines (maxd : nat) (name original response : text)
    (r : ReviewResult) :
  _parse_review_response maxd name original response = inr r ->
  Forall (fun i => one_line i = true /\ strip i = i)
         (issues r ++ suggestions r).
Proof.
  intros H. apply parse_fields in H.
  destruct H as (s & i & j & rev & I & J & ->). cbn [issues suggestions].
  apply Forall_app. split.
  - apply or_placeholder_Forall; [apply (numbered_items_lines _ _ _ I)|].
    split; vm_compute; reflexivity.
  - apply or_placeholder_Forall; [apply (numbered_items_lines _ _ _ J)|].
    split; vm_compute; reflexivity.
Qed.

(** X12. Every issue and every suggestion of a parsed response is one line
    that is not empty and has no white space around it. *)
Theorem parsed_items_are_lines (maxd : nat) (name original response : text)
    (r : ReviewResult) :
  _parse_review_response maxd name original response = inr r ->
  Forall (fun i => one_line i = true /\ strip i = i)
         (issues r ++ suggestions r).
Proof. apply parse_response_lines. Qed.

Lemma parsed_items_are_lines_witness :
  Forall (fun i => one_line i = true /\ strip i = i)
         ([u "文献综述不足"; u "缺少与现有方法的对比"] ++ [u "补充近五年的文献"]).
Proof.
  apply (parsed_items_are_lines 4300 RATIONALE [] formatted_response
           (mkReviewResult RATIONALE []
              [u "文献综述不足"; u "缺少与现有方法的对比"] [u "补充近五年的文献"]
              (u "修改后的正文") 8)).
  vm_compute. reflexivity.
Defined.

(** * Every issue is one line *)

Section LineFacts.

Lemma one_line_app (a b : text) :
  one_line a = true -> existsb (N.eqb LF) b = false ->
  one_line (a ++ b) = true.
Proof.
  unfold one_line. intros H B. apply andb_prop in H. destruct H as [H1 H2].
  rewrite existsb_app. unfold char in *. rewrite B, orb_false_r, H2.
  destruct a; [discriminate H1 | reflexivity].
Qed.

Lemma one_line_lf (t : text) :
  one_line t = true -> existsb (N.eqb LF) t = false.
Proof.
  unfold one_line. intros H. apply andb_prop in H. destruct H as [_ H].
  apply negb_true_iff. exact H.
Qed.

Lemma join_lf (sep : text) : forall parts : list text,
  existsb (N.eqb LF) sep = false ->
  Forall (fun p => existsb (N.eqb LF) p = false) parts ->
  existsb (N.eqb LF) (join sep parts) = false.
Proof.
  intros parts S F. induction F as [|p parts Hp F IH]; [reflexivity|].
  cbn [join]. destruct parts as [|q parts]; [exact Hp|].
  rewrite !existsb_app. unfold char in *. rewrite Hp, S, IH. reflexivity.
Qed.

Lemma keywords_lf (name : text) :
  Forall (fun k => existsb (N.eqb LF) k = false) (keywords (criteria_for name)).
Proof.
  pose proof (criteria_cases name) as C.
  assert (A : forallb (fun c => forallb (fun k => negb (existsb (N.eqb LF) k))
                                        (keywords c))
                      (map snd REVIEW_CRITERIA) = true)
    by (vm_compute; reflexivity).
  rewrite forallb_forall in A. specialize (A _ C).
  rewrite forallb_forall in A. apply Forall_forall. intros k H.
  apply negb_true_iff, A, H.
Qed.

Lemma missing_lf (name content : text) :
  existsb (N.eqb LF)
    (join (u ", ") (missing_keywords (criteria_for name) content)) = false.
Proof.
  apply join_lf; [vm_compute; reflexivity|].
  pose proof (keywords_lf name) as K. rewrite Forall_forall in K.
  apply Forall_forall. intros k H. apply K.
  unfold missing_keywords in H. apply filter_In in H. apply H.
Qed.

Lemma report_lines_kept (i sg : text) (pen : Q) (s : rule_state) :
  one_line i = true -> one_line sg = true ->
  Forall (fun x => one_line x = true) (r_issues s ++ r_suggestions s) ->
  Forall (fun x => one_line x = true)
         (r_issues (report i sg pen s) ++ r_suggestions (report i sg pen s)).
Proof.
  intros Hi Hs F. apply Forall_app in F. destruct F as [F1 F2].
  cbn [report r_issues r_suggestions].
  repeat (apply Forall_app; split); auto.
Qed.

Lemma rule_checks_lines (name content : text) :
  Forall (fun x => one_line x = true)
         (r_issues (rule_checks name content)
          ++ r_suggestions (rule_checks name content)).
Proof.
  unfold rule_checks.
  assert (S0 : Forall (fun x => one_line x = true)
                 (r_issues (mkRule [] [] 7) ++ r_suggestions (mkRule [] [] 7)))
    by constructor.
  set (s0 := mkRule [] [] 7) in *. clearbody s0.
  assert (S1 : Forall (fun x => one_line x = true)
                 (r_issues (check_length content s0)
                  ++ r_suggestions (check_length content s0))).
  { unfold check_length. destruct (length content <? 500); [|exact S0].
    apply report_lines_kept; [vm_compute; reflexivity ..|exact S0]. }
  set (s1 := check_length content s0) in *. clearbody s1.
  assert (S2 : Forall (fun x => one_line x = true)
                 (r_issues (check_keywords (criteria_for name) content s1)
                  ++ r_suggestions
                       (check_keywords (criteria_for name) content s1))).
  { unfold check_keywords.
    pose proof (missing_lf name content) as M.
    destruct (missing_keywords (criteria_for name) content) as [|k l];
      [exact S1|].
    apply report_lines_kept; [| |exact S1];
      (apply one_line_app; [vm_compute; reflexivity | exact M]). }
  set (s2 := check_keywords (criteria_for name) content s1) in *.
  clearbody s2.
  assert (S3 : Forall (fun x => one_line x = true)
                 (r_issues (check_structure content s2)
                  ++ r_suggestions (check_structure content s2))).
  { unfold check_structure.
    destruct (negb (found STRUCTURE_RE content)); [|exact S2].
    apply report_lines_kept; [vm_compute; reflexivity ..|exact S2]. }
  set (s3 := check_structure content s2) in *. clearbody s3.
  unfold check_citations.
  destruct (Py.eqb name RATIONALE); [|exact S3].
  destruct (negb (found CITATION_RE content)); [|exact S3].
  apply report_lines_kept; [vm_compute; reflexivity ..|exact S3].
Qed.

Lemma rule_based_lines (name content : text) :
  Forall (fun x => one_line x = true)
         (issues (_review_rule_based name content)
          ++ suggestions (_review_rule_based name content)).
Proof.
  rewrite rule_based_unfold. cbn [issues suggestions].
  pose proof (rule_checks_lines name content) as F.
  apply Forall_app in F. destruct F as [F1 F2].
  apply Forall_app. split; apply or_placeholder_Forall; auto;
    vm_compute; reflexivity.
Qed.

(** [split] undoes a [join] of parts that hold no separator. *)
Lemma split_line (t : text) :
  existsb (N.eqb LF) t = false -> split LF t = [t].
Proof.
  induction t as [|c t IH]; [reflexivity|].
  cbn [existsb split]. intros H. apply orb_false_elim in H.
  destruct H as [H1 H2]. rewrite N.eqb_sym in H1. rewrite H1, (IH H2).
  reflexivity.
Qed.

Lemma split_app_lf (a b : text) :
  existsb (N.eqb LF) a = false ->
  split LF (a ++ LF :: b) = a :: split LF b.
Proof.
  induction a as [|c a IH]; intros H.
  - cbn [app split]. rewrite N.eqb_refl. reflexivity.
  - cbn [existsb] in H. apply orb_false_elim in H. destruct H as [H1 H2].
    rewrite N.eqb_sym in H1. cbn [app split]. rewrite H1, (IH H2).
    reflexivity.
Qed.

Lemma split_join (parts : list text) :
  parts <> [] ->
  Forall (fun p => existsb (N.eqb LF) p = false) parts ->
  split LF (join [LF] parts) = parts.
Proof.
  intros NE F. revert NE.
  induction F as [|p parts Hp F IH]; intros NE;
    [exfalso; apply NE; reflexivity|].
  cbn [join]. destruct parts as [|q parts].
  - apply split_line, Hp.
  - cbn [app]. rewrite split_app_lf by exact Hp.
    rewrite IH by discriminate. reflexivity.
Qed.

End LineFacts.

Lemma review_section_lines (maxd : nat) (G : Type)
    (generator : option (Generator G)) (name content : text)
    (use_model : bool) (w : world G) :
  Forall (fun x => one_line x = true)
    (issues (fst (review_section maxd generator name content use_model w))
     ++ suggestions
          (fst (review_section maxd generator name content use_model w))).
Proof.
  destruct (review_section_cases maxd G generator name content use_model w)
    as [E|(response & E)].
  - rewrite E. apply rule_based_lines.
  - apply parse_response_lines in E.
    eapply Forall_impl; [|exact E]. intros x [H _]. exact H.
Qed.

(** X13. Every issue and every suggestion of the review of a section, by the
    model or by the rules, is one line that is not empty. *)
Theorem review_items_are_lines (maxd : nat) (G : Type)
    (generator : option (Generator G)) (name content : text)
    (use_model : bool) (w : world G) :
  let r := fst (review_section maxd generator name content use_model w) in
  Forall (fun x => one_line x = true) (issues r ++ suggestions r).
Proof. apply review_section_lines. Qed.

(** * What the assembled texts hold *)

Section JoinFacts.

Lemma join_cons (sep p : text) (ps : list text) :
  ps <> [] -> join sep (p :: ps) = p ++ sep ++ join sep ps.
Proof.
  intros H. destruct ps; [exfalso; apply H; reflexivity | reflexivity].
Qed.

Lemma join_app (sep : text) : forall a b : list text,
  a <> [] -> b <> [] -> join sep (a ++ b) = join sep a ++ sep ++ join sep b.
Proof.
  induction a as [|p a IH]; intros b Na Nb;
    [exfalso; apply Na; reflexivity|].
  destruct a as [|q a].
  - cbn [app]. rewrite join_cons by exact Nb. reflexivity.
  - change ((p :: q :: a) ++ b) with (p :: ((q :: a) ++ b)).
    rewrite join_cons by (cbn [app]; discriminate).
    rewrite IH by (auto; discriminate).
    rewrite (join_cons sep p (q :: a)) by discriminate.
    rewrite <- !app_assoc. reflexivity.
Qed.

(** Consecutive lines stand together in the joined text. *)
Lemma join_contains (sep : text) (pre block post : list text) :
  contains (join sep block) (join sep (pre ++ block ++ post)) = true.
Proof.
  destruct block as [|b block].
  - destruct (join sep (pre ++ [] ++ post)); reflexivity.
  - destruct pre as [|p pre], post as [|q post].
    + cbn [app]. rewrite app_nil_r. apply contains_refl.
    + cbn [app]. change (b :: block ++ q :: post)
        with ((b :: block) ++ q :: post).
      rewrite join_app by discriminate.
      apply (contains_app _ []).
    + rewrite app_nil_r, join_app by discriminate.
      pose proof (contains_app (join sep (b :: block))
                    (join sep (p :: pre) ++ sep) []) as H.
      rewrite app_nil_r, <- app_assoc in H. exact H.
    + rewrite join_app by discriminate.
      rewrite (join_app sep (b :: block)) by discriminate.
      pose proof (contains_app (join sep (b :: block))
                    (join sep (p :: pre) ++ sep)
                    (sep ++ join sep (q :: post))) as H.
      rewrite <- app_assoc in H. exact H.
Qed.

Lemma flat_map_split {A B} (f : A -> list B) (x : A) (l : list A) :
  In x l -> exists pre post, flat_map f l = pre ++ f x ++ post.
Proof.
  intros H. apply in_split in H. destruct H as (a & b & ->).
  exists (flat_map f a), (flat_map f b).
  rewrite flat_map_app. reflexivity.
Qed.

Lemma revised_proposal_emitted (results : dict ReviewResult) :
  generate_revised_proposal results =
  join [LF]
    ([ u "# 国自然科学基金申请书（修改版）" ++ [LF]; u "---" ++ [LF] ]
     ++ flat_map (fun '(name, result) => section_lines name result)
                 (emitted results)).
Proof.
  unfold generate_revised_proposal, emitted.
  rewrite canonical_lines_emitted, other_lines_emitted, flat_map_app.
  reflexivity.
Qed.

End JoinFacts.

Lemma revised_proposal_holds (results : dict ReviewResult)
    (name : text) (r : ReviewResult) :
  NoDup (keys results) -> In (name, r) results ->
  contains ([LF] ++ u "## " ++ name ++ [LF] ++ [LF]
              ++ revised_content r ++ [LF] ++ [LF])
           (generate_revised_proposal results) = true.
Proof.
  intros N H.
  assert (E : In (name, r) (emitted results)).
  { eapply Permutation_in; [|exact H].
    apply Permutation_sym, emitted_perm, N. }
  destruct (flat_map_split
              (fun '(name, result) => section_lines name result)
              (name, r) (emitted results) E) as (pre & post & F).
  rewrite revised_proposal_emitted, F.
  set (hdr := [ u "# 国自然科学基金申请书（修改版）" ++ [LF]; u "---" ++ [LF] ]).
  replace ([LF] ++ u "## " ++ name ++ [LF] ++ [LF]
             ++ revised_content r ++ [LF] ++ [LF])
    with (join [LF] (section_lines name r)).
  - rewrite app_assoc. apply join_contains.
  - unfold section_lines. cbn [join]. rewrite <- !app_assoc. reflexivity.
Qed.

(** X15. The revised proposal holds every section of the results: its heading
    line, a blank line and its revised content, word for word, whatever the
    name of the section. *)
Theorem revised_proposal_complete (results : dict ReviewResult)
    (name : text) (r : ReviewResult) :
  NoDup (keys results) -> In (name, r) results ->
  contains ([LF] ++ u "## " ++ name ++ [LF] ++ [LF]
              ++ revised_content r ++ [LF] ++ [LF])
           (generate_revised_proposal results) = true.
Proof. apply revised_proposal_holds. Qed.

Lemma revised_proposal_complete_witness :
  contains ([LF] ++ u "## " ++ FULL_TEXT ++ [LF] ++ [LF]
              ++ u "修改稿全文" ++ [LF] ++ [LF])
           (generate_revised_proposal sample_results) = true.
Proof.
  apply (revised_proposal_complete sample_results FULL_TEXT
           (sample_result FULL_TEXT)).
  - apply distinct_NoDup. vm_compute. reflexivity.
  - vm_compute. right. right. right. left. reflexivity.
Defined.


(** * The review panel *)

Section PanelFacts.

Variable maxd : nat.
Variable G : Type.
Variable generator : option (Generator G).

Lemma review_each_get (sections before after : dict text) (name content : text)
    (use_model : bool) (w : world G) :
  NoDup (keys sections) ->
  sections = before ++ (name, content) :: after ->
  dict_get name (fst (review_each maxd generator sections use_model w))
  = Some (fst (review_section maxd generator name content use_model
                 (print (u "正在审阅: " ++ name ++ u "...")
                    (snd (review_each maxd generator before use_model w))))).
Proof.
  intros N E.
  rewrite E, review_each_app, review_each_cons. cbn [fst].
  rewrite review_one_unfold. cbn [fst].
  apply dict_get_middle. rewrite review_each_keys.
  rewrite E in N. unfold keys in N. rewrite map_app in N. cbn [map fst] in N.
  apply NoDup_remove_2 in N. intros H. apply N, in_or_app. left. exact H.
Qed.

Lemma review_section_nonempty (name content : text) (use_model : bool)
    (w : world G) :
  issues (fst (review_section maxd generator name content use_model w)) <> []
  /\ suggestions (fst (review_section maxd generator name content use_model w))
     <> [].
Proof.
  destruct (review_section_cases maxd G generator name content use_model w)
    as [E|(response & E)].
  - rewrite E, rule_based_unfold. cbn [issues suggestions].
    split; apply or_placeholder_nonempty.
  - apply parse_fields in E. destruct E as (s & i & j & r & _ & _ & ->).
    cbn [issues suggestions]. split; apply or_placeholder_nonempty.
Qed.

Lemma bullets_split (items : list text) :
  items <> [] -> Forall (fun x => one_line x = true) items ->
  split LF (join [LF] (map (fun i => u "• " ++ i) items))
  = map (fun i => u "• " ++ i) items.
Proof.
  intros NE F. apply split_join.
  - destruct items; [exfalso; apply NE; reflexivity | discriminate].
  - apply Forall_forall. intros b H. apply in_map_iff in H.
    destruct H as (i & <- & H). rewrite Forall_forall in F.
    rewrite existsb_app. unfold char in *.
    rewrite (one_line_lf i (F i H)). vm_compute. reflexivity.
Qed.

End PanelFacts.

(** X18. The panel answers with its notice exactly for a name that has no
    review. *)
Theorem section_review_notice (results : dict ReviewResult) (name : text) :
  App.get_section_review results name = (u "请先上传并审阅标书", [], [], [])
  <-> ~ In name (keys results).
Proof.
  unfold App.get_section_review.
  destruct results as [|e results'].
  - split; [intros _ []|reflexivity].
  - set (results := e :: results').
    destruct (dict_get name results) as [r|] eqn:D.
    + assert (I : In name (keys results)).
      { apply dict_mem_In. unfold dict_mem. rewrite D. reflexivity. }
      split; [|intros H; contradiction].
      intros H. exfalso. injection H as H _ _ _.
      vm_compute in H. discriminate H.
    + split; [|reflexivity]. intros _ I.
      apply dict_mem_In in I. unfold dict_mem in I. rewrite D in I.
      discriminate I.
Qed.

(** X19. After the review of a whole proposal the panel shows, for every
    section of the document, the score of its review, its revised content,
    and its issues and its suggestions as one bullet line each. *)
Theorem panel_shows_each_section (maxd : nat) (G : Type)
    (generator : option (Generator G))
    (splitext : text -> text * text) (lower : text -> text)
    (pdf_parser docx_parser : text -> exn + LiteratureContent)
    (file_path : text) (use_model : bool) (w : world G)
    (sections : dict text) :
  parse_proposal splitext lower pdf_parser docx_parser file_path
    = inr sections ->
  exists results w',
    review_full_proposal maxd generator splitext lower pdf_parser docx_parser
      file_path use_model w = (inr results, w') /\
    forall name, In name (keys sections) ->
      exists r issues_text suggestions_text,
        dict_get name results = Some r /\
        App.get_section_review results name
          = (u "评分: " ++ str_of_Z (score r) ++ u "/10",
             issues_text, suggestions_text, revised_content r) /\
        split LF issues_text = map (fun i => u "• " ++ i) (issues r) /\
        split LF suggestions_text
          = map (fun s => u "• " ++ s) (suggestions r).
Proof.
  intros P.
  pose proof (parse_proposal_nodup _ _ _ _ _ _ P) as N.
  exists (fst (review_each maxd generator sections use_model w)),
         (snd (review_each maxd generator sections use_model w)).
  split.
  { unfold review_full_proposal. rewrite P.
    rewrite (review_loop_each maxd G generator sections use_model [] w N)
      by (intros k _ []).
    reflexivity. }
  intros name I. unfold keys in I. apply in_map_iff in I.
  destruct I as ([n content] & E & I). cbn [fst] in E. subst n.
  apply in_split in I. destruct I as (before & after & E).
  pose proof (review_each_get maxd G generator sections before after name
                content use_model w N E) as D.
  set (w0 := print (u "正在审阅: " ++ name ++ u "...")
               (snd (review_each maxd generator before use_model w))) in *.
  set (r := fst (review_section maxd generator name content use_model w0))
    in *.
  pose proof (review_section_lines maxd G generator name content use_model w0)
    as L.
  fold r in L. apply Forall_app in L. destruct L as [L1 L2].
  destruct (review_section_nonempty maxd G generator name content use_model
              w0) as [N1 N2].
  fold r in N1, N2.
  exists r, (join [LF] (map (fun i => u "• " ++ i) (issues r))),
         (join [LF] (map (fun s => u "• " ++ s) (suggestions r))).
  split; [exact D|]. split.
  - destruct (fst (review_each maxd generator sections use_model w))
      as [|e l]; [discriminate D|].
    unfold App.get_section_review. cbv beta iota. rewrite D. reflexivity.
  - split; apply bullets_split; assumption.
Qed.

Lemma panel_shows_each_section_witness :
  exists results w',
    review_full_proposal 4300 (Some flaky_backend) sample_splitext
      sample_lower sample_pdf_parser sample_docx_parser (u "proposal.PDF")
      true (mkWorld 0 []) = (inr results, w') /\
    forall name, In name [RATIONALE; CONTENT; PLAN] ->
      exists r issues_text suggestions_text,
        dict_get name results = Some r /\
        App.get_section_review results name
          = (u "评分: " ++ str_of_Z (score r) ++ u "/10",
             issues_text, suggestions_text, revised_content r) /\
        split LF issues_text = map (fun i => u "• " ++ i) (issues r) /\
        split LF suggestions_text
          = map (fun s => u "• " ++ s) (suggestions r).
Proof.
  apply (panel_shows_each_section 4300 nat (Some flaky_backend)
           sample_splitext sample_lower sample_pdf_parser sample_docx_parser
           (u "proposal.PDF") true (mkWorld 0 [])
           [ (RATIONALE, repeat 97%N 60); (CONTENT, repeat 98%N 60);
             (PLAN, repeat 99%N 60) ]).
  vm_compute. reflexivity.
Defined.

(** X16. A review without the model changes no text: the revised proposal made
    from its results holds every section of the document under its
    heading with the content that the segmenter extracted. *)
Theorem revision_without_model_keeps_text (maxd : nat) (G : Type)
    (generator : option (Generator G))
    (splitext : text -> text * text) (lower : text -> text)
    (pdf_parser docx_parser : text -> exn + LiteratureContent)
    (file_path : text) (w : world G) (sections : dict text)
    (name content : text) :
  parse_proposal splitext lower pdf_parser docx_parser file_path
    = inr sections ->
  In (name, content) sections ->
  exists results w',
    review_full_proposal maxd generator splitext lower pdf_parser docx_parser
      file_path false w = (inr results, w') /\
    contains ([LF] ++ u "## " ++ name ++ [LF] ++ [LF]
                ++ content ++ [LF] ++ [LF])
             (generate_revised_proposal results) = true.
Proof.
  intros P I.
  pose proof (parse_proposal_nodup _ _ _ _ _ _ P) as N.
  unfold review_full_proposal. rewrite P.
  rewrite (review_loop_each maxd G generator sections false [] w N)
    by (intros k _ []).
  rewrite (review_each_rules maxd G generator sections false w
             (or_introl eq_refl)).
  cbn [fst snd app]. eexists. eexists. split; [reflexivity|].
  replace content with (revised_content (_review_rule_based name content))
    at 1 by (rewrite rule_based_unfold; reflexivity).
  apply revised_proposal_holds.
  - unfold keys. rewrite map_map.
    rewrite (map_ext _ fst) by (intros [n c]; reflexivity). exact N.
  - apply (in_map (fun '(name, content) =>
                     (name, _review_rule_based name content))
                  sections (name, content) I).
Qed.

Lemma revision_without_model_keeps_text_witness :
  exists results w',
    review_full_proposal 4300 (Some flaky_backend) sample_splitext
      sample_lower sample_pdf_parser sample_docx_parser (u "proposal.PDF")
      false (mkWorld 0 []) = (inr results, w') /\
    contains ([LF] ++ u "## " ++ CONTENT ++ [LF] ++ [LF]
                ++ repeat 98%N 60 ++ [LF] ++ [LF])
             (generate_revised_proposal results) = true.
Proof.
  apply (revision_without_model_keeps_text 4300 nat (Some flaky_backend)
           sample_splitext sample_lower sample_pdf_parser sample_docx_parser
           (u "proposal.PDF") (mkWorld 0 [])
           [ (RATIONALE, repeat 97%N 60); (CONTENT, repeat 98%N 60);
             (PLAN, repeat 99%N 60) ] CONTENT (repeat 98%N 60)).
  - vm_compute. reflexivity.
  - right. left. reflexivity.
Defined.

(** * The document parsers *)

Section ParserFacts.

Lemma split_parts (sep : char) : forall t : text,
  exists part parts,
    split sep t = part :: parts /\
    startswith part t = true /\
    Forall (fun p => contains p t = true /\ existsb (N.eqb sep) p = false)
           (part :: parts).
Proof.
  induction t as [|c t IH].
  - exists [], []. repeat split. constructor; [split; reflexivity|constructor].
  - destruct IH as (part & parts & E & S & F).
    assert (F' : Forall (fun p => contains p (c :: t) = true /\
                                  existsb (N.eqb sep) p = false)
                        (part :: parts)).
    { eapply Forall_impl; [|exact F]. intros p [H1 H2]. split; [|exact H2].
      cbn [contains]. rewrite H1. apply orb_true_r. }
    cbn [split]. destruct (c =? sep)%N eqn:C.
    + exists [], (split sep t). repeat split.
      rewrite E. constructor; [split; reflexivity | exact F'].
    + rewrite E. exists (c :: part), parts.
      assert (S' : startswith (c :: part) (c :: t) = true).
      { cbn [startswith]. rewrite N.eqb_refl. exact S. }
      repeat split; [exact S'|].
      inversion F' as [|? ? [_ Hp] Fp]; subst.
      constructor; [|exact Fp]. split.
      * cbn [contains]. rewrite S'. reflexivity.
      * cbn [existsb]. rewrite N.eqb_sym, C. exact Hp.
Qed.

Lemma split_In (sep : char) (t part : text) :
  In part (split sep t) ->
  contains part t = true /\ existsb (N.eqb sep) part = false.
Proof.
  destruct (split_parts sep t) as (p & ps & E & _ & F).
  rewrite E. rewrite Forall_forall in F. apply F.
Qed.

Lemma first_title_cases : forall lines : list text,
  LiteratureManager.first_title lines = u "未知标题" \/
  exists line, In line lines /\
    LiteratureManager.first_title lines = strip line /\
    10 < length (strip line) < 200.
Proof.
  induction lines as [|line lines IH]; [left; reflexivity|].
  cbn [LiteratureManager.first_title].
  destruct ((10 <? length (strip line)) && (length (strip line) <? 200))
    eqn:C.
  - right. exists line. split; [left; reflexivity|]. split; [reflexivity|].
    apply andb_prop in C. destruct C as [C1 C2].
    apply Nat.ltb_lt in C1. apply Nat.ltb_lt in C2. lia.
  - destruct IH as [IH|(l & I & E & B)]; [left; exact IH|].
    right. exists l. split; [right; exact I|]. split; assumption.
Qed.

Lemma abstract_patterns_group :
  forallb sets_group LiteratureManager.ABSTRACT_PATTERNS = true.
Proof. vm_compute. reflexivity. Qed.

Lemma group1_contains (t : text) (x : match_) (g : text) :
  group1 t x = Some g -> contains g t = true.
Proof.
  unfold group1. destruct (m_group1 x) as [[a b]|]; intros H;
    [|discriminate H].
  injection H as <-. apply contains_slice.
Qed.

Lemma first_abstract_total (t : text) : forall patterns : list regex,
  forallb sets_group patterns = true ->
  exists a, LiteratureManager.first_abstract patterns t = inr a /\
            strip a = a /\ contains a t = true.
Proof.
  induction patterns as [|p patterns IH]; intros F.
  - exists []. repeat split. destruct t; reflexivity.
  - cbn [forallb] in F. apply andb_prop in F. destruct F as [Fp F].
    cbn [LiteratureManager.first_abstract].
    destruct (search p t) as [x|] eqn:S; [|apply IH, F].
    destruct (group_participates p t x Fp S) as (g & E).
    unfold group1_or_raise. rewrite E. exists (strip g).
    split; [reflexivity|]. split; [apply strip_idem|].
    eapply contains_trans; [apply contains_strip|].
    apply (group1_contains t x g E).
Qed.

Lemma extract_abstract_returns (t : text) :
  exists a, LiteratureManager.extract_abstract t = inr a /\
            strip a = a /\ contains a t = true.
Proof. apply first_abstract_total, abstract_patterns_group. Qed.

Lemma fold_app_concat : forall (pages : list text) (acc : text),
  fold_left (fun acc page => acc ++ page) pages acc = acc ++ concat pages.
Proof.
  induction pages as [|p pages IH]; intros acc; cbn [fold_left concat].
  - rewrite app_nil_r. reflexivity.
  - rewrite IH, app_assoc. reflexivity.
Qed.

Lemma docx_step_full_text (para : LiteratureManager.paragraph)
    (s : LiteratureManager.docx_state) :
  LiteratureManager.d_full_text (LiteratureManager.docx_step para s)
  = LiteratureManager.d_full_text s
    ++ match strip (LiteratureManager.para_text para) with
       | [] => []
       | line => line ++ [LF]
       end.
Proof.
  unfold LiteratureManager.docx_step.
  destruct (strip (LiteratureManager.para_text para)) as [|c line].
  - rewrite app_nil_r. reflexivity.
  - destruct (startswith _ _); reflexivity.
Qed.

Lemma docx_fold_full_text : forall (paragraphs : list LiteratureManager.paragraph)
    (s : LiteratureManager.docx_state),
  LiteratureManager.d_full_text
    (fold_left (fun s para => LiteratureManager.docx_step para s)
               paragraphs s)
  = LiteratureManager.d_full_text s
    ++ flat_map (fun para =>
                   match strip (LiteratureManager.para_text para) with
                   | [] => []
                   | line => line ++ [LF]
                   end) paragraphs.
Proof.
  induction paragraphs as [|para paragraphs IH]; intros s;
    cbn [fold_left flat_map].
  - rewrite app_nil_r. reflexivity.
  - rewrite IH, docx_step_full_text, app_assoc. reflexivity.
Qed.

End ParserFacts.

(** X20. The title of a document is 未知标题 or a line of the document: more
    than 10 and fewer than 200 characters without white space around them
    and without line feed, which stand in the text as they are.  It is
    never empty. *)
Theorem extract_title_shape (t : text) :
  let r := LiteratureManager.extract_title t in
  r <> [] /\
  (r = u "未知标题" \/
   10 < length r < 200 /\ strip r = r /\ one_line r = true /\
   contains r t = true).
Proof.
  cbv zeta. unfold LiteratureManager.extract_title.
  destruct (first_title_cases (firstn 5 (split LF (strip t))))
    as [E|(line & I & E & B)]; rewrite E.
  - split; [|left; reflexivity]. intros H. vm_compute in H. discriminate H.
  - assert (NE : strip line <> []).
    { intros H. rewrite H in B. cbn [length] in B. lia. }
    split; [exact NE|]. right.
    assert (I' : In line (split LF (strip t))).
    { rewrite <- (firstn_skipn 5 (split LF (strip t))).
      apply in_or_app. left. exact I. }
    apply split_In in I'. destruct I' as [C L].
    split; [exact B|]. split; [apply strip_idem|]. split.
    + unfold one_line.
      rewrite (existsb_lf_contained (strip line) line (contains_strip line) L).
      destruct (strip line); [exfalso; apply NE; reflexivity | reflexivity].
    + eapply contains_trans; [apply contains_strip|].
      eapply contains_trans; [exact C | apply contains_strip].
Qed.

(** X21. Extracting the abstract raises nothing: group 1 takes part in every
    match of the two patterns.  The abstract has no white space around it
    and stands in the text as it is. *)
Theorem extract_abstract_total (t : text) :
  exists a, LiteratureManager.extract_abstract t = inr a /\
            strip a = a /\ contains a t = true.
Proof. apply extract_abstract_returns. Qed.

(** X23. A PDF file that the library opens is always parsed, and segmented as
    the texts of its pages put end to end: nothing is put between two
    pages, so a page break does not end a section. *)
Theorem pdf_proposal_sections (splitext : text -> text * text)
    (lower : text -> text) (fitz_pages : text -> exn + list text)
    (docx_paragraphs : text -> exn + list LiteratureManager.paragraph)
    (file_path : text) (pages : list text) :
  lower (snd (splitext file_path)) = u ".pdf" ->
  fitz_pages file_path = inr pages ->
  reviewer_parse_proposal splitext lower fitz_pages docx_paragraphs file_path
  = inr (_extract_sections (concat pages)).
Proof.
  intros E P. unfold reviewer_parse_proposal, parse_proposal. rewrite E.
  replace (Py.eqb (u ".pdf") (u ".pdf")) with true by (vm_compute; reflexivity).
  unfold LiteratureManager.PDFParser_parse. rewrite P.
  rewrite fold_app_concat. cbn [app].
  destruct (extract_abstract_returns (concat pages)) as (a & -> & _).
  reflexivity.
Qed.

(** X24. A Word file that the library opens is always parsed, and segmented as
    the texts of its paragraphs that are not blank, each stripped and
    followed by a line feed: the styles of the paragraphs play no part, so
    the headings of the Word file are told from the rest by the patterns
    only. *)
Theorem docx_proposal_sections (splitext : text -> text * text)
    (lower : text -> text) (fitz_pages : text -> exn + list text)
    (docx_paragraphs : text -> exn + list LiteratureManager.paragraph)
    (file_path : text) (paragraphs : list LiteratureManager.paragraph) :
  lower (snd (splitext file_path)) = u ".docx" \/
  lower (snd (splitext file_path)) = u ".doc" ->
  docx_paragraphs file_path = inr paragraphs ->
  reviewer_parse_proposal splitext lower fitz_pages docx_paragraphs file_path
  = inr (_extract_sections
           (flat_map (fun para =>
                        match strip (LiteratureManager.para_text para) with
                        | [] => []
                        | line => line ++ [LF]
                        end) paragraphs)).
Proof.
  intros E P. unfold reviewer_parse_proposal, parse_proposal.
  assert (X : Py.eqb (lower (snd (splitext file_path))) (u ".pdf") = false
              /\ Py.eqb (lower (snd (splitext file_path))) (u ".docx")
                 || Py.eqb (lower (snd (splitext file_path))) (u ".doc")
                 = true).
  { destruct E as [-> | ->]; split; vm_compute; reflexivity. }
  destruct X as [-> ->].
  unfold LiteratureManager.DocxParser_parse. rewrite P. cbv zeta.
  unfold LiteratureManager.docx_loop. rewrite docx_fold_full_text.
  cbn [LiteratureManager.d_full_text app].
  match goal with
  | |- context [LiteratureManager.extract_abstract ?t] =>
    destruct (extract_abstract_returns t) as (a & -> & _)
  end.
  reflexivity.
Qed.

Lemma pdf_proposal_sections_witness :
  reviewer_parse_proposal sample_splitext sample_lower
    (fun _ => inr [u "一、立项"; u "依据" ++ [LF] ++ repeat 97%N 60])
    (fun _ => inl (Exception_ (u "not a Word document")))
    (u "proposal.PDF")
  = inr (_extract_sections
           (concat [u "一、立项"; u "依据" ++ [LF] ++ repeat 97%N 60])).
Proof.
  apply (pdf_proposal_sections sample_splitext sample_lower
           (fun _ => inr [u "一、立项"; u "依据" ++ [LF] ++ repeat 97%N 60])
           (fun _ => inl (Exception_ (u "not a Word document")))
           (u "proposal.PDF")
           [u "一、立项"; u "依据" ++ [LF] ++ repeat 97%N 60]);
    reflexivity.
Defined.

Lemma docx_proposal_sections_witness :
  reviewer_parse_proposal (fun _ => (u "proposal", u ".DOCX"))
    (fun _ => u ".docx")
    (fun _ => inl (Exception_ (u "not a PDF file")))
    (fun _ => inr sample_paragraphs)
    (u "proposal.DOCX")
  = inr (_extract_sections
           (flat_map (fun para =>
                        match strip (LiteratureManager.para_text para) with
                        | [] => []
                        | line => line ++ [LF]
                        end) sample_paragraphs)).
Proof.
  apply (docx_proposal_sections (fun _ => (u "proposal", u ".DOCX"))
           (fun _ => u ".docx")
           (fun _ => inl (Exception_ (u "not a PDF file")))
           (fun _ => inr sample_paragraphs)
           (u "proposal.DOCX") sample_paragraphs).
  - left. reflexivity.
  - reflexivity.
Defined.

(** * A response that ignores the format *)

Section FormatFacts.

Lemma search_literal (h : text) (r : regex) (t : text) :
  contains h t = false -> search (Cat (Lit h) r) t = None.
Proof.
  intros C. destruct (search (Cat (Lit h) r) t) as [x|] eqn:S; [|reflexivity].
  apply search_sound in S. destruct S as (pre & w & after & E & M & _).
  apply Matches_Cat_inv in M. destruct M as (w1 & w2 & g1 & -> & M1 & _).
  apply Matches_Lit_inv in M1. destruct M1 as [-> _].
  rewrite E, <- app_assoc, contains_app in C. discriminate C.
Qed.

End FormatFacts.

(** X14. A response that holds none of the four headings of the format is
    parsed all the same, whatever the limit on integer conversions: the
    score is 6, the issues and the suggestions are the two placeholders,
    and the revised content is the response itself. *)
Theorem response_without_headings (maxd : nat)
    (name original response : text) :
  contains (u "评分") response = false ->
  contains (u "主要问题") response = false ->
  contains (u "修改建议") response = false ->
  contains (u "修改后的完整内容") response = false ->
  _parse_review_response maxd name original response
  = inr (mkReviewResult name original
           [u "未能提取具体问题"] [u "未能提取具体建议"] response 6).
Proof.
  intros A B C D.
  unfold _parse_review_response, numbered_items.
  unfold SCORE_RE, ISSUES_RE, SUGGESTIONS_RE, REVISED_RE. cbn [seq].
  rewrite (search_literal _ _ _ A), (search_literal _ _ _ B),
    (search_literal _ _ _ C), (search_literal _ _ _ D).
  reflexivity.
Qed.

Lemma response_without_headings_witness :
  _parse_review_response 4300 RATIONALE (u "原文") garbled_response
  = inr (mkReviewResult RATIONALE (u "原文")
           [u "未能提取具体问题"] [u "未能提取具体建议"] garbled_response 6).
Proof.
  apply (response_without_headings 4300 RATIONALE (u "原文")
           garbled_response); vm_compute; reflexivity.
Defined.

(** * Which heading of a section counts *)

(** X3. Of the patterns of a section the first in the list that matches
    anywhere decides, at its leftmost match: a pattern further down the
    list is not looked at, also when it matches earlier in the text. *)
Theorem heading_priority (name : text) (earlier : list regex) (p : regex)
    (later : list regex) (t : text) (x : match_) :
  (forall q, In q earlier -> search q t = None) ->
  search p t = Some x ->
  first_heading name (earlier ++ p :: later) t
  = [mkHeading (m_start x) name (group0 t x)].
Proof.
  intros E S. induction earlier as [|q earlier IH]; cbn [app first_heading].
  - rewrite finditer_head, S. reflexivity.
  - rewrite (proj2 (finditer_nil q t)) by (apply E; left; reflexivity).
    apply IH. intros q' H. apply E. right. exact H.
Qed.

Lemma heading_priority_witness :
  first_heading PLAN
    ([numbered "三3３" "研究方案";
      seq [Lit (u "研究方案"); One CONJ; Lit (u "可行性")]]
     ++ Lit (u "技术路线") :: [Lit (u "研究方法")])
    (u "研究方法如下。技术路线")
  = [mkHeading 7 PLAN (u "技术路线")].
Proof.
  apply (heading_priority PLAN
           [numbered "三3３" "研究方案";
            seq [Lit (u "研究方案"); One CONJ; Lit (u "可行性")]]
           (Lit (u "技术路线")) [Lit (u "研究方法")]
           (u "研究方法如下。技术路线") (Match 7 11 None)).
  - intros q [<-|[<-|[]]]; vm_compute; reflexivity.
  - vm_compute. reflexivity.
Defined.

(** * The sections that the Word parser keeps *)

Section DocxFacts.

Import LiteratureManager.

Variable paragraphs : list paragraph.

Lemma dict_set_In (k : text) (v : text) : forall (d : dict text) k' v',
  In (k', v') (dict_set k v d) -> (k', v') = (k, v) \/ In (k', v') d.
Proof.
  induction d as [|[k0 v0] d IH]; intros k' v' H; cbn [dict_set] in H.
  - destruct H as [H|[]]. left. symmetry. exact H.
  - destruct (Py.eqb k0 k) eqn:E.
    + destruct H as [H|H].
      * apply eqb_spec in E. subst k0. left. symmetry. exact H.
      * right. right. exact H.
    + destruct H as [H|H].
      * right. left. exact H.
      * destruct (IH _ _ H) as [H'|H']; [left; exact H'|right; right; exact H'].
Qed.

Lemma join_nonempty (sep : text) (p : text) (ps : list text) :
  p <> [] -> join sep (p :: ps) <> [].
Proof.
  intros NE. cbn [join]. destruct ps as [|q ps]; [exact NE|].
  destruct p; [exfalso; apply NE; reflexivity | discriminate].
Qed.

Lemma flush_sound (s : docx_state) : docx_steady paragraphs s -> docx_sound paragraphs (flush s).
Proof.
  intros ((N & V) & T & C). unfold flush.
  destruct (current_content s) as [|line content] eqn:E; [split; assumption|].
  split; [apply NoDup_keys_dict_set, N|].
  intros k v H. apply dict_set_In in H. destruct H as [H|H]; [|apply V, H].
  injection H as -> ->. split; [|exact T].
  apply (join_nonempty [LF] line content). inversion C; assumption.
Qed.

Lemma docx_step_steady (para : paragraph) (s : docx_state) :
  In para paragraphs -> docx_steady paragraphs s -> docx_steady paragraphs (docx_step para s).
Proof.
  intros I S. unfold docx_step.
  destruct (strip (para_text para)) as [|c line] eqn:E; [exact S|].
  destruct (startswith (u "Heading") (style_name para)) eqn:H.
  - cbn [d_sections current_section current_content].
    split; [apply flush_sound, S|]. split; [|constructor].
    right. exists para. rewrite E. auto.
  - cbn [d_sections current_section current_content].
    destruct S as (D & T & C). split; [exact D|]. split; [exact T|].
    apply Forall_app. split; [exact C|].
    constructor; [discriminate | constructor].
Qed.

Lemma docx_fold_steady : forall (l : list paragraph) (s : docx_state),
  (forall para, In para l -> In para paragraphs) -> docx_steady paragraphs s ->
  docx_steady paragraphs (fold_left (fun s para => docx_step para s) l s).
Proof.
  induction l as [|para l IH]; intros s I S; cbn [fold_left]; [exact S|].
  apply IH.
  - intros p H. apply I. right. exact H.
  - apply docx_step_steady; [apply I; left; reflexivity | exact S].
Qed.

Lemma docx_sections_sound :
  NoDup (keys (flush (docx_loop paragraphs))) /\
  forall k v, In (k, v) (flush (docx_loop paragraphs)) ->
    v <> [] /\
    (k = u "正文" \/
     exists para, In para paragraphs /\
       startswith (u "Heading") (style_name para) = true /\
       k = strip (para_text para)).
Proof.
  apply flush_sound. unfold docx_loop. apply docx_fold_steady; [auto|].
  split; [split; [constructor | intros k v []]|].
  split; [left; reflexivity | constructor].
Qed.

End DocxFacts.

(** X25. A Word file that the library opens is always parsed.  The sections of
    the result have distinct names, each 正文 or the text of a paragraph in
    the style of headings, and none of them is empty: a heading with no
    text under it gets no section. *)
Theorem docx_sections_shape
    (docx_paragraphs : text -> exn + list LiteratureManager.paragraph)
    (file_path : text) (paragraphs : list LiteratureManager.paragraph) :
  docx_paragraphs file_path = inr paragraphs ->
  exists c,
    LiteratureManager.DocxParser_parse docx_paragraphs file_path = inr c /\
    LiteratureManager.source_file c = file_path /\
    NoDup (keys (LiteratureManager.sections c)) /\
    forall k v, In (k, v) (LiteratureManager.sections c) ->
      v <> [] /\
      (k = u "正文" \/
       exists para, In para paragraphs /\
         startswith (u "Heading") (LiteratureManager.style_name para) = true /\
         k = strip (LiteratureManager.para_text para)).
Proof.
  intros P. unfold LiteratureManager.DocxParser_parse. rewrite P. cbv zeta.
  match goal with
  | |- context [LiteratureManager.extract_abstract ?t] =>
    destruct (extract_abstract_returns t) as (a & -> & _)
  end.
  eexists. split; [reflexivity|].
  cbn [LiteratureManager.source_file LiteratureManager.sections].
  split; [reflexivity|]. apply docx_sections_sound.
Qed.

Lemma docx_sections_shape_witness :
  exists c,
    LiteratureManager.DocxParser_parse (fun _ => inr sample_paragraphs)
      (u "proposal.docx") = inr c /\
    LiteratureManager.source_file c = u "proposal.docx" /\
    NoDup (keys (LiteratureManager.sections c)) /\
    forall k v, In (k, v) (LiteratureManager.sections c) ->
      v <> [] /\
      (k = u "正文" \/
       exists para, In para sample_paragraphs /\
         startswith (u "Heading") (LiteratureManager.style_name para) = true /\
         k = strip (LiteratureManager.para_text para)).
Proof.
  apply (docx_sections_shape (fun _ => inr sample_paragraphs)
           (u "proposal.docx") sample_paragraphs).
  reflexivity.
Defined.

(** * Where an abstract ends *)

Section StopFacts.

Lemma Matches_ignore_case : forall (s : text) p w after g g',
  Matches (ignore_case s) p w after g g' ->
  starts_ignoring_case s (w ++ after) = true /\ g' = g.
Proof.
  unfold ignore_case.
  induction s as [|c s IH]; intros p w after g g' M.
  - cbn [map seq] in M. apply Matches_Lit_inv in M. destruct M as [-> ->].
    split; reflexivity.
  - destruct s as [|c' s].
    + cbn [map seq] in M. apply Matches_One_inv in M.
      destruct M as (d & -> & I & ->).
      cbn [app starts_ignoring_case]. rewrite I. split; reflexivity.
    + change (seq (map (fun c => One (Chars (case_variants c))) (c :: c' :: s)))
        with (Cat (One (Chars (case_variants c)))
                  (seq (map (fun c => One (Chars (case_variants c)))
                            (c' :: s)))) in M.
      apply Matches_Cat_inv in M. destruct M as (w1 & w2 & g1 & -> & M1 & M2).
      apply Matches_One_inv in M1. destruct M1 as (d & -> & I & ->).
      apply IH in M2. destruct M2 as [S ->].
      cbn [app starts_ignoring_case]. rewrite I. split; [exact S|reflexivity].
Qed.

Lemma Matches_Ahead_inv r p w after g g' :
  Matches (Ahead r) p w after g g' ->
  w = [] /\ exists w' after' , after = w' ++ after' /\
                               Matches r p w' after' g g'.
Proof. inversion 1; subst. split; [reflexivity|]. eauto. Qed.

Lemma Matches_Or_inv r1 r2 p w after g g' :
  Matches (Or r1 r2) p w after g g' ->
  Matches r1 p w after g g' \/ Matches r2 p w after g g'.
Proof. inversion 1; subst; auto. Qed.

Lemma stop_ahead (stop : regex) (p : nat) (after : text) g g' :
  In stop
     [ Or (Lit [LF; LF])
          (Or (ignore_case (u "Introduction")) (ignore_case (u "Keywords")));
       Or (Lit [LF; LF])
          (Or (Lit (u "关键词"))
              (Or (Cat (Lit (u "1")) (One [Space])) (Lit (u "一、")))) ] ->
  Matches (Ahead stop) p [] after g g' -> stop_marker after = true.
Proof.
  intros I M. apply Matches_Ahead_inv in M.
  destruct M as (_ & w' & after' & -> & M). unfold stop_marker.
  destruct I as [<-|[<-|[]]].
  - apply Matches_Or_inv in M. destruct M as [M|M].
    + apply Matches_Lit_inv in M. destruct M as [-> _].
      rewrite startswith_app. reflexivity.
    + apply Matches_Or_inv in M. destruct M as [M|M];
        apply Matches_ignore_case in M; destruct M as [-> _];
        rewrite ?orb_true_r; reflexivity.
  - apply Matches_Or_inv in M. destruct M as [M|M].
    + apply Matches_Lit_inv in M. destruct M as [-> _].
      rewrite startswith_app. reflexivity.
    + apply Matches_Or_inv in M. destruct M as [M|M].
      * apply Matches_Lit_inv in M. destruct M as [-> _].
        rewrite startswith_app, ?orb_true_r. reflexivity.
      * apply Matches_Or_inv in M. destruct M as [M|M].
        -- apply Matches_Cat_inv in M.
           destruct M as (w1 & w2 & g1 & -> & M1 & M2).
           apply Matches_Lit_inv in M1. destruct M1 as [-> _].
           apply Matches_One_inv in M2. destruct M2 as (d & -> & I & _).
           cbn [in_cset existsb in_citem] in I. rewrite orb_false_r in I.
           replace ((u "1" ++ [d]) ++ after') with (49%N :: d :: after')
             by reflexivity.
           cbv beta iota. rewrite I. cbn [N.eqb Pos.eqb andb].
           rewrite ?orb_true_r. reflexivity.
        -- apply Matches_Lit_inv in M. destruct M as [-> _].
           rewrite startswith_app, ?orb_true_r. reflexivity.
Qed.

Lemma no_stop_no_match (t : text) (pattern : regex) :
  In pattern LiteratureManager.ABSTRACT_PATTERNS ->
  forallb (fun post => negb (stop_marker post)) (suffixes t) = true ->
  search pattern t = None.
Proof.
  intros I F. destruct (search pattern t) as [x|] eqn:S; [|reflexivity].
  exfalso. apply search_sound in S.
  destruct S as (pre & w & after & E & M & _).
  assert (A : stop_marker after = true).
  { destruct I as [<-|[<-|[]]]; cbn [seq] in M.
    - apply Matches_Cat_inv in M. destruct M as (w1 & v1 & g1 & -> & _ & M).
      apply Matches_Cat_inv in M. destruct M as (w2 & v2 & g2 & -> & _ & M).
      apply Matches_Cat_inv in M. destruct M as (w3 & v3 & g3 & -> & _ & M).
      pose proof (Matches_Ahead_inv _ _ _ _ _ _ M) as [-> _].
      eapply stop_ahead; [|exact M]. left. reflexivity.
    - apply Matches_Cat_inv in M. destruct M as (w1 & v1 & g1 & -> & _ & M).
      apply Matches_Cat_inv in M. destruct M as (w2 & v2 & g2 & -> & _ & M).
      apply Matches_Cat_inv in M. destruct M as (w3 & v3 & g3 & -> & _ & M).
      apply Matches_Cat_inv in M. destruct M as (w4 & v4 & g4 & -> & _ & M).
      apply Matches_Cat_inv in M. destruct M as (w5 & v5 & g5 & -> & _ & M).
      pose proof (Matches_Ahead_inv _ _ _ _ _ _ M) as [-> _].
      eapply stop_ahead; [|exact M]. right. left. reflexivity. }
  assert (NE : after <> []).
  { intros ->. vm_compute in A. discriminate A. }
  rewrite forallb_forall in F.
  specialize (F after). rewrite A in F.
  assert (X : In after (suffixes t)).
  { apply (suffixes_In t (pre ++ w) after); [|exact NE].
    rewrite E, app_assoc. reflexivity. }
  specialize (F X). discriminate F.
Qed.

End StopFacts.

(** X22. An abstract is found only where something ends it.  In a text without
    blank line, without the words Introduction, Keywords and 关键词, without
    a 1 followed by white space and without 一、, no abstract is found,
    also when the text holds the heading of an abstract: the end of the
    text does not end an abstract. *)
Theorem abstract_needs_stop_marker (t : text) :
  forallb (fun post => negb (stop_marker post)) (suffixes t) = true ->
  LiteratureManager.extract_abstract t = inr [].
Proof.
  intros F. unfold LiteratureManager.extract_abstract.
  assert (A : forall patterns,
            (forall p, In p patterns ->
                       In p LiteratureManager.ABSTRACT_PATTERNS) ->
            LiteratureManager.first_abstract patterns t = inr []).
  { induction patterns as [|p patterns IH]; intros I; [reflexivity|].
    cbn [LiteratureManager.first_abstract].
    rewrite (no_stop_no_match t p (I p (or_introl eq_refl)) F).
    apply IH. intros q H. apply I. right. exact H. }
  apply A. auto.
Qed.

Lemma abstract_needs_stop_marker_witness :
  LiteratureManager.extract_abstract
    (u "Abstract: We study the review of proposals.") = inr [].
Proof.
  apply (abstract_needs_stop_marker
           (u "Abstract: We study the review of proposals.")).
  vm_compute. reflexivity.
Defined.

(** * The Word export *)

Section ExportFacts.

Variable Doc : Type.
Variable new_document : exn + Doc.
Variable add_title add_heading add_paragraph : text -> Doc -> exn + Doc.
Variable save_temp : Doc -> exn + text.

Lemma add_sections_fold (r1 r2 : dict ReviewResult) :
  forall (order : list text) (acc : exn + Doc),
  (forall name, In name order ->
     option_map revised_content (dict_get name r1)
     = option_map revised_content (dict_get name r2)) ->
  fold_left
    (fun acc section_name =>
       match acc with
       | inl e => inl e
       | inr doc =>
         match dict_get section_name r1 with
         | Some result =>
           match add_heading section_name doc with
           | inl e => inl e
           | inr doc =>
             App.add_paragraphs Doc add_paragraph (revised_content result) doc
           end
         | None => inr doc
         end
       end) order acc
  = fold_left
      (fun acc section_name =>
         match acc with
         | inl e => inl e
         | inr doc =>
           match dict_get section_name r2 with
           | Some result =>
             match add_heading section_name doc with
             | inl e => inl e
             | inr doc =>
               App.add_paragraphs Doc add_paragraph (revised_content result)
                                  doc
             end
           | None => inr doc
           end
         end) order acc.
Proof.
  induction order as [|name order IH]; intros acc H; [reflexivity|].
  cbn [fold_left].
  assert (E : option_map revised_content (dict_get name r1)
              = option_map revised_content (dict_get name r2))
    by (apply H; left; reflexivity).
  destruct (dict_get name r1) as [a|], (dict_get name r2) as [b|];
    cbn [option_map] in E; try discriminate E.
  - injection E as E. rewrite E. apply IH.
    intros n I. apply H. right. exact I.
  - apply IH. intros n I. apply H. right. exact I.
Qed.

Lemma add_sections_none (results : dict ReviewResult) :
  forall (order : list text) (doc : Doc),
  (forall name, In name order -> dict_get name results = None) ->
  fold_left
    (fun acc section_name =>
       match acc with
       | inl e => inl e
       | inr doc =>
         match dict_get section_name results with
         | Some result =>
           match add_heading section_name doc with
           | inl e => inl e
           | inr doc =>
             App.add_paragraphs Doc add_paragraph (revised_content result) doc
           end
         | None => inr doc
         end
       end) order (inr doc)
  = inr doc.
Proof.
  induction order as [|name order IH]; intros doc H; [reflexivity|].
  cbn [fold_left]. rewrite (H name (or_introl eq_refl)).
  apply IH. intros n I. apply H. right. exact I.
Qed.

End ExportFacts.

(** X26. The Word export reads the revised contents of the six canonical
    sections and nothing else of the results: two mappings of results that
    are not empty and agree on them are exported alike, to the same file or
    with the same failure. *)
Theorem word_export_reads_canonical_sections (Doc : Type)
    (new_document : exn + Doc)
    (add_title add_heading add_paragraph : text -> Doc -> exn + Doc)
    (save_temp : Doc -> exn + text)
    (results results' : dict ReviewResult) (out : list text) :
  results <> [] -> results' <> [] ->
  (forall name, In name section_order ->
     option_map revised_content (dict_get name results)
     = option_map revised_content (dict_get name results')) ->
  App.export_revised_docx Doc new_document add_title add_heading
    add_paragraph save_temp results out
  = App.export_revised_docx Doc new_document add_title add_heading
      add_paragraph save_temp results' out.
Proof.
  intros N N' H. unfold App.export_revised_docx.
  destruct results as [|e l]; [exfalso; apply N; reflexivity|].
  destruct results' as [|e' l']; [exfalso; apply N'; reflexivity|].
  destruct new_document as [x|doc]; [reflexivity|].
  destruct (add_title _ doc) as [x|doc']; [reflexivity|].
  unfold App.add_sections.
  rewrite (add_sections_fold Doc add_heading add_paragraph (e :: l) (e' :: l')
             section_order (inr doc') H).
  reflexivity.
Qed.

Lemma word_export_reads_canonical_sections_witness :
  App.export_revised_docx (list text) (inr [])
    (fun t doc => inr (doc ++ [t])) (fun t doc => inr (doc ++ [t]))
    (fun t doc => inr (doc ++ [t])) (fun doc => inr (concat doc))
    sample_results []
  = App.export_revised_docx (list text) (inr [])
      (fun t doc => inr (doc ++ [t])) (fun t doc => inr (doc ++ [t]))
      (fun t doc => inr (doc ++ [t])) (fun doc => inr (concat doc))
      sample_results_swapped [].
Proof.
  apply (word_export_reads_canonical_sections (list text) (inr [])
           (fun t doc => inr (doc ++ [t])) (fun t doc => inr (doc ++ [t]))
           (fun t doc => inr (doc ++ [t])) (fun doc => inr (concat doc))
           sample_results sample_results_swapped []).
  - discriminate.
  - discriminate.
  - intros name [<-|[<-|[<-|[<-|[<-|[<-|[]]]]]]]; vm_compute; reflexivity.
Defined.

(** X27. Sections under other names than the six canonical ones do not reach
    the Word file.  When no result stands under a canonical name, as after
    the review of a text in which no section was told apart and which was
    reviewed as 全文, the file is saved with its title and nothing else,
    while the revised proposal in Markdown holds the text. *)
Theorem word_export_drops_other_sections (Doc : Type)
    (new_document : exn + Doc)
    (add_title add_heading add_paragraph : text -> Doc -> exn + Doc)
    (save_temp : Doc -> exn + text)
    (results : dict ReviewResult) (out : list text) :
  results <> [] ->
  (forall name, In name (keys results) -> ~ In name section_order) ->
  App.export_revised_docx Doc new_document add_title add_heading
    add_paragraph save_temp results out
  = match
      match new_document with
      | inl e => inl e
      | inr doc =>
        match add_title (u "国自然科学基金申请书（修改版）") doc with
        | inl e => inl e
        | inr doc => save_temp doc
        end
      end
    with
    | inr path => (Some path, out)
    | inl e => (None, out ++ [u "导出失败: " ++ str_of_exn e])
    end.
Proof.
  intros N H. unfold App.export_revised_docx.
  destruct results as [|e l]; [exfalso; apply N; reflexivity|].
  destruct new_document as [x|doc]; [reflexivity|].
  destruct (add_title _ doc) as [x|doc']; [reflexivity|].
  unfold App.add_sections.
  rewrite (add_sections_none Doc add_heading add_paragraph (e :: l)
             section_order doc'); [reflexivity|].
  intros name I. destruct (dict_get name (e :: l)) as [r|] eqn:D;
    [|reflexivity].
  exfalso. apply (H name); [|exact I].
  apply dict_mem_In. unfold dict_mem. rewrite D. reflexivity.
Qed.

Lemma word_export_drops_other_sections_witness :
  App.export_revised_docx (list text) (inr [])
    (fun t doc => inr (doc ++ [t])) (fun t doc => inr (doc ++ [t]))
    (fun t doc => inr (doc ++ [t])) (fun doc => inr (concat doc))
    [(FULL_TEXT, sample_result FULL_TEXT)] []
  = (Some (u "国自然科学基金申请书（修改版）"), []).
Proof.
  apply (word_export_drops_other_sections (list text) (inr [])
           (fun t doc => inr (doc ++ [t])) (fun t doc => inr (doc ++ [t]))
           (fun t doc => inr (doc ++ [t])) (fun doc => inr (concat doc))
           [(FULL_TEXT, sample_result FULL_TEXT)] []).
  - discriminate.
  - intros name [<-|[]] I. vm_compute in I.
    repeat (destruct I as [I|I]; [discriminate I|]). exact I.
Defined.

(** * The rule-based review, in the words of the specification *)

Section RubricFacts.

Lemma occurs_contains (sub t : text) : occurs sub t <-> contains sub t = true.
Proof.
  split.
  - intros (pre & post & ->). apply contains_app.
  - apply contains_inv.
Qed.

Lemma eqb_sym (a b : text) : Py.eqb a b = Py.eqb b a.
Proof.
  destruct (Py.eqb a b) eqn:E, (Py.eqb b a) eqn:F; try reflexivity.
  - apply eqb_spec in E. subst. rewrite eqb_refl in F. discriminate F.
  - apply eqb_spec in F. subst. rewrite eqb_refl in E. discriminate E.
Qed.

Lemma rubric_keywords_table (name : text) :
  keywords (criteria_for name) = rubric_keywords name.
Proof.
  unfold rubric_keywords, criteria_for, RATIONALE_CRITERIA.
  unfold REVIEW_CRITERIA. cbn [dict_get].
  rewrite (eqb_sym name (u "立项依据")), (eqb_sym name (u "研究内容")),
    (eqb_sym name (u "研究方案")), (eqb_sym name (u "创新点")),
    (eqb_sym name (u "预期成果")), (eqb_sym name (u "研究基础")).
  change RATIONALE with (u "立项依据"). change CONTENT with (u "研究内容").
  change PLAN with (u "研究方案"). change INNOVATION with (u "创新点").
  change OUTCOMES with (u "预期成果"). change FOUNDATION with (u "研究基础").
  destruct (Py.eqb (u "立项依据") name); [reflexivity|].
  destruct (Py.eqb (u "研究内容") name); [reflexivity|].
  destruct (Py.eqb (u "研究方案") name); [reflexivity|].
  destruct (Py.eqb (u "创新点") name); [reflexivity|].
  destruct (Py.eqb (u "预期成果") name); [reflexivity|].
  destruct (Py.eqb (u "研究基础") name); reflexivity.
Qed.

Lemma missing_absent (content : text) : forall kws : list text,
  Absent content kws (filter (fun kw => negb (contains kw content)) kws).
Proof.
  induction kws as [|kw kws IH]; [constructor|].
  cbn [filter]. destruct (contains kw content) eqn:C; cbn [negb].
  - apply Absent_found; [apply occurs_contains, C | exact IH].
  - apply Absent_missing; [|exact IH].
    intros O. apply occurs_contains in O. rewrite C in O. discriminate O.
Qed.

Lemma Absent_all (content : text) : forall kws absent : list text,
  Absent content kws absent ->
  (absent = [] <-> forall kw, In kw kws -> occurs kw content).
Proof.
  intros kws absent A. induction A as [|kw kws absent O A IH|kw kws absent O A IH].
  - split; [intros _ kw []|reflexivity].
  - rewrite IH. split.
    + intros H k [<-|I]; auto.
    + intros H k I. apply H. right. exact I.
  - split; [intros H; discriminate H|].
    intros H. exfalso. apply O, H. left. reflexivity.
Qed.

(** Searching finds a match wherever one starts. *)
Lemma search_from_complete (r : regex) : forall (pre rest : text) (p : nat),
  match_at r (p + length pre) rest <> None ->
  search_from r p (pre ++ rest) <> None.
Proof.
  induction pre as [|c pre IH]; intros rest p H.
  - cbn [app length] in *. replace (p + 0) with p in H by lia.
    destruct rest; cbn [search_from]; destruct (match_at r p _);
      try discriminate; exfalso; apply H; reflexivity.
  - cbn [app search_from]. destruct (match_at r p (c :: pre ++ rest));
      [discriminate|].
    apply IH. cbn [length] in H.
    replace (S p + length pre) with (p + S (length pre)) by lia. exact H.
Qed.

Lemma found_complete (r : regex) (pre rest : text) :
  match_at r (length pre) rest <> None -> found r (pre ++ rest) = true.
Proof.
  intros H. unfold found, search.
  pose proof (search_from_complete r pre rest 0 H) as S.
  destruct (search_from r 0 (pre ++ rest)); [reflexivity|].
  exfalso. apply S. reflexivity.
Qed.

Lemma in_cset_Chars (s : text) (c : char) :
  in_cset (Chars s) c = true <-> In c s.
Proof.
  unfold in_cset, Chars. rewrite existsb_exists. split.
  - intros (i & I & H). apply in_map_iff in I. destruct I as (a & <- & I).
    cbn [in_citem] in H. apply N.eqb_eq in H. subst. exact I.
  - intros I. exists (Chr c). split; [apply in_map, I|].
    cbn [in_citem]. apply N.eqb_refl.
Qed.

Lemma in_cset_middle (b : char) :
  in_cset (Chars (u "一二三四五") ++ [Range 49%N 53%N]) b = true <->
  In b (u "一二三四五") \/ (49 <= b <= 53)%N.
Proof.
  unfold in_cset. rewrite existsb_app, orb_true_iff.
  fold (in_cset (Chars (u "一二三四五")) b). rewrite in_cset_Chars.
  cbn [existsb in_citem]. rewrite orb_false_r, andb_true_iff.
  rewrite !N.leb_le. reflexivity.
Qed.

Lemma found_structure (content : text) :
  found STRUCTURE_RE content = true <-> enumerated content.
Proof.
  split.
  - unfold found. destruct (search STRUCTURE_RE content) as [x|] eqn:S;
      [intros _|intros H; discriminate H].
    apply search_sound in S. destruct S as (pre & w & after & E & M & _).
    unfold STRUCTURE_RE in M. cbn [seq] in M.
    apply Matches_Cat_inv in M. destruct M as (w1 & w' & g1 & -> & M1 & M).
    apply Matches_Cat_inv in M. destruct M as (w2 & w3 & g2 & -> & M2 & M3).
    apply Matches_One_inv in M1. destruct M1 as (a & -> & Ia & _).
    apply Matches_One_inv in M2. destruct M2 as (b & -> & Ib & _).
    apply Matches_One_inv in M3. destruct M3 as (c & -> & Ic & _).
    exists pre, a, b, c, after. split; [exact E|].
    split; [apply in_cset_Chars, Ia|].
    split; [apply in_cset_middle, Ib | apply in_cset_Chars, Ic].
  - intros (pre & a & b & c & post & -> & Ia & Ib & Ic).
    apply found_complete. unfold match_at, STRUCTURE_RE.
    cbn [seq m rest pos grp app].
    rewrite (proj2 (in_cset_Chars _ a) Ia). cbn [rest pos grp].
    rewrite (proj2 (in_cset_middle b) Ib). cbn [rest pos grp].
    rewrite (proj2 (in_cset_Chars _ c) Ic). discriminate.
Qed.

Lemma rep_greedy_digits (k : cont) (post : text) (g : option (nat * nat)) :
  (forall p, k (St p (93%N :: post) g) <> None) ->
  forall (digits : text) (n p : nat),
  forallb isdecimal digits = true -> 1 <= n + length digits ->
  rep_greedy [Digit] 1 None k n p (digits ++ 93%N :: post) g <> None.
Proof.
  intros K. induction digits as [|d digits IH]; intros n p D L.
  - cbn [app rep_greedy]. cbn [length] in L.
    replace (in_cset [Digit] 93%N) with false by (vm_compute; reflexivity).
    cbn [andb]. destruct (1 <=? n) eqn:E; [apply K|].
    apply Nat.leb_gt in E. lia.
  - cbn [forallb] in D. apply andb_prop in D. destruct D as [Dd D].
    cbn [app rep_greedy in_cset existsb in_citem below].
    rewrite Dd. cbn [orb andb].
    specialize (IH (S n) (S p) D ltac:(cbn [length] in L; lia)).
    destruct (rep_greedy [Digit] 1 None k (S n) (S p)
                (digits ++ 93%N :: post) g); [discriminate|].
    exfalso. apply IH. reflexivity.
Qed.

Lemma found_citation (content : text) :
  found CITATION_RE content = true <-> cited content.
Proof.
  split.
  - unfold found. destruct (search CITATION_RE content) as [x|] eqn:S;
      [intros _|intros H; discriminate H].
    apply search_sound in S. destruct S as (pre & w & after & E & M & _).
    unfold CITATION_RE in M. cbn [seq] in M.
    apply Matches_Cat_inv in M. destruct M as (w1 & w' & g1 & -> & M1 & M).
    apply Matches_Cat_inv in M. destruct M as (w2 & w3 & g2 & -> & M2 & M3).
    apply Matches_Lit_inv in M1. destruct M1 as [-> _].
    apply Matches_Rep_inv in M2. destruct M2 as (F & L & _).
    apply Matches_Lit_inv in M3. destruct M3 as [-> _].
    exists pre, w2, after. split.
    + intros ->. cbn [length] in L. lia.
    + split.
      * rewrite forallb_forall in F. apply forallb_forall. intros c I.
        specialize (F c I). cbn [in_cset existsb in_citem] in F.
        rewrite orb_false_r in F. exact F.
      * rewrite E, <- !app_assoc. reflexivity.
  - intros (pre & digits & post & NE & D & ->).
    apply found_complete. unfold match_at, CITATION_RE.
    cbn [seq m]. cbn [rest pos grp].
    replace (startswith (u "[") (u "[" ++ digits ++ u "]" ++ post)) with true
      by (symmetry; apply startswith_app).
    replace (skipn (length (u "[")) (u "[" ++ digits ++ u "]" ++ post))
      with (digits ++ 93%N :: post) by reflexivity.
    cbn [rest pos grp].
    match goal with
    | |- match ?x with _ => _ end <> None =>
      assert (X : x <> None);
        [|destruct x; [discriminate | exfalso; apply X; reflexivity]]
    end.
    apply rep_greedy_digits.
    + intros p. cbn [m rest pos grp]. vm_compute. discriminate.
    + exact D.
    + destruct digits; [exfalso; apply NE; reflexivity|cbn [length]; lia].
Qed.

Lemma rule_suggestions_spec (name content : text) :
  r_suggestions (rule_checks name content) =
  (if length content <? 500 then [u "建议扩充内容，增加具体细节和论证"] else []) ++
  (match missing_keywords (criteria_for name) content with
   | [] => []
   | _ :: _ =>
     [u "建议补充以下方面的内容："
        ++ join (u ", ") (missing_keywords (criteria_for name) content)]
   end) ++
  (if found STRUCTURE_RE content then []
   else [u "建议使用（1）（2）（3）等方式组织内容层次"]) ++
  (if Py.eqb name RATIONALE && negb (found CITATION_RE content)
   then [u "建议添加规范的文献引用，如[1]、[2]等"] else []).
Proof.
  unfold rule_checks.
  unfold check_citations, check_structure, check_keywords, check_length.
  destruct (missing_keywords (criteria_for name) content) as [|k1 l];
    destruct (length content <? 500), (found STRUCTURE_RE content),
      (Py.eqb name RATIONALE), (found CITATION_RE content);
    reflexivity.
Qed.

End RubricFacts.

(** C4. The rule-based review scores from 7: one point off for a content
    of fewer than 500 characters, half a point off for each keyword of the
    rubric of the section that does not occur in the content, nothing off
    for a content without enumeration mark, and one point off for a
    rationale without citation mark; the score is what is left, truncated
    to a whole number and clamped to [1,10] (counted here in half points,
    fourteen to start with, and halved towards zero).  The keywords
    that do not occur make one issue and one suggestion, which list them in
    the order of the rubric; the missing enumeration makes one more; and
    the revised content is the content itself. *)
Theorem rule_based_scoring (name content : text) :
  let r := _review_rule_based name content in
  exists (short plain uncited : bool) (absent : list text),
    (short = true <-> length content < 500) /\
    Absent content (rubric_keywords name) absent /\
    (plain = true <-> ~ enumerated content) /\
    (uncited = true <-> name = u "立项依据" /\ ~ cited content) /\
    score r
    = Z.max 1 (Z.min 10
        (Z.quot (14 - (if short then 2 else 0) - Z.of_nat (length absent)
                    - (if uncited then 2 else 0)) 2)) /\
    issues r
    = or_placeholder
        ((if short then [u "内容过于简短，缺乏详细论述"] else []) ++
         (match absent with
          | [] => []
          | _ :: _ => [u "缺少关键内容：" ++ join (u ", ") absent]
          end) ++
         (if plain then [u "缺乏清晰的层次结构"] else []) ++
         (if uncited then [u "缺少文献引用标注"] else []))
        (u "内容基本符合要求") /\
    suggestions r
    = or_placeholder
        ((if short then [u "建议扩充内容，增加具体细节和论证"] else []) ++
         (match absent with
          | [] => []
          | _ :: _ => [u "建议补充以下方面的内容：" ++ join (u ", ") absent]
          end) ++
         (if plain then [u "建议使用（1）（2）（3）等方式组织内容层次"] else []) ++
         (if uncited then [u "建议添加规范的文献引用，如[1]、[2]等"] else []))
        (u "可进一步优化细节") /\
    revised_content r = content /\
    original_content r = content /\
    section_name r = name.
Proof.
  cbv zeta.
  exists (length content <? 500), (negb (found STRUCTURE_RE content)),
         (Py.eqb name RATIONALE && negb (found CITATION_RE content)),
         (missing_keywords (criteria_for name) content).
  split; [apply Nat.ltb_lt|].
  split.
  { unfold missing_keywords. rewrite rubric_keywords_table.
    apply missing_absent. }
  split.
  { rewrite negb_true_iff, <- found_structure.
    destruct (found STRUCTURE_RE content); split; congruence. }
  split.
  { rewrite andb_true_iff, negb_true_iff, <- found_citation.
    change (u "立项依据") with RATIONALE. rewrite eqb_spec.
    destruct (found CITATION_RE content); split; intros [A B]; split;
      congruence. }
  split.
  { destruct (rule_score_spec name content) as [_ S]. rewrite S.
    destruct (half_points_range name content) as [[R1 R2] _].
    unfold half_points in *.
    set (h := (14 - _ - _ - _)%Z) in *.
    rewrite Z.quot_div_nonneg by lia.
    assert (2 <= h / 2 <= 7)%Z.
    { split; [apply Z.div_le_lower_bound | apply Z.div_le_upper_bound]; lia. }
    lia. }
  split.
  { rewrite rule_based_unfold. cbn [issues]. rewrite rule_issues_spec.
    unfold spec_rule_issues.
    destruct (found STRUCTURE_RE content); reflexivity. }
  split.
  { rewrite rule_based_unfold. cbn [suggestions].
    rewrite rule_suggestions_spec.
    destruct (found STRUCTURE_RE content); reflexivity. }
  rewrite rule_based_unfold. repeat split.
Qed.

(** X5. The rule-based review gives the full 7 points exactly to a content
    of 500 characters or more in which every keyword of the rubric of the
    section occurs and which, for the rationale, holds a citation mark. *)
Theorem rule_full_marks (name content : text) :
  score (_review_rule_based name content) = 7%Z <->
  500 <= length content /\
  (forall kw, In kw (rubric_keywords name) -> occurs kw content) /\
  (name = u "立项依据" -> cited content).
Proof.
  destruct (rule_score_spec name content) as [_ S]. rewrite S.
  destruct (half_points_range name content) as [R _].
  assert (Q : (half_points name content / 2 = 7)%Z
              <-> half_points name content = 14%Z).
  { split; intros H.
    - pose proof (Z.div_mod (half_points name content) 2 ltac:(lia)) as D.
      pose proof (Z.mod_pos_bound (half_points name content) 2 ltac:(lia)).
      lia.
    - rewrite H. reflexivity. }
  rewrite Q.
  assert (A : missing_keywords (criteria_for name) content = []
              <-> forall kw, In kw (rubric_keywords name) -> occurs kw content).
  { rewrite <- rubric_keywords_table. apply Absent_all, missing_absent. }
  rewrite <- A, <- found_citation. change (u "立项依据") with RATIONALE.
  unfold half_points.
  destruct (length content <? 500)%nat eqn:L;
    [apply Nat.ltb_lt in L | apply Nat.ltb_ge in L].
  - split; [|intros (H & _); lia].
    destruct (_ && _); lia.
  - destruct (missing_keywords (criteria_for name) content) as [|k l] eqn:M.
    + cbn [length]. destruct (Py.eqb name RATIONALE) eqn:E.
      * apply eqb_spec in E.
        destruct (found CITATION_RE content); cbn [andb negb].
        -- split; [auto|reflexivity].
        -- split; [lia|]. intros (_ & _ & H). specialize (H E).
           discriminate H.
      * apply eqb_neq in E. cbn [andb]. split; [|reflexivity].
        intros _. split; [exact L|]. split; [reflexivity|].
        intros H. contradiction.
    + cbn [length]. split; [|intros (_ & H & _); discriminate H].
      destruct (_ && _); lia.
Qed.

(** * The revised proposal, spelled out *)

(** C8. The revised proposal is the two header lines followed, for every
    section emitted, by its heading line [## name], its revised content and
    a blank line, all joined by line feeds.  The sections emitted are the
    canonical names 立项依据, 研究内容, 研究方案, 创新点, 预期成果, 研究基础
    that have a result, in this order, then the results under other names
    in the order of the mapping; a canonical name without result leaves no
    line.  Every result is emitted once and nothing else is, and the order
    in which the canonical sections were put into the mapping does not
    show: two mappings with the same entries and the same sequence of other
    sections give the same text. *)
Theorem assembler_order (results results' : dict ReviewResult) :
  NoDup (keys results) -> NoDup (keys results') ->
  Permutation results results' ->
  let order := [ u "立项依据"; u "研究内容"; u "研究方案";
                 u "创新点"; u "预期成果"; u "研究基础" ] in
  let other := fun name : text => negb (existsb (Py.eqb name) order) in
  let sections :=
    flat_map (fun name =>
                match dict_get name results with
                | Some result => [(name, result)]
                | None => []
                end) order
    ++ filter (fun '(name, _) => other name) results in
  generate_revised_proposal results =
    join [LF]
      ([ u "# 国自然科学基金申请书（修改版）" ++ [LF]; u "---" ++ [LF] ]
       ++ flat_map (fun '(name, result) =>
                      [ [LF] ++ u "## " ++ name ++ [LF];
                        revised_content result;
                        [LF] ])
                   sections) /\
  keys sections =
    filter (fun name => dict_mem name results) order
    ++ filter other (keys results) /\
  Permutation sections results /\
  (filter (fun '(name, _) => other name) results
     = filter (fun '(name, _) => other name) results' ->
   generate_revised_proposal results = generate_revised_proposal results').
Proof.
  intros N N' P.
  exact (revised_proposal_order results results' N N' P).
Qed.

Lemma assembler_order_witness :
  generate_revised_proposal sample_results =
    join [LF]
      [ u "# 国自然科学基金申请书（修改版）" ++ [LF]; u "---" ++ [LF];
        [LF] ++ u "## 立项依据" ++ [LF]; u "修改稿立项依据"; [LF];
        [LF] ++ u "## 创新点" ++ [LF]; u "修改稿创新点"; [LF];
        [LF] ++ u "## 研究基础" ++ [LF]; u "修改稿研究基础"; [LF];
        [LF] ++ u "## 全文" ++ [LF]; u "修改稿全文"; [LF] ] /\
  generate_revised_proposal sample_results
    = generate_revised_proposal sample_results_swapped.
Proof.
  assert (N : NoDup (keys sample_results)).
  { apply distinct_NoDup. vm_compute. reflexivity. }
  assert (N' : NoDup (keys sample_results_swapped)).
  { apply distinct_NoDup. vm_compute. reflexivity. }
  assert (P : Permutation sample_results sample_results_swapped).
  { apply perm_swap. }
  pose proof (assembler_order sample_results sample_results_swapped N N' P)
    as H.
  cbv zeta in H. destruct H as (G & _ & _ & E).
  split.
  - rewrite G. vm_compute. reflexivity.
  - apply E. vm_compute. reflexivity.
Defined.

(** The sections 创新点, 立项依据, 研究基础, put into the mapping in that
    order, come out as 立项依据, 创新点, 研究基础. *)
Example assembler_order_example :
  generate_revised_proposal
    [ (INNOVATION, sample_result INNOVATION);
      (RATIONALE, sample_result RATIONALE);
      (FOUNDATION, sample_result FOUNDATION) ]
  = u "# 国自然科学基金申请书（修改版）" ++ [LF; LF] ++ u "---" ++ [LF; LF]
    ++ [LF] ++ u "## 立项依据" ++ [LF; LF] ++ u "修改稿立项依据" ++ [LF; LF; LF]
    ++ [LF] ++ u "## 创新点" ++ [LF; LF] ++ u "修改稿创新点" ++ [LF; LF; LF]
    ++ [LF] ++ u "## 研究基础" ++ [LF; LF] ++ u "修改稿研究基础" ++ [LF; LF].
Proof. vm_compute. reflexivity. Qed.

(** * What the review report holds *)

Section ReportFacts.

Variable maxd : nat.

Lemma report_loop_cases : forall (results : dict ReviewResult)
    (lines : list text),
  match report_loop maxd results lines with
  | inl e =>
    exists name r, In (name, r) results /\ str_int maxd (score r) = inl e
  | inr out =>
    exists added, out = lines ++ added /\
      forall name r, In (name, r) results ->
        exists section pre post,
          report_lines maxd name r = inr section /\
          added = pre ++ section ++ post
  end.
Proof.
  induction results as [|[n0 r0] results IH]; intros lines;
    cbn [report_loop].
  - exists []. split; [rewrite app_nil_r; reflexivity|]. intros name r [].
  - destruct (report_lines maxd n0 r0) as [e|section] eqn:R.
    + exists n0, r0. split; [left; reflexivity|].
      unfold report_lines in R.
      destruct (str_int maxd (score r0)); [|discriminate R].
      injection R as <-. reflexivity.
    + specialize (IH (lines ++ section)).
      destruct (report_loop maxd results (lines ++ section)) as [e|out].
      * destruct IH as (name & r & I & E). exists name, r.
        split; [right; exact I | exact E].
      * destruct IH as (added & -> & H). exists (section ++ added).
        split; [rewrite app_assoc; reflexivity|].
        intros name r [I|I].
        -- injection I as <- <-. exists section, [], added.
           split; [exact R | reflexivity].
        -- destruct (H name r I) as (sec & pre & post & E & ->).
           exists sec, (section ++ pre), post. split; [exact E|].
           rewrite <- app_assoc. reflexivity.
Qed.

Lemma report_lines_inv (name : text) (r : ReviewResult)
    (section : list text) :
  report_lines maxd name r = inr section ->
  exists score_text,
    str_int maxd (score r) = inr score_text /\
    section =
      [ u "## 📝 " ++ name ++ [LF];
        u "**评分: " ++ score_text ++ u "/10**" ++ [LF; LF] ]
      ++ [ u "### 发现的问题" ++ [LF] ]
      ++ map (fun issue => u "- " ++ issue ++ [LF]) (issues r)
      ++ [ [LF] ++ u "### 修改建议" ++ [LF] ]
      ++ map (fun suggestion => u "- " ++ suggestion ++ [LF])
             (suggestions r)
      ++ [ [LF] ++ u "---" ++ [LF] ].
Proof.
  unfold report_lines.
  destruct (str_int maxd (score r)) as [x|score_text]; intros H;
    [discriminate H|].
  exists score_text. split; [reflexivity|].
  injection H as <-. reflexivity.
Qed.

End ReportFacts.

(** X17. The review report holds, for every section of the results, its
    heading followed by its score, and one bullet line for each of its
    issues and of its suggestions.  It fails only when the mean of the
    scores cannot be formatted, or when the number of sections or the score
    of a section has more digits than the interpreter writes. *)
Theorem review_report_complete (maxd : nat)
    (format_mean : Z -> nat -> exn + text)
    (results : dict ReviewResult) (name : text) (r : ReviewResult) :
  In (name, r) results ->
  match generate_review_report maxd format_mean results with
  | inl e =>
    format_mean (total_score results) (length results) = inl e \/
    str_int maxd (Z.of_nat (length results)) = inl e \/
    exists name' r', In (name', r') results /\
                     str_int maxd (score r') = inl e
  | inr report =>
    exists score_text,
      str_int maxd (score r) = inr score_text /\
      contains (u "## 📝 " ++ name ++ [LF] ++ [LF]
                  ++ u "**评分: " ++ score_text ++ u "/10**" ++ [LF; LF])
               report = true /\
      forall item, In item (issues r ++ suggestions r) ->
                   contains (u "- " ++ item ++ [LF]) report = true
  end.
Proof.
  intros H. unfold generate_review_report.
  destruct results as [|e0 results']; [destruct H|].
  set (results := e0 :: results') in *.
  destruct (format_mean (total_score results) (length results)) as [x|avg];
    [left; reflexivity|].
  destruct (str_int maxd (Z.of_nat (length results))) as [x|count];
    [right; left; reflexivity|].
  set (hdr := [_; _; _; _; _]).
  pose proof (report_loop_cases maxd results hdr) as C.
  destruct (report_loop maxd results hdr) as [x|lines].
  { right. right. exact C. }
  destruct C as (added & -> & A).
  destruct (A name r H) as (section & pre & post & R & ->).
  apply report_lines_inv in R. destruct R as (score_text & S & ->).
  exists score_text. split; [exact S|]. clearbody hdr.
  split.
  - replace (u "## 📝 " ++ name ++ [LF] ++ [LF]
               ++ u "**评分: " ++ score_text ++ u "/10**" ++ [LF; LF])
      with (join [LF] [ u "## 📝 " ++ name ++ [LF];
                        u "**评分: " ++ score_text ++ u "/10**"
                          ++ [LF; LF] ])
      by (cbn [join]; rewrite <- !app_assoc; reflexivity).
    rewrite <- !app_assoc. rewrite (app_assoc hdr pre).
    apply join_contains.
  - intros item I.
    set (section := [_; _] ++ _).
    assert (L : In (u "- " ++ item ++ [LF]) section).
    { subst section. apply in_app_or in I.
      apply in_or_app. right. apply in_or_app. right.
      apply in_or_app. destruct I as [I|I].
      - left. apply in_map_iff. exists item. auto.
      - right. apply in_or_app. right. apply in_or_app. left.
        apply in_map_iff. exists item. auto. }
    clearbody section.
    apply in_split in L. destruct L as (a & b & ->).
    replace (u "- " ++ item ++ [LF]) with (join [LF] [u "- " ++ item ++ [LF]])
      at 1 by reflexivity.
    change (a ++ (u "- " ++ item ++ [LF]) :: b)
      with (a ++ [u "- " ++ item ++ [LF]] ++ b).
    rewrite <- !app_assoc.
    rewrite (app_assoc hdr pre), (app_assoc (hdr ++ pre) a).
    apply join_contains.
Qed.

Lemma review_report_complete_witness :
  match generate_review_report 4300 (fun _ _ => inr (u "7.0"))
          sample_results with
  | inl e =>
    @inr exn text (u "7.0") = inl e \/
    str_int 4300 (Z.of_nat (length sample_results)) = inl e \/
    exists name' r', In (name', r') sample_results /\
                     str_int 4300 (score r') = inl e
  | inr report =>
    exists score_text,
      str_int 4300 (score (sample_result RATIONALE)) = inr score_text /\
      contains (u "## 📝 " ++ RATIONALE ++ [LF] ++ [LF]
                  ++ u "**评分: " ++ score_text ++ u "/10**" ++ [LF; LF])
               report = true /\
      forall item,
        In item (issues (sample_result RATIONALE)
                 ++ suggestions (sample_result RATIONALE)) ->
        contains (u "- " ++ item ++ [LF]) report = true
  end.
Proof.
  apply (review_report_complete 4300 (fun _ _ => inr (u "7.0"))
           sample_results RATIONALE (sample_result RATIONALE)).
  vm_compute. right. left. reflexivity.
Defined.

(** A score with more digits than the interpreter writes makes the report
    fail, also when the mean of the scores can be formatted. *)
Example report_raises_beyond_digit_limit :
  generate_review_report 640 (fun _ _ => inr (u "0.0"))
    [ (RATIONALE, mkReviewResult RATIONALE [] [] [] [] (10 ^ 640));
      (CONTENT, mkReviewResult CONTENT [] [] [] [] (- 10 ^ 640)) ]
  = inl (ValueError (u "Exceeds the limit (640 digits) for integer string conversion; use sys.set_int_max_str_digits() to increase the limit")).
Proof. vm_compute. reflexivity. Qed.

(** A numbered item whose text runs over several lines is left out: the
    pattern of an item takes one line, which must be followed by the next
    item, by a blank line or by the end. *)
Example item_over_several_lines_left_out :
  numbered_items ISSUES_RE
    (u "## 主要问题" ++ [LF] ++ u "1. 第一行" ++ [LF] ++ u "   续行内容"
       ++ [LF] ++ u "2. 第二条")
  = inr [u "第二条"].
Proof. vm_compute. reflexivity. Qed.
